(** * rpm.extract: the Ansible module [library/rpm.extract.py]

    A shallow embedding of [run_module] and of the operating-system
    services it calls, followed by the properties of the module.

    A Python [str] is modelled by a [string] that holds one element per
    character, so that [String.length] is [len] and a slice counts
    characters as Python does; the characters that matter to the module
    (['/'], ['.'], the letters of [".rpm"]) are ASCII.  A text with a
    character beyond the 256 that an element can hold has no image in
    the model: its encoding as bytes is not what the module slices.
    The filesystem is a tree of named entries; the process state is the
    filesystem, the current working directory and the list of the
    system calls issued so far. *)

From Stdlib Require Import String Ascii List ZArith Bool Lia Arith.
Import ListNotations.
Set Warnings "-register-all".
Local Open Scope string_scope.
Local Open Scope list_scope.

(** ** Python strings and [os.path] *)

Module PyStr.

(** [s[:-n]] for a positive literal [n]: the first [len(s) - n]
    characters, the empty string when [s] is shorter than [n].  The
    elements of [s] are its characters. *)
Definition slice_to_neg (n : nat) (s : string) : string :=
  substring 0 (String.length s - n) s.

(** [s.endswith(suf)]. *)
Definition endswith (suf s : string) : bool :=
  String.eqb (substring (String.length s - String.length suf)
                        (String.length suf) s) suf
  && Nat.leb (String.length suf) (String.length s).

(** [s.startswith("/")]. *)
Definition starts_with_slash (s : string) : bool :=
  match s with
  | String c _ => Ascii.eqb c "/"
  | EmptyString => false
  end.

(** [s.endswith("/")]. *)
Fixpoint ends_with_slash (s : string) : bool :=
  match s with
  | EmptyString => false
  | String c EmptyString => Ascii.eqb c "/"
  | String _ r => ends_with_slash r
  end.

(** [s.split("/")]: never empty, ["a//b"] gives [["a"; ""; "b"]]. *)
Fixpoint split_slash (s : string) : list string :=
  match s with
  | EmptyString => [EmptyString]
  | String c r =>
      if Ascii.eqb c "/" then EmptyString :: split_slash r
      else match split_slash r with
           | h :: t => String c h :: t
           | [] => [String c EmptyString]
           end
  end.

(** [needle in s]. *)
Fixpoint contains (needle s : string) : bool :=
  String.prefix needle s
  || match s with
     | EmptyString => false
     | String _ r => contains needle r
     end.

(** Truth value of a value that is [None] or a string: [if x:]. *)
Definition truthy (x : option string) : bool :=
  match x with
  | Some s => negb (String.eqb s "")
  | None => false
  end.

End PyStr.

Module PosixPath.

(** [os.path.basename(p)]: [p[p.rfind('/') + 1:]], the text after the
    last slash. *)
Definition basename (p : string) : string :=
  last (PyStr.split_slash p) EmptyString.

(** [os.path.join(a, b)] for two arguments. *)
Definition join (a b : string) : string :=
  if PyStr.starts_with_slash b then b
  else if String.eqb a "" || PyStr.ends_with_slash a then a ++ b
  else a ++ "/" ++ b.

End PosixPath.

(** The default destination name of line 152:
    [os.path.basename(src[:-len(".rpm")])]. *)
Definition default_dest (src : string) : string :=
  PosixPath.basename (PyStr.slice_to_neg (String.length ".rpm") src).

(** The reading of the documentation's words, for comparison only: the
    base name of the source, with [".rpm"] removed when, and only when,
    the name ends in exactly that suffix. *)
Definition dest_by_exact_suffix (src : string) : string :=
  let b := PosixPath.basename src in
  if PyStr.endswith ".rpm" b
  then PyStr.slice_to_neg (String.length ".rpm") b
  else b.

(** ** The filesystem

    An entry is a regular file, a symbolic link or a directory with
    named entries.  Every entry carries the owner and group that
    [lstat] reports for it.  A symbolic link records what [stat] says
    about its target ([to_dir]: the link resolves to a directory); the
    target itself is not part of the model, so the paths handed to the
    module are resolved through real directories only.  [pinned] marks
    an entry that the operating system refuses to remove (the source of
    the errors that [shutil.rmtree(..., ignore_errors=True)] swallows). *)

Record meta : Type := Meta {
  st_uid : Z;
  st_gid : Z;
  pinned : bool
}.

Inductive node : Type :=
| File (m : meta) (data : string)
| Symlink (m : meta) (to_dir : bool)
| Dir (m : meta) (entries : list (string * node)).

Definition entries_t : Type := list (string * node).

(** A location: the names from the root down to an entry. *)
Definition loc : Type := list string.

Definition node_meta (n : node) : meta :=
  match n with
  | File m _ | Symlink m _ | Dir m _ => m
  end.

Definition with_meta (m : meta) (n : node) : node :=
  match n with
  | File _ d => File m d
  | Symlink _ b => Symlink m b
  | Dir _ es => Dir m es
  end.

(** [S_ISDIR(lstat(p))]: a directory, not a link to one. *)
Definition is_real_dir (n : node) : bool :=
  match n with
  | Dir _ _ => true
  | _ => false
  end.

(** [S_ISDIR(stat(p))]: what [os.path.isdir] and [DirEntry.is_dir()]
    answer, both of which follow symbolic links. *)
Definition stat_is_dir (n : node) : bool :=
  match n with
  | Dir _ _ => true
  | Symlink _ b => b
  | File _ _ => false
  end.

Fixpoint assoc (name : string) (es : entries_t) : option node :=
  match es with
  | [] => None
  | (k, v) :: t => if String.eqb k name then Some v else assoc name t
  end.

Fixpoint lookup (n : node) (l : loc) : option node :=
  match l with
  | [] => Some n
  | c :: rest =>
      match n with
      | Dir _ es =>
          match assoc c es with
          | Some child => lookup child rest
          | None => None
          end
      | _ => None
      end
  end.

Definition without_name (name : string) (es : entries_t) : entries_t :=
  filter (fun kv => negb (String.eqb (fst kv) name)) es.

(** Rewrite the entry called [name]: [f] sees the entry ([None] when
    there is none) and answers the new one ([None] to remove it). *)
Fixpoint entries_alter (f : option node -> option node) (name : string)
    (es : entries_t) : entries_t :=
  match es with
  | [] =>
      match f None with
      | Some n => [(name, n)]
      | None => []
      end
  | (k, v) :: t =>
      if String.eqb k name
      then match f (Some v) with
           | Some n => (k, n) :: t
           | None => without_name name t
           end
      else (k, v) :: entries_alter f name t
  end.

(** Rewrite the entry at a location; nothing happens when the directory
    that should hold it does not exist.  The root cannot be removed. *)
Fixpoint alter (f : option node -> option node) (l : loc) (n : node)
    : node :=
  match l with
  | [] =>
      match f (Some n) with
      | Some n' => n'
      | None => n
      end
  | c :: rest =>
      match n with
      | Dir m es =>
          Dir m (entries_alter
                   (fun o => match rest with
                             | [] => f o
                             | _ => option_map (alter f rest) o
                             end) c es)
      | _ => n
      end
  end.

Definition dir_at (fs : node) (l : loc) : bool :=
  match lookup fs l with
  | Some n => is_real_dir n
  | None => false
  end.

Definition exists_at (fs : node) (l : loc) : bool :=
  match lookup fs l with
  | Some _ => true
  | None => false
  end.

(** *** Path resolution

    The components of a path string; empty components (doubled or
    trailing slashes) and ["."] do not move. *)
Definition components (p : string) : list string :=
  filter (fun c => negb (String.eqb c "" || String.eqb c "."))
         (PyStr.split_slash p).

(** Walk the components from a starting location.  A component is
    looked up in the location reached so far, which must be a
    directory; [".."] steps back to the parent.  The last component
    need not exist. *)
Fixpoint namei_from (fs : node) (stack : loc) (comps : list string)
    : option loc :=
  match comps with
  | [] => Some stack
  | c :: rest =>
      if dir_at fs stack
      then namei_from fs
             (if String.eqb c ".." then removelast stack
              else stack ++ [c])
             rest
      else None
  end.

(** The kernel resolves a relative path from the current directory and
    an absolute one from the root; the empty path names nothing. *)
Definition namei (fs : node) (cwd : loc) (p : string) : option loc :=
  if String.eqb p "" then None
  else namei_from fs (if PyStr.starts_with_slash p then [] else cwd)
                  (components p).




(** [os.getcwd()] renders the current directory as an absolute path. *)
Fixpoint render_from (l : loc) : string :=
  match l with
  | [] => ""
  | c :: rest => "/" ++ c ++ render_from rest
  end.

Definition render (l : loc) : string :=
  match l with
  | [] => "/"
  | _ => render_from l
  end.

(** *** [shutil.rmtree(path, ignore_errors=True)]

    What is left of an entry after the best-effort removal: [None] when
    it is gone.  A directory goes only when everything in it went. *)
Fixpoint prune (n : node) : option node :=
  match n with
  | File m _ | Symlink m _ => if pinned m then Some n else None
  | Dir m es =>
      let es' :=
        (fix go (es : entries_t) : entries_t :=
           match es with
           | [] => []
           | (k, v) :: t =>
               match prune v with
               | Some v' => (k, v') :: go t
               | None => go t
               end
           end) es in
      match es' with
      | [] => if pinned m then Some (Dir m []) else None
      | _ => Some (Dir m es')
      end
  end.

(** Called on a symbolic link or on a non-directory, [rmtree] raises
    at once and the error is ignored: nothing is removed. *)
Definition rmtree_entry (o : option node) : option node :=
  match o with
  | Some (Dir m es) => prune (Dir m es)
  | other => other
  end.

(** What is left of the entries of a directory. *)
Definition prune_entries : entries_t -> entries_t :=
  fix go (es : entries_t) : entries_t :=
    match es with
    | [] => []
    | (k, v) :: t =>
        match prune v with
        | Some v' => (k, v') :: go t
        | None => go t
        end
    end.

(** [rmtree] ends with [os.rmdir(path)], which the kernel refuses for
    a path whose last component is ["."] or [".."] and for the root:
    the directory is emptied as far as it goes and stays. *)
Definition rmtree_contents (o : option node) : option node :=
  match o with
  | Some (Dir m es) => Some (Dir m (prune_entries es))
  | other => other
  end.

Definition last_component (path : string) : string :=
  last (filter (fun c => negb (String.eqb c "")) (PyStr.split_slash path))
       EmptyString.

Definition rmdir_refuses (path : string) : bool :=
  let c := last_component path in
  String.eqb c "" || String.eqb c "." || String.eqb c "..".

Definition rmtree_at (path : string) : option node -> option node :=
  if rmdir_refuses path then rmtree_contents else rmtree_entry.

(** *** [os.walk(top)] with its defaults (top-down, links not followed)

    The names of a directory are split by [DirEntry.is_dir()], which
    follows links: a link to a directory is listed with the
    directories.  The walk then descends into the listed directories
    that are not links. *)
Definition dirnames (es : entries_t) : list string :=
  map fst (filter (fun kv => stat_is_dir (snd kv)) es).

Definition filenames (es : entries_t) : list string :=
  map fst (filter (fun kv => negb (stat_is_dir (snd kv))) es).

Definition walk_item : Type := (string * list string * list string)%type.

Fixpoint walk_node (top : string) (n : node) : list walk_item :=
  match n with
  | Dir _ es =>
      (top, dirnames es, filenames es)
        :: (fix go (es : entries_t) : list walk_item :=
              match es with
              | [] => []
              | (k, v) :: t => walk_node (PosixPath.join top k) v ++ go t
              end) es
  | _ => []
  end.

(** ** The process: state, exceptions and system calls *)

(** [errno] values of the [OSError]s the module can meet. *)
Inductive errno : Type := ENOENT | EEXIST | ENOTDIR | EACCES | EPERM.

(** The error of a resolution that does not get through: a component
    that is there without being a directory gives [ENOTDIR], a missing
    one [ENOENT], as the empty path does. *)
Fixpoint namei_errno_from (fs : node) (stack : loc) (comps : list string)
    : errno :=
  match comps with
  | [] => ENOENT
  | c :: rest =>
      if dir_at fs stack
      then namei_errno_from fs
             (if String.eqb c ".." then removelast stack
              else stack ++ [c])
             rest
      else if exists_at fs stack then ENOTDIR else ENOENT
  end.

Definition namei_errno (fs : node) (cwd : loc) (p : string) : errno :=
  if String.eqb p "" then ENOENT
  else namei_errno_from fs (if PyStr.starts_with_slash p then [] else cwd)
                        (components p).

(** JSON values of the module's result dictionary. *)
Inductive value : Type :=
| VNone
| VBool (b : bool)
| VStr (s : string).

(** A Python [dict] with string keys, in insertion order. *)
Definition dict : Type := list (string * value).

Fixpoint dict_get (k : string) (d : dict) : option value :=
  match d with
  | [] => None
  | (k', v) :: t => if String.eqb k' k then Some v else dict_get k t
  end.

(** [d[k] = v]: the key keeps its place when it is already there. *)
Fixpoint dict_set (k : string) (v : value) (d : dict) : dict :=
  match d with
  | [] => [(k, v)]
  | (k', v') :: t =>
      if String.eqb k' k then (k', v) :: t else (k', v') :: dict_set k v t
  end.

Definition of_opt (o : option string) : value :=
  match o with
  | Some s => VStr s
  | None => VNone
  end.

(** Python exceptions.  [module.exit_json] and [module.fail_json] leave
    through [sys.exit], with status 0 and 1; [SystemExit] carries the
    keyword arguments the module handed to them.  The record that is
    printed is made from these arguments by [AnsibleModule], which is
    not part of this repository (it adds the invocation and may add
    attributes of the path named by [dest]): the properties below are
    about what [run_module] hands over. *)
Inductive exn : Type :=
| KeyError (key : string)
| OSError (e : errno) (filename : string)
| SystemExit (status : Z) (kwargs : dict).

(** [except PermissionError] catches the [OSError]s of [EACCES] and
    [EPERM]. *)
Definition is_PermissionError (e : exn) : bool :=
  match e with
  | OSError EACCES _ | OSError EPERM _ => true
  | _ => false
  end.

Definition is_KeyError (e : exn) : bool :=
  match e with
  | KeyError _ => true
  | _ => false
  end.

(** The calls that reach outside the interpreter, as they are issued. *)
Inductive event : Type :=
| EvChdir (path : string)
| EvGetcwd
| EvIsdir (path : string)
| EvRmtree (path : string)
| EvMkdir (path : string)
| EvPopen (cmd : string) (exit_status : Z)
| EvGetpwnam (name : string)
| EvGetgrnam (name : string)
| EvWalk (top : string)
| EvChown (path : string) (uid gid : Z).

(** The calls that may write to the filesystem. *)
Definition is_mutation (e : event) : bool :=
  match e with
  | EvRmtree _ | EvMkdir _ | EvPopen _ _ | EvChown _ _ _ => true
  | _ => false
  end.

Definition is_chown (e : event) : bool :=
  match e with
  | EvChown _ _ _ => true
  | _ => false
  end.

Definition is_identity_lookup (e : event) : bool :=
  match e with
  | EvGetpwnam _ | EvGetgrnam _ => true
  | _ => false
  end.

Definition is_popen (e : event) : bool :=
  match e with
  | EvPopen _ _ => true
  | _ => false
  end.

Definition is_walk (e : event) : bool :=
  match e with
  | EvWalk _ => true
  | _ => false
  end.

Record state : Type := State {
  fs : node;
  cwd : loc;
  log : list event
}.

(** What lies outside the module: the home-directory expansion, the
    shell pipeline (given the command line, the filesystem and the
    directory it runs in, it answers the entries it writes into that
    directory, its combined output and its exit status), the password
    and group databases, the credentials of the process, and the
    kernel's answer to whether the process may add an entry to a
    directory with a given owner and group (the permission bits it
    consults are not part of the model). *)
Record Env : Type := {
  expanduser : string -> string;
  pipeline : string -> node -> loc -> entries_t * string * Z;
  passwd : string -> option Z;
  groupdb : string -> option Z;
  euid : Z;
  egid : Z;
  egroups : list Z;
  may_write : meta -> bool
}.

Inductive res (A : Type) : Type :=
| Ret (a : A)
| Raise (e : exn).
Arguments Ret {A} a.
Arguments Raise {A} e.

Definition M (A : Type) : Type := state -> res A * state.

Definition ret {A} (a : A) : M A := fun s => (Ret a, s).

Definition bind {A B} (c : M A) (k : A -> M B) : M B :=
  fun s =>
    match c s with
    | (Ret a, s') => k a s'
    | (Raise e, s') => (Raise e, s')
    end.

Definition raise {A} (e : exn) : M A := fun s => (Raise e, s).

(** [try: c  except E: h], where [catches] recognises [E]. *)
Definition try_except {A} (c : M A) (catches : exn -> bool)
    (h : exn -> M A) : M A :=
  fun s =>
    match c s with
    | (Ret a, s') => (Ret a, s')
    | (Raise e, s') => if catches e then h e s' else (Raise e, s')
    end.

Declare Scope monad_scope.
Delimit Scope monad_scope with monad.
Notation "x <- c ;; k" := (bind c (fun x => k))
  (at level 61, c at next level, right associativity) : monad_scope.
Notation "c ;; k" := (bind c (fun _ => k))
  (at level 61, right associativity) : monad_scope.
Local Open Scope monad_scope.

Definition emit (e : event) : M unit :=
  fun s => (Ret tt, State (fs s) (cwd s) (log s ++ [e])).

Definition get_fs : M node := fun s => (Ret (fs s), s).
Definition get_cwd : M loc := fun s => (Ret (cwd s), s).
Definition put_fs (f : node) : M unit :=
  fun s => (Ret tt, State f (cwd s) (log s)).
Definition put_cwd (c : loc) : M unit :=
  fun s => (Ret tt, State (fs s) c (log s)).

(** [for x in xs: body(x)]. *)
Fixpoint for_each {A} (xs : list A) (body : A -> M unit) : M unit :=
  match xs with
  | [] => ret tt
  | x :: t => body x ;; for_each t body
  end.

(** *** System calls

    The calls resolve their path as [namei] does, through directories;
    where a symbolic link leads is not recorded, so that what a call
    does with a path that meets one on its way is outside the model. *)

Definition os_chdir (path : string) : M unit :=
  emit (EvChdir path) ;;
  f <- get_fs ;;
  c <- get_cwd ;;
  match namei f c path with
  | Some l =>
      if dir_at f l then put_cwd l
      else raise (OSError (if exists_at f l then ENOTDIR else ENOENT) path)
  | None => raise (OSError (namei_errno f c path) path)
  end.

Definition os_getcwd : M string :=
  emit EvGetcwd ;;
  c <- get_cwd ;;
  ret (render c).

(** [os.path.isdir(path)]: [False] on every error of [stat]. *)
Definition path_isdir (f : node) (c : loc) (path : string) : bool :=
  match namei f c path with
  | Some l =>
      match lookup f l with
      | Some n => stat_is_dir n
      | None => false
      end
  | None => false
  end.

Definition os_path_isdir (path : string) : M bool :=
  emit (EvIsdir path) ;;
  f <- get_fs ;;
  c <- get_cwd ;;
  ret (path_isdir f c path).

Definition shutil_rmtree_ignore_errors (path : string) : M unit :=
  emit (EvRmtree path) ;;
  f <- get_fs ;;
  c <- get_cwd ;;
  match namei f c path with
  | Some l => put_fs (alter (rmtree_at path) l f)
  | None => ret tt
  end.

(** The directory created by [mkdir]: empty, owned by the process. *)
Definition fresh_dir (env : Env) : node :=
  Dir (Meta (euid env) (egid env) false) [].

Definition may_write_at (env : Env) (f : node) (l : loc) : bool :=
  match lookup f l with
  | Some n => may_write env (node_meta n)
  | None => false
  end.

(** [os.mkdir(path)]: the path must not exist, its parent must be a
    directory, and the process must be allowed to write to it. *)
Definition os_mkdir (env : Env) (path : string) : M unit :=
  emit (EvMkdir path) ;;
  f <- get_fs ;;
  c <- get_cwd ;;
  match namei f c path with
  | Some l =>
      if exists_at f l then raise (OSError EEXIST path)
      else if dir_at f (removelast l) then
        if may_write_at env f (removelast l)
        then put_fs (alter (fun _ => Some (fresh_dir env)) l f)
        else raise (OSError EACCES path)
      else raise (OSError ENOENT path)
  | None => raise (OSError (namei_errno f c path) path)
  end.

(** Entries written over a directory: a new entry replaces the old one
    of the same name. *)
Definition merge_entries (new old : entries_t) : entries_t :=
  new ++ filter (fun kv => match assoc (fst kv) new with
                           | Some _ => false
                           | None => true
                           end) old.

Definition populate (new : entries_t) (o : option node) : option node :=
  match o with
  | Some (Dir m es) => Some (Dir m (merge_entries new es))
  | other => other
  end.

(** [shell = os.popen(cmd); out = shell.read(); st = shell.close()]:
    the pipeline runs in the current directory; [close()] answers
    [None] on exit status 0 and the wait status otherwise. *)
Definition os_popen_read_close (env : Env) (cmd : string)
    : M (string * option Z) :=
  f <- get_fs ;;
  c <- get_cwd ;;
  let '(written, out, status) := pipeline env cmd f c in
  emit (EvPopen cmd status) ;;
  put_fs (alter (populate written) c f) ;;
  ret (out, if Z.eqb status 0 then None else Some (status * 256)%Z).

(** Truth value of what [close()] answers: [if shell.close():]. *)
Definition truthy_status (o : option Z) : bool :=
  match o with
  | Some z => negb (Z.eqb z 0)
  | None => false
  end.

Definition pwd_getpwnam_uid (env : Env) (name : string) : M Z :=
  emit (EvGetpwnam name) ;;
  match passwd env name with
  | Some uid => ret uid
  | None => raise (KeyError name)
  end.

Definition grp_getgrnam_gid (env : Env) (name : string) : M Z :=
  emit (EvGetgrnam name) ;;
  match groupdb env name with
  | Some gid => ret gid
  | None => raise (KeyError name)
  end.

(** [os.walk] lists a directory when the loop asks for the next item.
    [os.chown] changes neither names nor kinds, so the items are those
    of the tree as it stands when the walk starts; errors of the
    listing are ignored ([onerror=None]). *)
Definition os_walk (top : string) : M (list walk_item) :=
  emit (EvWalk top) ;;
  f <- get_fs ;;
  c <- get_cwd ;;
  ret match namei f c top with
      | Some l =>
          match lookup f l with
          | Some n => walk_node top n
          | None => []
          end
      | None => []
      end.

(** Who may change an owner: the superuser anything; the owner of an
    entry may keep the owner and set a group the process belongs to. *)
Definition chown_permitted (env : Env) (m : meta) (uid gid : Z) : bool :=
  Z.eqb (euid env) 0
  || (Z.eqb (st_uid m) (euid env)
      && (Z.eqb uid (-1) || Z.eqb uid (st_uid m))
      && (Z.eqb gid (-1) || Z.eqb gid (st_gid m)
          || Z.eqb gid (egid env)
          || existsb (Z.eqb gid) (egroups env))).

(** An id of [-1] leaves that id as it is. *)
Definition chown_meta (uid gid : Z) (m : meta) : meta :=
  Meta (if Z.eqb uid (-1) then st_uid m else uid)
       (if Z.eqb gid (-1) then st_gid m else gid)
       (pinned m).

(** [os.chown(path, uid, gid, follow_symlinks=False)]: the entry named
    by the path is changed, also when it is a symbolic link. *)
Definition chown_node (uid gid : Z) (n : node) : node :=
  with_meta (chown_meta uid gid (node_meta n)) n.

Definition os_chown_nofollow (env : Env) (path : string) (uid gid : Z)
    : M unit :=
  emit (EvChown path uid gid) ;;
  f <- get_fs ;;
  c <- get_cwd ;;
  match namei f c path with
  | Some l =>
      match lookup f l with
      | Some n =>
          if chown_permitted env (node_meta n) uid gid
          then put_fs (alter (option_map (chown_node uid gid)) l f)
          else raise (OSError EPERM path)
      | None => raise (OSError ENOENT path)
      end
  | None => raise (OSError (namei_errno f c path) path)
  end.

(** [module.exit_json] and [module.fail_json] with their keyword
    arguments; [msg] is one of the keyword arguments of [fail_json],
    which marks the record as failed. *)
Definition exit_json {A} (kwargs : dict) : M A :=
  raise (SystemExit 0 kwargs).

Definition fail_json {A} (msg : string) (kwargs : dict) : M A :=
  raise (SystemExit 1 (kwargs ++ [("failed", VBool true); ("msg", VStr msg)])).

(** ** The module *)

(** [module.params], after Ansible's argument parsing. *)
Record Params : Type := {
  p_src : string;
  p_dest : option string;
  p_chdir : option string;
  p_owner : option string;
  p_group : option string;
  p_force : bool
}.

(** The string of an option that was tested to be true. *)
Definition str_of (o : option string) : string :=
  match o with
  | Some s => s
  | None => ""
  end.

(** The command of line 192. *)
Definition extract_cmd (src : string) : string :=
  "rpm2cpio " ++ src ++ " | cpio --quiet --no-absolute-filenames -idumv 2>&1".

Definition msg_extract (src : string) : string :=
  "failed to extract " ++ src ++ " RPM file".

Definition msg_owner (owner : string) : string :=
  "owner '" ++ owner ++ "' not found in password database".

Definition msg_group (group : string) : string :=
  "group '" ++ group ++ "' not found in group database".

Definition msg_chown (result_dir : string) : string :=
  "failed to change permissions for path: " ++ result_dir
    ++ " [operation not permitted]".

(** Lines 125 to 146: the resolved request and the result dictionary. *)
Definition resolved_src (env : Env) (params : Params) : string :=
  expanduser env (p_src params).

Definition resolved_dest (env : Env) (params : Params) : option string :=
  if PyStr.truthy (p_dest params)
  then option_map (expanduser env) (p_dest params)
  else None.

Definition resolved_chdir (env : Env) (params : Params) : option string :=
  if PyStr.truthy (p_chdir params)
  then option_map (expanduser env) (p_chdir params)
  else None.

Definition initial_result (env : Env) (params : Params) : dict :=
  [ ("changed", VBool false);
    ("src", VStr (resolved_src env params));
    ("dest", of_opt (resolved_dest env params));
    ("chdir", of_opt (resolved_chdir env params));
    ("owner", of_opt (p_owner params));
    ("group", of_opt (p_group params));
    ("force", VBool (p_force params)) ].

(** Lines 150 to 153: the destination name and the dictionary after
    the default has been filled in. *)
Definition final_dest (env : Env) (params : Params) : string :=
  if PyStr.truthy (resolved_dest env params)
  then str_of (resolved_dest env params)
  else default_dest (resolved_src env params).

Definition prepared_result (env : Env) (params : Params) : dict :=
  if PyStr.truthy (resolved_dest env params)
  then initial_result env params
  else dict_set "dest" (VStr (default_dest (resolved_src env params)))
                (initial_result env params).

(** Lines 218 to 228, the body of the [try]. *)
Definition chown_loop (env : Env) (result_dir : string) (uid gid : Z)
    : M unit :=
  items <- os_walk result_dir ;;
  for_each items
    (fun '(dirpath, _, filenames) =>
       os_chown_nofollow env dirpath uid gid ;;
       for_each filenames
         (fun filename =>
            os_chown_nofollow env (PosixPath.join dirpath filename) uid gid)).

(** Lines 171 to 180: the prediction of check mode. *)
Definition predict (dest : string) (force : bool) (result : dict)
    : M unit :=
  isdir <- os_path_isdir dest ;;
  exit_json (if isdir
             then if force
                  then dict_set "changed" (VBool true) result
                  else dict_set "changed" (VBool false) result
             else dict_set "changed" (VBool true) result).

(** Lines 188 to 199: create the directory, enter it, run the
    pipeline. *)
Definition unpack (env : Env) (src dest : string) (result : dict)
    : M unit :=
  os_mkdir env dest ;;
  os_chdir dest ;;
  sh <- os_popen_read_close env (extract_cmd src) ;;
  if truthy_status (snd sh)
  then fail_json (msg_extract src) result
  else ret tt.

(** Lines 201 to 228: the ids, [-1] for the one that was not asked
    for, then the walk. *)
Definition normalize (env : Env) (owner group : option string)
    (result_dir : string) : M unit :=
  uid <- (if PyStr.truthy owner
          then try_except (pwd_getpwnam_uid env (str_of owner)) is_KeyError
                 (fun _ => fail_json (msg_owner (str_of owner)) [])
          else ret (-1)%Z) ;;
  gid <- (if PyStr.truthy group
          then try_except (grp_getgrnam_gid env (str_of group)) is_KeyError
                 (fun _ => fail_json (msg_group (str_of group)) [])
          else ret (-1)%Z) ;;
  if PyStr.truthy owner || PyStr.truthy group
  then try_except (chown_loop env result_dir uid gid) is_PermissionError
         (fun _ => fail_json (msg_chown result_dir) [])
  else ret tt.

(** Lines 171 to 231: check mode first, then the three scenarios of
    the comment at lines 163 to 168. *)
Definition decide (env : Env) (params : Params) (check_mode : bool)
    (result_dir : string) : M unit :=
  let src := resolved_src env params in
  let owner := p_owner params in
  let group := p_group params in
  let force := p_force params in
  let dest := final_dest env params in
  let result := prepared_result env params in
  (if check_mode then predict dest force result else ret tt) ;;
  isdir <- os_path_isdir dest ;;
  (if isdir then
     if force then shutil_rmtree_ignore_errors dest
     else exit_json result
   else ret tt) ;;
  unpack env src dest result ;;
  normalize env owner group result_dir ;;
  exit_json (dict_set "changed" (VBool true) result).

(** [run_module()], lines 108 to 231.  It always leaves through an
    exception: [SystemExit] from [exit_json] or [fail_json], or an
    error that nothing catches. *)
Definition run_module (env : Env) (params : Params) (check_mode : bool)
    : M unit :=
  let chdir := resolved_chdir env params in
  let dest := final_dest env params in
  (if PyStr.truthy chdir then os_chdir (str_of chdir) else ret tt) ;;
  cwd <- os_getcwd ;;
  decide env params check_mode (PosixPath.join cwd dest).

(** One invocation of the module in a fresh process. *)
Definition start (f : node) (c : loc) : state := State f c [].

Definition invoke (env : Env) (params : Params) (check_mode : bool)
    (f : node) (c : loc) : res unit * state :=
  run_module env params check_mode (start f c).

(** The [changed] value handed to [exit_json] or [fail_json], when the
    run ends in one of them. *)
Definition reported_changed (r : res unit) : option value :=
  match r with
  | Raise (SystemExit _ out) => dict_get "changed" out
  | _ => None
  end.

(** The directory in which the destination is resolved: the one named
    by [chdir] when it is given (and is a directory), the directory the
    process started in otherwise. *)
Definition workdir (env : Env) (params : Params) (f : node) (c : loc)
    : option loc :=
  if PyStr.truthy (resolved_chdir env params)
  then match namei f c (str_of (resolved_chdir env params)) with
       | Some l => if dir_at f l then Some l else None
       | None => None
       end
  else Some c.

(** The calls issued up to the point where the destination is
    inspected. *)
Definition entry_log (env : Env) (params : Params) : list event :=
  (if PyStr.truthy (resolved_chdir env params)
   then [EvChdir (str_of (resolved_chdir env params))]
   else [])
  ++ [EvGetcwd].

(** ** A concrete host, used to run the module *)

Module Host.

Definition root_owned : meta := Meta 0 0 false.
Definition build_owned : meta := Meta 1000 1000 false.

(** What the archive of [/srv/pkg-2.3.rpm] holds. *)
Definition payload : entries_t :=
  [ ("usr",
     Dir build_owned
       [ ("bin", Dir build_owned [("tool", File build_owned "ELF")]);
         ("lib64", Symlink build_owned true);
         ("README", File build_owned "read me");
         ("current", Symlink build_owned false) ]) ].

Definition cpio_complaint : string := "cpio: premature end of archive".

Definition env : Env := {|
  expanduser := fun path => path;
  pipeline := fun cmd _ _ =>
    if String.eqb cmd (extract_cmd "/srv/pkg-2.3.rpm")
    then (payload, "usr/bin/tool", 0%Z)
    else ([], cpio_complaint, 2%Z);
  passwd := fun name =>
    if String.eqb name "root" then Some 0%Z
    else if String.eqb name "deploy" then Some 2000%Z
    else None;
  groupdb := fun name =>
    if String.eqb name "root" then Some 0%Z
    else if String.eqb name "staff" then Some 50%Z
    else None;
  euid := 0;
  egid := 0;
  egroups := [];
  may_write := fun _ => true
|}.

(** The same host for a process that is not the superuser: it may
    write to the directories it owns. *)
Definition env_unprivileged : Env := {|
  expanduser := expanduser env;
  pipeline := pipeline env;
  passwd := passwd env;
  groupdb := groupdb env;
  euid := 1000;
  egid := 1000;
  egroups := [];
  may_write := fun m => Z.eqb (st_uid m) 1000
|}.

(** [/srv] holds the archive, [/work] a regular file called [notes]. *)
Definition disk : node :=
  Dir root_owned
    [ ("srv", Dir root_owned [("pkg-2.3.rpm", File root_owned "rpm")]);
      ("work", Dir root_owned [("notes", File root_owned "todo")]) ].

(** The same disk with [/work] owned by the unprivileged user. *)
Definition disk_writable : node :=
  Dir root_owned
    [ ("srv", Dir root_owned [("pkg-2.3.rpm", File root_owned "rpm")]);
      ("work", Dir build_owned [("notes", File build_owned "todo")]) ].

(** The same disk after the archive was unpacked once in [/work]. *)
Definition disk_unpacked : node :=
  Dir root_owned
    [ ("srv", Dir root_owned [("pkg-2.3.rpm", File root_owned "rpm")]);
      ("work", Dir root_owned
                 [ ("notes", File root_owned "todo");
                   ("pkg-2.3", Dir root_owned payload) ]) ].

Definition request : Params := {|
  p_src := "/srv/pkg-2.3.rpm";
  p_dest := None;
  p_chdir := Some "/work";
  p_owner := None;
  p_group := None;
  p_force := false
|}.

Definition with_owner (o : string) (r : Params) : Params := {|
  p_src := p_src r; p_dest := p_dest r; p_chdir := p_chdir r;
  p_owner := Some o; p_group := p_group r; p_force := p_force r
|}.

Definition with_group (g : string) (r : Params) : Params := {|
  p_src := p_src r; p_dest := p_dest r; p_chdir := p_chdir r;
  p_owner := p_owner r; p_group := Some g; p_force := p_force r
|}.

Definition with_dest (d : string) (r : Params) : Params := {|
  p_src := p_src r; p_dest := Some d; p_chdir := p_chdir r;
  p_owner := p_owner r; p_group := p_group r; p_force := p_force r
|}.

Definition with_src (src : string) (r : Params) : Params := {|
  p_src := src; p_dest := p_dest r; p_chdir := p_chdir r;
  p_owner := p_owner r; p_group := p_group r; p_force := p_force r
|}.

Definition with_force (b : bool) (r : Params) : Params := {|
  p_src := p_src r; p_dest := p_dest r; p_chdir := p_chdir r;
  p_owner := p_owner r; p_group := p_group r; p_force := b
|}.

End Host.

(** * Properties *)

(** ** Strings and paths, run on examples *)

Example default_dest_foo :
  default_dest "/srv/rpms/foo-1.0.rpm" = "foo-1.0".
Proof. reflexivity. Qed.

Example default_dest_tgz : default_dest "pkg.tgz" = "pkg".
Proof. reflexivity. Qed.

Example default_dest_short : default_dest "x" = "".
Proof. reflexivity. Qed.

Example join_abs : PosixPath.join "/tmp" "/opt/x" = "/opt/x".
Proof. reflexivity. Qed.

Example join_rel : PosixPath.join "/tmp" "x" = "/tmp/x".
Proof. reflexivity. Qed.

Example join_root : PosixPath.join "/" "x" = "/x".
Proof. reflexivity. Qed.

(** ** The module's entry: [chdir] and [getcwd] *)

Lemma workdir_entered env params cm f c l0 w :
  workdir env params f c = Some w ->
  run_module env params cm (State f c l0)
  = decide env params cm
      (PosixPath.join (render w) (final_dest env params))
      (State f w (l0 ++ entry_log env params)).
Proof.
  unfold workdir, run_module, entry_log, os_chdir, os_getcwd, bind, emit,
    get_fs, get_cwd, put_cwd, ret; cbn.
  destruct (PyStr.truthy (resolved_chdir env params)); cbn.
  - destruct (namei f c _) as [l|]; [|discriminate].
    destruct (dir_at f l); [|discriminate].
    intros [= ->]. cbn. now rewrite <- app_assoc.
  - now intros [= ->].
Qed.

Lemma workdir_refused env params cm f c l0 :
  workdir env params f c = None ->
  exists e,
    run_module env params cm (State f c l0)
    = (Raise (OSError e (str_of (resolved_chdir env params))),
       State f c (l0 ++ [EvChdir (str_of (resolved_chdir env params))])).
Proof.
  unfold workdir, run_module, os_chdir, os_getcwd, bind, emit,
    get_fs, get_cwd, put_cwd, ret, raise; cbn.
  destruct (PyStr.truthy (resolved_chdir env params)); cbn; [|discriminate].
  destruct (namei f c _) as [l|]; cbn.
  - destruct (dir_at f l); [discriminate|]. intros _. now eexists.
  - intros _. now eexists.
Qed.

(** Check mode: one [isdir], then the exit. *)
Lemma decide_check_mode env params rd f w l0 :
  decide env params true rd (State f w l0)
  = (Raise (SystemExit 0
       (dict_set "changed"
          (VBool (if path_isdir f w (final_dest env params)
                  then p_force params else true))
          (prepared_result env params))),
     State f w (l0 ++ [EvIsdir (final_dest env params)])).
Proof.
  unfold decide, predict, os_path_isdir, exit_json, raise, bind, emit,
    get_fs, get_cwd, ret; cbn.
  destruct (path_isdir f w _); [destruct (p_force params)|]; reflexivity.
Qed.

(** A present destination without [force]: one [isdir], then the exit
    with the dictionary as it was prepared. *)
Lemma decide_present_no_force env params rd f w l0 :
  path_isdir f w (final_dest env params) = true ->
  p_force params = false ->
  decide env params false rd (State f w l0)
  = (Raise (SystemExit 0 (prepared_result env params)),
     State f w (l0 ++ [EvIsdir (final_dest env params)])).
Proof.
  intros Hd Hf.
  unfold decide, os_path_isdir, exit_json, raise, bind, emit,
    get_fs, get_cwd, ret; cbn.
  now rewrite Hd, Hf.
Qed.

Lemma prepared_result_changed env params :
  dict_get "changed" (prepared_result env params) = Some (VBool false).
Proof.
  unfold prepared_result.
  now destruct (PyStr.truthy (resolved_dest env params)).
Qed.

Lemma prepared_result_unchanged env params :
  dict_set "changed" (VBool false) (prepared_result env params)
  = prepared_result env params.
Proof.
  unfold prepared_result.
  now destruct (PyStr.truthy (resolved_dest env params)).
Qed.

(** ** The no-op run *)

(** C9: in a real run (no check mode) whose destination is already a
    directory and whose [force] is false, the module leaves through
    [exit_json] with [changed] false right after the directory test:
    the filesystem is as it was and neither the password nor the group
    database has been asked, so a name that cannot be resolved does not
    make such a run fail (the statement holds for every database). *)
Theorem noop_exits_before_identity_lookup env params f c w :
  workdir env params f c = Some w ->
  path_isdir f w (final_dest env params) = true ->
  p_force params = false ->
  invoke env params false f c
  = (Raise (SystemExit 0 (prepared_result env params)),
     State f w (entry_log env params ++ [EvIsdir (final_dest env params)]))
  /\ dict_get "changed" (prepared_result env params) = Some (VBool false)
  /\ forallb (fun e => negb (is_identity_lookup e))
       (log (snd (invoke env params false f c))) = true.
Proof.
  intros Hw Hd Hf.
  assert (E : invoke env params false f c
              = (Raise (SystemExit 0 (prepared_result env params)),
                 State f w (entry_log env params
                              ++ [EvIsdir (final_dest env params)]))).
  { unfold invoke, start.
    rewrite (workdir_entered _ _ _ _ _ _ _ Hw).
    now rewrite decide_present_no_force. }
  split; [exact E|]. split; [apply prepared_result_changed|].
  rewrite E. cbn [snd log]. unfold entry_log.
  now destruct (PyStr.truthy (resolved_chdir env params)).
Qed.

(** The instance of C9 on the concrete host: the owner [ghost] is not
    in the password database, the destination exists. *)
Lemma noop_exits_before_identity_lookup_witness :
  invoke Host.env (Host.with_owner "ghost" Host.request) false
         Host.disk_unpacked []
  = (Raise (SystemExit 0
       [ ("changed", VBool false); ("src", VStr "/srv/pkg-2.3.rpm");
         ("dest", VStr "pkg-2.3"); ("chdir", VStr "/work");
         ("owner", VStr "ghost"); ("group", VNone);
         ("force", VBool false) ]),
     State Host.disk_unpacked ["work"]
       [EvChdir "/work"; EvGetcwd; EvIsdir "pkg-2.3"])
  /\ passwd Host.env "ghost" = None.
Proof.
  split; [|reflexivity].
  exact (proj1 (noop_exits_before_identity_lookup
                  Host.env (Host.with_owner "ghost" Host.request)
                  Host.disk_unpacked [] ["work"]
                  eq_refl eq_refl eq_refl)).
Defined.

(** ** Check mode *)

Lemma check_mode_run env params f c w :
  workdir env params f c = Some w ->
  invoke env params true f c
  = (Raise (SystemExit 0
       (dict_set "changed"
          (VBool (if path_isdir f w (final_dest env params)
                  then p_force params else true))
          (prepared_result env params))),
     State f w (entry_log env params ++ [EvIsdir (final_dest env params)])).
Proof.
  intros Hw. unfold invoke, start.
  rewrite (workdir_entered _ _ _ _ _ _ _ Hw).
  now rewrite decide_check_mode.
Qed.

(** Check mode never writes, whether or not the working directory can
    be entered. *)
Lemma check_mode_never_writes env params f c :
  fs (snd (invoke env params true f c)) = f
  /\ forallb (fun e => negb (is_mutation e))
       (log (snd (invoke env params true f c))) = true.
Proof.
  destruct (workdir env params f c) as [w|] eqn:Hw.
  - rewrite (check_mode_run _ _ _ _ _ Hw). cbn [snd fs log].
    split; [reflexivity|]. unfold entry_log.
    now destruct (PyStr.truthy (resolved_chdir env params)).
  - unfold invoke, start.
    destruct (workdir_refused env params true f c [] Hw) as [e ->].
    now cbn.
Qed.

(** C10: in check mode with a working directory given (one that can be
    entered), the process changes into that directory before the
    destination is tested, and is still there when the module exits;
    the filesystem is the one the run started with, and the calls
    issued are [chdir], [getcwd] and [isdir] only: nothing is deleted,
    created, unpacked or chowned. *)
Theorem check_mode_changes_directory_only env params f c w :
  PyStr.truthy (resolved_chdir env params) = true ->
  namei f c (str_of (resolved_chdir env params)) = Some w ->
  dir_at f w = true ->
  let final := snd (invoke env params true f c) in
  cwd final = w
  /\ fs final = f
  /\ log final = [ EvChdir (str_of (resolved_chdir env params));
                   EvGetcwd;
                   EvIsdir (final_dest env params) ]
  /\ forallb (fun e => negb (is_mutation e)) (log final) = true
  /\ fst (invoke env params true f c)
     = Raise (SystemExit 0
         (dict_set "changed"
            (VBool (if path_isdir f w (final_dest env params)
                    then p_force params else true))
            (prepared_result env params))).
Proof.
  intros Ht Hn Hd final.
  assert (Hw : workdir env params f c = Some w).
  { unfold workdir. now rewrite Ht, Hn, Hd. }
  subst final. rewrite (check_mode_run _ _ _ _ _ Hw).
  cbn [fst snd fs cwd log]. unfold entry_log. rewrite Ht.
  repeat split; reflexivity.
Qed.

(** The instance of C10 on the concrete host: the process starts in
    [/srv] and ends in [/work]. *)
Lemma check_mode_changes_directory_only_witness :
  let final := snd (invoke Host.env Host.request true Host.disk ["srv"]) in
  cwd final = ["work"]
  /\ fs final = Host.disk
  /\ log final = [EvChdir "/work"; EvGetcwd; EvIsdir "pkg-2.3"].
Proof.
  destruct (check_mode_changes_directory_only
              Host.env Host.request Host.disk ["srv"] ["work"]
              eq_refl eq_refl eq_refl) as (H1 & H2 & H3 & _).
  exact (conj H1 (conj H2 H3)).
Defined.

(** ** The filesystem tree *)

Lemma assoc_without_name_same k es : assoc k (without_name k es) = None.
Proof.
  unfold without_name.
  induction es as [|[k' v] t IH]; cbn; [reflexivity|].
  destruct (String.eqb k' k) eqn:E; cbn; [exact IH|].
  now rewrite E.
Qed.

Lemma assoc_without_name_other k k' es :
  k' <> k -> assoc k' (without_name k es) = assoc k' es.
Proof.
  intros Hk. unfold without_name.
  induction es as [|[k0 v] t IH]; cbn; [reflexivity|].
  destruct (String.eqb k0 k) eqn:E; cbn.
  - apply String.eqb_eq in E. subst k0.
    destruct (String.eqb k k') eqn:E'; [|exact IH].
    apply String.eqb_eq in E'. congruence.
  - now rewrite IH.
Qed.

Lemma assoc_entries_alter_same g k es :
  assoc k (entries_alter g k es) = g (assoc k es).
Proof.
  induction es as [|[k' v] t IH]; cbn.
  - destruct (g None); cbn; [now rewrite String.eqb_refl|reflexivity].
  - destruct (String.eqb k' k) eqn:E; cbn.
    + destruct (g (Some v)); cbn; [now rewrite E|].
      apply assoc_without_name_same.
    + now rewrite E.
Qed.

Lemma assoc_entries_alter_other g k k' es :
  k' <> k -> assoc k' (entries_alter g k es) = assoc k' es.
Proof.
  intros Hk. induction es as [|[k0 v] t IH]; cbn.
  - destruct (g None); cbn; [|reflexivity].
    destruct (String.eqb k k') eqn:E; [|reflexivity].
    apply String.eqb_eq in E. congruence.
  - destruct (String.eqb k0 k) eqn:E; cbn.
    + apply String.eqb_eq in E. subst k0.
      assert (E' : String.eqb k k' = false).
      { apply String.eqb_neq. congruence. }
      destruct (g (Some v)); cbn; [now rewrite E'|].
      rewrite E'. now apply assoc_without_name_other.
    + now rewrite IH.
Qed.

(** The entry at the altered location is what the function answers. *)
Lemma lookup_alter_here g l : forall f n n',
  lookup f l = Some n -> g (Some n) = Some n' ->
  lookup (alter g l f) l = Some n'.
Proof.
  induction l as [|c rest IH]; intros f n n' Hl Hg.
  - cbn in *. injection Hl as ->. now rewrite Hg.
  - cbn in Hl. destruct f as [m d|m b|m es]; try discriminate.
    destruct (assoc c es) as [child|] eqn:Hc; [|discriminate].
    cbn [alter lookup]. rewrite assoc_entries_alter_same, Hc.
    destruct rest as [|c' rest'].
    + cbn in Hl. injection Hl as ->. now rewrite Hg.
    + cbn [option_map]. now apply (IH child n n').
Qed.

(** A new entry appears where the function creates one, as long as the
    directory that holds it exists. *)
Lemma lookup_alter_created g l : forall f n',
  l <> [] ->
  dir_at f (removelast l) = true ->
  lookup f l = None -> g None = Some n' ->
  lookup (alter g l f) l = Some n'.
Proof.
  induction l as [|c rest IH]; intros f n' Hne Hp Hl Hg; [congruence|].
  unfold dir_at in Hp.
  destruct rest as [|c' rest'].
  - cbn in Hp. destruct f as [m d|m b|m es]; try discriminate.
    cbn in Hl. cbn [alter lookup]. rewrite assoc_entries_alter_same.
    destruct (assoc c es); [discriminate|]. now rewrite Hg.
  - change (removelast (c :: c' :: rest')) with (c :: removelast (c' :: rest')) in Hp.
    cbn [lookup] in Hp, Hl.
    destruct f as [m d|m b|m es]; try discriminate.
    cbn [alter lookup]. rewrite assoc_entries_alter_same.
    destruct (assoc c es) as [child|]; [|discriminate].
    cbn [option_map]. apply IH; try assumption; try discriminate.
Qed.

(** ** Reasoning about commands

    Three ways to describe a command without running it: a property of
    the state that it keeps, the exceptions it may raise, and the calls
    it may add to the log. *)

Section Commands.

Context {A : Type}.

Definition preserves (I : state -> Prop) (c : M A) : Prop :=
  forall s, I s -> I (snd (c s)).

Definition raises_only (Q : exn -> Prop) (c : M A) : Prop :=
  forall s e s', c s = (Raise e, s') -> Q e.

Definition only_adds (P : event -> bool) (c : M A) : Prop :=
  forall s, exists added,
    log (snd (c s)) = log s ++ added /\ forallb P added = true.

Lemma preserves_ret I (a : A) : preserves I (ret a).
Proof. now intros s H. Qed.

Lemma preserves_raise I e : preserves I (@raise A e).
Proof. now intros s H. Qed.

Lemma raises_only_ret Q (a : A) : raises_only Q (ret a).
Proof. intros s e s' H. discriminate. Qed.

Lemma raises_only_raise (Q : exn -> Prop) e : Q e -> raises_only Q (@raise A e).
Proof. intros H s e' s' [= <- _]. exact H. Qed.

Lemma only_adds_ret P (a : A) : only_adds P (ret a).
Proof. intros s. exists []. now rewrite app_nil_r. Qed.

Lemma only_adds_raise P e : only_adds P (@raise A e).
Proof. intros s. exists []. now rewrite app_nil_r. Qed.

Lemma preserves_try I (c : M A) catches h :
  preserves I c -> (forall e, preserves I (h e)) ->
  preserves I (try_except c catches h).
Proof.
  intros Hc Hh s Hs. unfold try_except. specialize (Hc s Hs).
  destruct (c s) as [[a|e] s1]; cbn in *; [assumption|].
  destruct (catches e); [now apply Hh|assumption].
Qed.

Lemma raises_only_try (Q : exn -> Prop) (c : M A) catches h :
  (forall s e s', c s = (Raise e, s') -> catches e = false -> Q e) ->
  (forall e, raises_only Q (h e)) ->
  raises_only Q (try_except c catches h).
Proof.
  intros Hc Hh s e s' H. unfold try_except in H.
  destruct (c s) as [[a|e0] s1] eqn:E; [discriminate|].
  destruct (catches e0) eqn:Hcatch.
  - now apply (Hh e0 s1 e s').
  - injection H as <- <-. now apply (Hc s e0 s1).
Qed.

Lemma only_adds_try P (c : M A) catches h :
  only_adds P c -> (forall e, only_adds P (h e)) ->
  only_adds P (try_except c catches h).
Proof.
  intros Hc Hh s. unfold try_except. destruct (Hc s) as (a1 & E1 & F1).
  destruct (c s) as [[a|e] s1]; cbn in *; [now exists a1|].
  destruct (catches e); [|now exists a1].
  destruct (Hh e s1) as (a2 & E2 & F2).
  exists (a1 ++ a2). rewrite E2, E1, app_assoc. split; [reflexivity|].
  now rewrite forallb_app, F1, F2.
Qed.

End Commands.

Lemma preserves_bind {A B} I (c : M A) (k : A -> M B) :
  preserves I c -> (forall a, preserves I (k a)) -> preserves I (bind c k).
Proof.
  intros Hc Hk s Hs. unfold bind. specialize (Hc s Hs).
  destruct (c s) as [[a|e] s1]; cbn in *; [now apply Hk|assumption].
Qed.

Lemma raises_only_bind {A B} (Q : exn -> Prop) (c : M A) (k : A -> M B) :
  raises_only Q c -> (forall a, raises_only Q (k a)) ->
  raises_only Q (bind c k).
Proof.
  intros Hc Hk s e s' H. unfold bind in H.
  destruct (c s) as [[a|e0] s1] eqn:E.
  - now apply (Hk a s1 e s').
  - injection H as <- <-. now apply (Hc s e0 s1).
Qed.

Lemma only_adds_bind {A B} P (c : M A) (k : A -> M B) :
  only_adds P c -> (forall a, only_adds P (k a)) -> only_adds P (bind c k).
Proof.
  intros Hc Hk s. unfold bind. destruct (Hc s) as (a1 & E1 & F1).
  destruct (c s) as [[a|e] s1]; cbn in *; [|now exists a1].
  destruct (Hk a s1) as (a2 & E2 & F2).
  exists (a1 ++ a2). rewrite E2, E1, app_assoc. split; [reflexivity|].
  now rewrite forallb_app, F1, F2.
Qed.

Lemma preserves_for_each {A} I (xs : list A) body :
  (forall x, preserves I (body x)) -> preserves I (for_each xs body).
Proof.
  intros Hb. induction xs as [|x t IH]; cbn [for_each].
  - apply preserves_ret.
  - apply preserves_bind; [apply Hb|intros _; exact IH].
Qed.

Lemma raises_only_for_each {A} (Q : exn -> Prop) (xs : list A) body :
  (forall x, raises_only Q (body x)) -> raises_only Q (for_each xs body).
Proof.
  intros Hb. induction xs as [|x t IH]; cbn [for_each].
  - apply raises_only_ret.
  - apply raises_only_bind; [apply Hb|intros _; exact IH].
Qed.

Lemma only_adds_for_each {A} P (xs : list A) body :
  (forall x, only_adds P (body x)) -> only_adds P (for_each xs body).
Proof.
  intros Hb. induction xs as [|x t IH]; cbn [for_each].
  - apply only_adds_ret.
  - apply only_adds_bind; [apply Hb|intros _; exact IH].
Qed.

Lemma only_adds_emit P e : P e = true -> only_adds P (emit e).
Proof.
  intros H s. exists [e]. cbn. now rewrite H.
Qed.

(** ** The system calls, one by one *)

Ltac unfold_calls :=
  unfold os_chdir, os_getcwd, os_path_isdir, shutil_rmtree_ignore_errors,
    os_mkdir, os_popen_read_close, pwd_getpwnam_uid, grp_getgrnam_gid,
    os_walk, os_chown_nofollow, exit_json, fail_json,
    bind, emit, get_fs, get_cwd, put_fs, put_cwd, ret, raise.

Ltac case_split :=
  repeat match goal with
         | |- context [match ?x with _ => _ end] =>
             let E := fresh "E" in destruct x eqn:E; cbn
         end.

Ltac one_event e H :=
  let s := fresh "s" in
  intros s; exists [e]; unfold_calls; cbn; case_split; cbn; rewrite H;
  split; reflexivity.

Lemma only_adds_chown P env p u g :
  P (EvChown p u g) = true -> only_adds P (os_chown_nofollow env p u g).
Proof. intros H. one_event (EvChown p u g) H. Qed.

Lemma only_adds_walk P top :
  P (EvWalk top) = true -> only_adds P (os_walk top).
Proof. intros H. one_event (EvWalk top) H. Qed.

Lemma only_adds_getpwnam P env name :
  P (EvGetpwnam name) = true -> only_adds P (pwd_getpwnam_uid env name).
Proof. intros H. one_event (EvGetpwnam name) H. Qed.

Lemma only_adds_getgrnam P env name :
  P (EvGetgrnam name) = true -> only_adds P (grp_getgrnam_gid env name).
Proof. intros H. one_event (EvGetgrnam name) H. Qed.

Lemma only_adds_fail_json {A} P msg kw : only_adds P (@fail_json A msg kw).
Proof. apply only_adds_raise. Qed.

(** The loop of lines 222 to 226 issues the walk and then [chown]s, all
    with the same two ids. *)
Lemma only_adds_chown_loop P env rd uid gid :
  P (EvWalk rd) = true ->
  (forall p, P (EvChown p uid gid) = true) ->
  only_adds P (chown_loop env rd uid gid).
Proof.
  intros Hw Hc. unfold chown_loop.
  apply only_adds_bind; [now apply only_adds_walk|]. intros items.
  apply only_adds_for_each. intros [[dirpath dn] fn].
  apply only_adds_bind; [now apply only_adds_chown|]. intros _.
  apply only_adds_for_each. intros filename. now apply only_adds_chown.
Qed.

(** [chown] raises [OSError] only, and so does the loop. *)
Definition is_OSError (e : exn) : Prop :=
  match e with
  | OSError _ _ => True
  | _ => False
  end.

Lemma raises_only_chown env p u g :
  raises_only is_OSError (os_chown_nofollow env p u g).
Proof.
  intros s e s'. unfold_calls. cbn. case_split; intros [= <- _]; exact I.
Qed.

Lemma raises_only_chown_loop env rd uid gid :
  raises_only is_OSError (chown_loop env rd uid gid).
Proof.
  unfold chown_loop. apply raises_only_bind.
  - intros s e s'. unfold_calls. cbn. discriminate.
  - intros items. apply raises_only_for_each. intros [[dirpath dn] fn].
    apply raises_only_bind; [apply raises_only_chown|]. intros _.
    apply raises_only_for_each. intros filename. apply raises_only_chown.
Qed.

(** The exits of the ownership phase: every [SystemExit] it raises is a
    [fail_json] whose output holds the failure mark and the message,
    and nothing else. *)
Definition bare_failure (e : exn) : Prop :=
  match e with
  | SystemExit st out =>
      st = 1%Z /\ exists msg, out = [("failed", VBool true); ("msg", VStr msg)]
  | OSError _ _ => True
  | KeyError _ => False
  end.

Lemma raises_only_normalize env owner group rd :
  raises_only bare_failure (normalize env owner group rd).
Proof.
  unfold normalize.
  apply raises_only_bind; [|intros uid; apply raises_only_bind;
                                    [|intros gid]].
  - destruct (PyStr.truthy owner); [|apply raises_only_ret].
    apply raises_only_try.
    + intros s e s'. unfold_calls. cbn.
      destruct (passwd env _); [discriminate|]. intros [= <- _]. discriminate.
    + intros e. apply raises_only_raise. cbn. eauto.
  - destruct (PyStr.truthy group); [|apply raises_only_ret].
    apply raises_only_try.
    + intros s e s'. unfold_calls. cbn.
      destruct (groupdb env _); [discriminate|]. intros [= <- _]. discriminate.
    + intros e. apply raises_only_raise. cbn. eauto.
  - destruct (PyStr.truthy owner || PyStr.truthy group);
      [|apply raises_only_ret].
    apply raises_only_try.
    + intros s e s' H _. apply raises_only_chown_loop in H.
      destruct e; cbn in *; tauto.
    + intros e. apply raises_only_raise. cbn. eauto.
Qed.

Lemma only_adds_normalize P env owner group rd :
  (forall e, is_identity_lookup e || is_walk e || is_chown e = true ->
             P e = true) ->
  only_adds P (normalize env owner group rd).
Proof.
  intros HP. unfold normalize.
  apply only_adds_bind; [|intros uid; apply only_adds_bind; [|intros gid]].
  - destruct (PyStr.truthy owner); [|apply only_adds_ret].
    apply only_adds_try; [|intros; apply only_adds_fail_json].
    apply only_adds_getpwnam. now apply HP.
  - destruct (PyStr.truthy group); [|apply only_adds_ret].
    apply only_adds_try; [|intros; apply only_adds_fail_json].
    apply only_adds_getgrnam. now apply HP.
  - destruct (PyStr.truthy owner || PyStr.truthy group);
      [|apply only_adds_ret].
    apply only_adds_try; [|intros; apply only_adds_fail_json].
    apply only_adds_chown_loop; [now apply HP|]. intros p. now apply HP.
Qed.

(** ** The unpack phase *)

Lemma truthy_status_close st :
  truthy_status (if Z.eqb st 0 then None else Some (st * 256)%Z)
  = negb (Z.eqb st 0).
Proof.
  destruct (Z.eqb st 0) eqn:E; cbn; [reflexivity|].
  apply Z.eqb_neq in E.
  assert (H : Z.eqb (st * 256) 0 = false) by (apply Z.eqb_neq; lia).
  now rewrite H.
Qed.

Lemma dir_at_populate written f l :
  dir_at f l = true -> dir_at (alter (populate written) l f) l = true.
Proof.
  unfold dir_at. destruct (lookup f l) as [n|] eqn:E; [|discriminate].
  destruct n as [m d|m b|m es]; try discriminate. intros _.
  now rewrite (lookup_alter_here _ _ _ _ (Dir m (merge_entries written es)) E).
Qed.

(** The three ways the phase can go: [mkdir] fails, [chdir] fails, or
    the pipeline runs in the directory the process is then in, which
    decides between going on and [fail_json]. *)
Lemma unpack_inv env src dest result f w l0 r s' :
  unpack env src dest result (State f w l0) = (r, s') ->
  (exists e, r = Raise (OSError e dest)
             /\ s' = State f w (l0 ++ [EvMkdir dest]))
  \/ (exists e f1, r = Raise (OSError e dest)
                   /\ s' = State f1 w (l0 ++ [EvMkdir dest; EvChdir dest]))
  \/ (exists st f1 d,
        s' = State f1 d (l0 ++ [EvMkdir dest; EvChdir dest;
                                EvPopen (extract_cmd src) st])
        /\ dir_at f1 d = true
        /\ r = if Z.eqb st 0 then Ret tt
               else Raise (SystemExit 1
                      (result ++ [("failed", VBool true);
                                  ("msg", VStr (msg_extract src))]))).
Proof.
  unfold unpack, os_mkdir, os_chdir, os_popen_read_close.
  unfold bind at 1. unfold bind at 1. unfold emit at 1. cbn [fs cwd log].
  unfold bind at 1. unfold get_fs at 1. cbn [fs].
  unfold bind at 1. unfold get_cwd at 1. cbn [cwd].
  destruct (namei f w dest) as [l|] eqn:Hn.
  2:{ cbn. intros [= <- <-]. left. now eexists. }
  destruct (exists_at f l) eqn:Hex.
  1:{ cbn. intros [= <- <-]. left. now eexists. }
  destruct (dir_at f (removelast l)) eqn:Hpar.
  2:{ cbn. intros [= <- <-]. left. now eexists. }
  destruct (may_write_at env f (removelast l)) eqn:Hmw.
  2:{ cbn. intros [= <- <-]. left. now eexists. }
  unfold put_fs at 1. cbn [fs cwd log].
  set (f1 := alter _ l f).
  unfold bind at 1. unfold bind at 1. unfold bind at 1. unfold emit at 1.
  cbn [fs cwd log]. unfold bind at 1. unfold get_fs at 1. cbn [fs].
  unfold bind at 1. unfold get_cwd at 1. cbn [cwd].
  rewrite <- app_assoc. cbn [app].
  destruct (namei f1 w dest) as [d|] eqn:Hn1.
  2:{ cbn. intros [= <- <-]. right. left. now do 2 eexists. }
  destruct (dir_at f1 d) eqn:Hd.
  2:{ cbn. intros [= <- <-]. right. left. now do 2 eexists. }
  unfold put_cwd at 1. cbn [fs cwd log].
  unfold bind at 1. unfold bind at 1. unfold get_fs at 1. cbn [fs cwd log].
  unfold bind at 1. unfold get_cwd at 1. cbn [fs cwd log].
  destruct (pipeline env (extract_cmd src) f1 d) as [[written out] st].
  unfold bind, emit, put_fs, ret. cbn [fs cwd log snd].
  rewrite truthy_status_close, <- app_assoc. cbn [app].
  intros H. right. right.
  exists st, (alter (populate written) d f1), d.
  split; [|split; [now apply dir_at_populate|]].
  - destruct (Z.eqb st 0); cbn in H; now injection H as <- <-.
  - destruct (Z.eqb st 0); cbn in H; now injection H as <- <-.
Qed.

(** ** A real run, case by case *)

(** The filesystem after the best-effort removal of line 184. *)
Definition cleared (f : node) (w : loc) (dest : string) : node :=
  match namei f w dest with
  | Some l => alter (rmtree_at dest) l f
  | None => f
  end.

Definition failure_output (result : dict) (msg : string) : dict :=
  result ++ [("failed", VBool true); ("msg", VStr msg)].

Definition is_ownership_call (e : event) : bool :=
  is_identity_lookup e || is_walk e || is_chown e.

(** Unless the run is a no-op, it reaches the unpack phase, after a
    removal when the destination is there. *)
Lemma decide_reaches_unpack env params rd f w l0 :
  path_isdir f w (final_dest env params) && negb (p_force params) = false ->
  decide env params false rd (State f w l0)
  = (unpack env (resolved_src env params) (final_dest env params)
       (prepared_result env params) ;;
     normalize env (p_owner params) (p_group params) rd ;;
     exit_json (dict_set "changed" (VBool true) (prepared_result env params)))
      (State (if path_isdir f w (final_dest env params)
              then cleared f w (final_dest env params) else f)
             w
             (l0 ++ EvIsdir (final_dest env params)
                 :: (if path_isdir f w (final_dest env params)
                     then [EvRmtree (final_dest env params)] else []))).
Proof.
  intros H. unfold decide.
  unfold bind at 1. cbn [ret].
  unfold bind at 1. unfold os_path_isdir at 1.
  unfold bind at 1, emit at 1. cbn [fs cwd log].
  unfold bind at 1, get_fs at 1. cbn [fs cwd log].
  unfold bind at 1, get_cwd at 1. cbn [fs cwd log ret].
  destruct (path_isdir f w (final_dest env params)) eqn:Hd.
  - destruct (p_force params); [|discriminate].
    unfold bind at 1. unfold shutil_rmtree_ignore_errors at 1, cleared.
    unfold bind at 1, emit at 1. cbn [fs cwd log].
    unfold bind at 1, get_fs at 1. cbn [fs cwd log].
    unfold bind at 1, get_cwd at 1. cbn [fs cwd log].
    rewrite <- app_assoc. cbn [app].
    now destruct (namei f w (final_dest env params)).
  - unfold bind at 1. now cbn [ret].
Qed.

Lemma decide_real_inv env params rd f w l0 r s' :
  decide env params false rd (State f w l0) = (r, s') ->
  let dest := final_dest env params in
  let result := prepared_result env params in
  let d := path_isdir f w dest in
  let l1 := l0 ++ EvIsdir dest :: (if d then [EvRmtree dest] else []) in
  let cmd := extract_cmd (resolved_src env params) in
  (d = true /\ p_force params = false
   /\ r = Raise (SystemExit 0 result)
   /\ s' = State f w (l0 ++ [EvIsdir dest]))
  \/ (d && negb (p_force params) = false
      /\ ((exists e, r = Raise (OSError e dest)
                     /\ (log s' = l1 ++ [EvMkdir dest]
                         \/ log s' = l1 ++ [EvMkdir dest; EvChdir dest]))
          \/ (exists st, st <> 0%Z
                /\ r = Raise (SystemExit 1
                         (failure_output result
                            (msg_extract (resolved_src env params))))
                /\ log s' = l1 ++ [EvMkdir dest; EvChdir dest; EvPopen cmd st]
                /\ dir_at (fs s') (cwd s') = true)
          \/ (exists added,
                log s' = l1 ++ [EvMkdir dest; EvChdir dest; EvPopen cmd 0]
                            ++ added
                /\ forallb is_ownership_call added = true
                /\ (r = Raise (SystemExit 0
                                 (dict_set "changed" (VBool true) result))
                    \/ exists e, r = Raise e /\ bare_failure e)))).
Proof.
  intros H dest result d l1 cmd.
  destruct (d && negb (p_force params)) eqn:Hnoop.
  - left. apply andb_prop in Hnoop as [Hd Hf].
    apply negb_true_iff in Hf.
    rewrite (decide_present_no_force _ _ _ _ _ _ Hd Hf) in H.
    now injection H as <- <-.
  - right. split; [reflexivity|].
    rewrite (decide_reaches_unpack _ _ _ _ _ _ Hnoop) in H.
    fold dest result d in H. fold l1 in H.
    unfold bind at 1 in H.
    destruct (unpack _ _ _ _ _) as [r1 s1] eqn:Hu.
    apply unpack_inv in Hu.
    destruct Hu as [(e & -> & ->)|[(e & f1 & -> & ->)|(st & f1 & c1 & -> & Hdir & ->)]].
    + injection H as <- <-. left. exists e. auto.
    + injection H as <- <-. left. exists e. cbn [log]. auto.
    + destruct (Z.eqb st 0) eqn:Hst.
      * apply Z.eqb_eq in Hst. subst st. right. right.
        unfold bind at 1 in H.
        pose proof (only_adds_normalize is_ownership_call env
                      (p_owner params) (p_group params) rd
                      (fun e He => He)
                      (State f1 c1 (l1 ++ [EvMkdir dest; EvChdir dest;
                                           EvPopen cmd 0]))) as (added & Ha & Hf).
        pose proof (raises_only_normalize env (p_owner params)
                      (p_group params) rd
                      (State f1 c1 (l1 ++ [EvMkdir dest; EvChdir dest;
                                           EvPopen cmd 0]))) as Hr.
        destruct (normalize _ _ _ _ _) as [[[]|e] s2];
          cbn [snd log] in Ha.
        -- unfold exit_json, raise in H. injection H as <- <-.
           exists added. rewrite Ha, <- app_assoc. auto.
        -- injection H as <- <-. exists added. rewrite Ha, <- app_assoc.
           split; [reflexivity|]. split; [assumption|]. right.
           exists e. split; [reflexivity|]. now apply (Hr e s2).
      * apply Z.eqb_neq in Hst. injection H as <- <-. right. left.
        exists st. cbn [fs cwd log]. auto.
Qed.

Lemma dict_get_set_same k v d :
  dict_get k d <> None -> dict_get k (dict_set k v d) = Some v.
Proof.
  induction d as [|[k' v'] t IH]; cbn; [congruence|].
  destruct (String.eqb k' k) eqn:E; cbn; rewrite E; [reflexivity|exact IH].
Qed.

Lemma dict_get_set_other k k' v d :
  k' <> k -> dict_get k' (dict_set k v d) = dict_get k' d.
Proof.
  intros Hk. induction d as [|[k0 v0] t IH]; cbn.
  - destruct (String.eqb k k') eqn:E; [|reflexivity].
    apply String.eqb_eq in E. congruence.
  - destruct (String.eqb k0 k) eqn:E; cbn.
    + apply String.eqb_eq in E. subst k0.
      destruct (String.eqb k k') eqn:E'; [|reflexivity].
      apply String.eqb_eq in E'. congruence.
    + now rewrite IH.
Qed.

(** A real run that is a [SystemExit] with status 0 is one of the two
    [exit_json] calls of lines 186 and 231. *)
Lemma successful_real_run env params f c out s' :
  invoke env params false f c = (Raise (SystemExit 0 out), s') ->
  exists w,
    workdir env params f c = Some w
    /\ ((path_isdir f w (final_dest env params) = true
         /\ p_force params = false
         /\ out = prepared_result env params)
        \/ (path_isdir f w (final_dest env params)
              && negb (p_force params) = false
            /\ out = dict_set "changed" (VBool true)
                       (prepared_result env params))).
Proof.
  unfold invoke, start. intros H.
  destruct (workdir env params f c) as [w|] eqn:Hw.
  2:{ destruct (workdir_refused env params false f c [] Hw) as [e He].
      rewrite He in H. discriminate. }
  exists w. split; [reflexivity|].
  rewrite (workdir_entered _ _ _ _ _ _ _ Hw) in H.
  apply decide_real_inv in H. cbv zeta in H.
  destruct H as [(Hd & Hf & [= <-] & _)|(Hn & H)]; [left; auto|].
  right. split; [assumption|].
  destruct H as [(e & [=] & _)|[(st & _ & [=] & _)|(added & _ & _ & H)]].
  destruct H as [[= <-]|(e & [= <-] & (Hst & _))]; [reflexivity|discriminate].
Qed.

(** ** Check mode against the real run *)

(** C1, as amended: whenever a real run of a request from a starting
    state ends successfully, check mode on the same request and state
    exits with the very same output, hence the same [changed]; and the
    value check mode predicts is true when the destination is not a
    directory, [force] when it is. *)
Theorem check_mode_agrees_with_successful_run env params f c out s' :
  invoke env params false f c = (Raise (SystemExit 0 out), s') ->
  exists w,
    workdir env params f c = Some w
    /\ fst (invoke env params true f c) = Raise (SystemExit 0 out)
    /\ reported_changed (fst (invoke env params true f c))
       = reported_changed (fst (invoke env params false f c))
    /\ reported_changed (fst (invoke env params true f c))
       = Some (VBool (if path_isdir f w (final_dest env params)
                      then p_force params else true)).
Proof.
  intros H. destruct (successful_real_run _ _ _ _ _ _ H) as (w & Hw & Hc).
  exists w. split; [assumption|].
  assert (E : fst (invoke env params true f c) = Raise (SystemExit 0 out)).
  { rewrite (check_mode_run _ _ _ _ _ Hw). cbn [fst].
    destruct Hc as [(Hd & Hf & ->)|(Hn & ->)].
    - now rewrite Hd, Hf, prepared_result_unchanged.
    - destruct (path_isdir f w _); [|reflexivity].
      now destruct (p_force params). }
  split; [assumption|]. split; [now rewrite E, H|].
  rewrite (check_mode_run _ _ _ _ _ Hw). cbn [fst reported_changed].
  apply dict_get_set_same. now rewrite prepared_result_changed.
Qed.

(** The instance of C1 on the concrete host: a fresh extraction. *)
Lemma check_mode_agrees_with_successful_run_witness :
  reported_changed (fst (invoke Host.env Host.request true Host.disk []))
  = Some (VBool true)
  /\ reported_changed (fst (invoke Host.env Host.request false Host.disk []))
     = Some (VBool true).
Proof.
  destruct (check_mode_agrees_with_successful_run
              Host.env Host.request Host.disk [] _ _ eq_refl)
    as (w & Hw & _ & Heq & Hc).
  injection Hw as <-. split; [exact Hc|]. rewrite <- Heq. exact Hc.
Defined.

(** C1 as stated fails when the pipeline fails: check mode announces
    [changed] true, the real run from the same state reports a failure
    whose output says [changed] false. *)
Lemma check_mode_fidelity_counterexample :
  reported_changed
    (fst (invoke Host.env (Host.with_src "/srv/broken.rpm" Host.request)
                 true Host.disk []))
  = Some (VBool true)
  /\ reported_changed
       (fst (invoke Host.env (Host.with_src "/srv/broken.rpm" Host.request)
                    false Host.disk []))
     = Some (VBool false).
Proof. split; reflexivity. Qed.

(** ** Strings and paths *)

Lemma substring_prefix a b :
  substring 0 (String.length a) (a ++ b)%string = a.
Proof.
  induction a as [|c r IH]; cbn.
  - now destruct b.
  - now rewrite IH.
Qed.

Lemma length_append a b :
  String.length (a ++ b)%string = String.length a + String.length b.
Proof. induction a as [|c r IH]; cbn; [reflexivity|now rewrite IH]. Qed.

Lemma slice_to_neg_suffix stem suf :
  PyStr.slice_to_neg (String.length suf) (stem ++ suf)%string = stem.
Proof.
  unfold PyStr.slice_to_neg. rewrite length_append.
  replace (String.length stem + String.length suf - String.length suf)
    with (String.length stem) by lia.
  apply substring_prefix.
Qed.

Lemma append_empty_r s : (s ++ "")%string = s.
Proof. induction s as [|c r IH]; cbn; [reflexivity|now rewrite IH]. Qed.

Lemma append_assoc (a b c : string) :
  ((a ++ b) ++ c)%string = (a ++ (b ++ c))%string.
Proof. induction a as [|x r IH]; cbn; [reflexivity|now rewrite IH]. Qed.

Lemma split_slash_nonempty s : PyStr.split_slash s <> [].
Proof.
  destruct s as [|c r]; cbn; [discriminate|].
  destruct (Ascii.eqb c "/"); [discriminate|].
  destruct (PyStr.split_slash r); discriminate.
Qed.

(** Splitting a concatenation: the last piece of the left part is glued
    to the first piece of the right part. *)
Lemma split_slash_app a b :
  PyStr.split_slash (a ++ b)%string
  = removelast (PyStr.split_slash a)
      ++ match PyStr.split_slash b with
         | h :: t => (last (PyStr.split_slash a) "" ++ h)%string :: t
         | [] => []
         end.
Proof.
  induction a as [|c r IH].
  - cbn. pose proof (split_slash_nonempty b).
    now destruct (PyStr.split_slash b).
  - change ((String c r) ++ b)%string with (String c (r ++ b)%string).
    cbn [PyStr.split_slash]. rewrite IH. clear IH.
    pose proof (split_slash_nonempty r) as Hr.
    pose proof (split_slash_nonempty b) as Hb.
    destruct (PyStr.split_slash b) as [|hb tb]; [congruence|].
    destruct (PyStr.split_slash r) as [|hr tr]; [congruence|].
    destruct (Ascii.eqb c "/").
    + destruct tr; reflexivity.
    + destruct tr as [|hr' tr']; reflexivity.
Qed.

Lemma basename_app a b :
  PyStr.split_slash b = [b] ->
  PosixPath.basename (a ++ b)%string = (PosixPath.basename a ++ b)%string.
Proof.
  intros Hb. unfold PosixPath.basename.
  rewrite split_slash_app, Hb. apply last_last.
Qed.

(** With a source that ends in [".rpm"], the default destination is the
    base name of the source without that suffix. *)
Lemma default_dest_rpm stem :
  default_dest (stem ++ ".rpm")%string = PosixPath.basename stem
  /\ PosixPath.basename (stem ++ ".rpm")%string
     = (default_dest (stem ++ ".rpm") ++ ".rpm")%string.
Proof.
  unfold default_dest. rewrite slice_to_neg_suffix. split; [reflexivity|].
  now apply basename_app.
Qed.

(** ** The default destination *)

Lemma prepared_result_dest env params :
  dict_get "dest" (prepared_result env params)
  = Some (if PyStr.truthy (resolved_dest env params)
          then of_opt (resolved_dest env params)
          else VStr (default_dest (resolved_src env params))).
Proof.
  unfold prepared_result.
  now destruct (PyStr.truthy (resolved_dest env params)).
Qed.

(** C3: what line 152 computes.  With no destination name given, the
    destination is the base name of what is left of the source path
    once its last four characters (the length of [".rpm"]) are cut
    off: the slice comes first, and no suffix is tested.  It is the
    name that every successful run, real or in check mode, hands over
    as [dest].  When the source path ends in [".rpm"] this is the base
    name of the source without that suffix: [foo-1.0] for
    [.../foo-1.0.rpm]. *)
Theorem default_destination_cuts_four_characters env params :
  PyStr.truthy (p_dest params) = false ->
  final_dest env params
  = PosixPath.basename (PyStr.slice_to_neg 4 (resolved_src env params))
  /\ (forall cm f c out s',
        invoke env params cm f c = (Raise (SystemExit 0 out), s') ->
        dict_get "dest" out = Some (VStr (final_dest env params)))
  /\ (forall stem,
        resolved_src env params = (stem ++ ".rpm")%string ->
        final_dest env params = PosixPath.basename stem
        /\ PosixPath.basename (resolved_src env params)
           = (final_dest env params ++ ".rpm")%string)
  /\ default_dest "/srv/rpms/foo-1.0.rpm" = "foo-1.0".
Proof.
  intros Hd.
  assert (Hr : PyStr.truthy (resolved_dest env params) = false).
  { unfold resolved_dest. now rewrite Hd. }
  assert (Hf : final_dest env params = default_dest (resolved_src env params)).
  { unfold final_dest. now rewrite Hr. }
  split; [exact Hf|]. split; [|split; [|reflexivity]].
  - intros cm f c out s' H.
    assert (Hp : dict_get "dest" (prepared_result env params)
                 = Some (VStr (final_dest env params))).
    { now rewrite prepared_result_dest, Hr, Hf. }
    destruct cm.
    + unfold invoke, start in H.
      destruct (workdir env params f c) as [w|] eqn:Hw.
      * pose proof (check_mode_run _ _ _ _ _ Hw) as E.
        unfold invoke, start in E. rewrite E in H. injection H as <- _.
        rewrite dict_get_set_other; [exact Hp|discriminate].
      * destruct (workdir_refused env params true f c [] Hw) as [e He].
        rewrite He in H. discriminate.
    + destruct (successful_real_run _ _ _ _ _ _ H)
        as (w & _ & [(_ & _ & ->)|(_ & ->)]); [exact Hp|].
      rewrite dict_get_set_other; [exact Hp|discriminate].
  - intros stem Hs. rewrite Hf, Hs. apply default_dest_rpm.
Qed.

(** The instance of C3 on the concrete host. *)
Lemma default_destination_cuts_four_characters_witness :
  final_dest Host.env Host.request = "pkg-2.3"
  /\ dict_get "dest"
       [ ("changed", VBool true); ("src", VStr "/srv/pkg-2.3.rpm");
         ("dest", VStr "pkg-2.3"); ("chdir", VStr "/work");
         ("owner", VNone); ("group", VNone); ("force", VBool false) ]
     = Some (VStr "pkg-2.3").
Proof.
  destruct (default_destination_cuts_four_characters
              Host.env Host.request eq_refl) as (H1 & H2 & _).
  split; [exact H1|].
  exact (H2 false Host.disk [] _ _ eq_refl).
Defined.

(** C3 fails on a source that does not end in [".rpm"]: no match is
    required, the last four characters go all the same, while the
    documented default keeps a name that has no such suffix. *)
Lemma default_destination_counterexample :
  final_dest Host.env (Host.with_src "/srv/pkg.tgz" Host.request) = "pkg"
  /\ dest_by_exact_suffix "/srv/pkg.tgz" = "pkg.tgz"
  /\ final_dest Host.env (Host.with_src "/srv/pkg.tgz" Host.request)
     <> dest_by_exact_suffix "/srv/pkg.tgz".
Proof. repeat split; try reflexivity. discriminate. Qed.

(** ** Failure of the pipeline *)

Lemma entry_log_quiet env params P :
  (forall p, P (EvChdir p) = true) -> P EvGetcwd = true ->
  forallb P (entry_log env params) = true.
Proof.
  intros H1 H2. unfold entry_log.
  destruct (PyStr.truthy (resolved_chdir env params)); cbn;
    now rewrite ?H1, ?H2.
Qed.

Lemma popen_in_quiet_log cmd st l :
  forallb (fun e => negb (is_popen e)) l = true ->
  ~ In (EvPopen cmd st) l.
Proof.
  intros H Hin. rewrite forallb_forall in H. now apply H in Hin.
Qed.

(** C4, as amended: when the pipeline of a run exits with a status
    other than 0, the run ends in [fail_json] with the message
    [failed to extract <src> RPM file] and the echoed request ([changed]
    false); the text the pipeline printed is read but is not part of
    the message.  The pipeline is the last call the run issues: the
    password and group databases are not asked, nothing is walked or
    chowned, and the directory the process is in, the destination, is
    still a directory. *)
Theorem pipeline_failure_is_fatal env params f c cmd st :
  In (EvPopen cmd st) (log (snd (invoke env params false f c))) ->
  st <> 0%Z ->
  let final := snd (invoke env params false f c) in
  fst (invoke env params false f c)
  = Raise (SystemExit 1
      (prepared_result env params
         ++ [ ("failed", VBool true);
              ("msg", VStr ("failed to extract " ++ resolved_src env params
                              ++ " RPM file")) ]))
  /\ cmd = extract_cmd (resolved_src env params)
  /\ (exists before, log final = before ++ [EvPopen cmd st])
  /\ forallb (fun e => negb (is_ownership_call e)) (log final) = true
  /\ dir_at (fs final) (cwd final) = true.
Proof.
  unfold invoke, start. intros Hin Hst.
  destruct (workdir env params f c) as [w|] eqn:Hw.
  2:{ destruct (workdir_refused env params false f c [] Hw) as [e He].
      rewrite He in Hin. cbn in Hin. intuition discriminate. }
  rewrite (workdir_entered _ _ _ _ _ _ _ Hw) in *. cbn [app] in *.
  destruct (decide env params false _ _) as [r s'] eqn:Hd.
  cbn [fst snd] in *.
  pose proof (entry_log_quiet env params (fun e => negb (is_popen e))
                (fun _ => eq_refl) eq_refl) as Hq1.
  pose proof (entry_log_quiet env params
                (fun e => negb (is_ownership_call e))
                (fun _ => eq_refl) eq_refl) as Hq2.
  apply decide_real_inv in Hd. cbv zeta in Hd.
  set (d := path_isdir f w (final_dest env params)) in *.
  destruct Hd as [(_ & _ & _ & ->)|(_ & Hd)].
  { exfalso. cbn [log] in Hin. apply in_app_or in Hin as [Hin|Hin].
    - now apply popen_in_quiet_log in Hin.
    - cbn in Hin. intuition discriminate. }
  destruct Hd as [(e & _ & Hl)|[(st' & _ & -> & Hl & Hdir)|(added & Hl & Hf & _)]].
  - exfalso.
    assert (Hq : forallb (fun e => negb (is_popen e)) (log s') = true).
    { destruct Hl as [-> | ->]; rewrite !forallb_app, Hq1;
        now destruct d. }
    now apply popen_in_quiet_log in Hin.
  - rewrite Hl in Hin |- *.
    apply in_app_or in Hin as [Hin|Hin].
    { exfalso. apply (popen_in_quiet_log cmd st) in Hin; [assumption|].
      rewrite forallb_app, Hq1. now destruct d. }
    cbn in Hin. destruct Hin as [Hin|[Hin|[Hin|[]]]]; try discriminate.
    injection Hin as <- <-.
    split; [reflexivity|]. split; [reflexivity|]. split.
    + exists ((entry_log env params
                 ++ EvIsdir (final_dest env params)
                    :: (if d then [EvRmtree (final_dest env params)] else []))
                ++ [EvMkdir (final_dest env params);
                    EvChdir (final_dest env params)]).
      rewrite <- !app_assoc. reflexivity.
    + split; [|assumption]. rewrite !forallb_app, Hq2. now destruct d.
  - exfalso. rewrite Hl in Hin.
    apply in_app_or in Hin as [Hin|Hin].
    { apply (popen_in_quiet_log cmd st) in Hin; [assumption|].
      rewrite forallb_app, Hq1. now destruct d. }
    cbn in Hin. destruct Hin as [Hin|[Hin|[Hin|Hin]]]; try discriminate.
    + injection Hin as _ <-. congruence.
    + rewrite forallb_forall in Hf. apply Hf in Hin. discriminate.
Qed.

(** The instance of C4 on the concrete host: the archive is broken. *)
Lemma pipeline_failure_is_fatal_witness :
  fst (invoke Host.env (Host.with_src "/srv/broken.rpm" Host.request)
              false Host.disk [])
  = Raise (SystemExit 1
      [ ("changed", VBool false); ("src", VStr "/srv/broken.rpm");
        ("dest", VStr "broken"); ("chdir", VStr "/work");
        ("owner", VNone); ("group", VNone); ("force", VBool false);
        ("failed", VBool true);
        ("msg", VStr "failed to extract /srv/broken.rpm RPM file") ]).
Proof.
  refine (proj1 (pipeline_failure_is_fatal
                   Host.env (Host.with_src "/srv/broken.rpm" Host.request)
                   Host.disk [] (extract_cmd "/srv/broken.rpm") 2 _ _)).
  - cbn. tauto.
  - discriminate.
Defined.

(** C4 as stated fails on the message: what the pipeline printed is not
    in it. *)
Lemma pipeline_failure_counterexample :
  snd (fst (pipeline Host.env (extract_cmd "/srv/broken.rpm")
                     Host.disk ["work"; "broken"]))
  = "cpio: premature end of archive"
  /\ fst (invoke Host.env (Host.with_src "/srv/broken.rpm" Host.request)
                 false Host.disk [])
     = Raise (SystemExit 1
         (failure_output
            (prepared_result Host.env
               (Host.with_src "/srv/broken.rpm" Host.request))
            "failed to extract /srv/broken.rpm RPM file"))
  /\ PyStr.contains "cpio: premature end of archive"
       "failed to extract /srv/broken.rpm RPM file" = false.
Proof. repeat split. Qed.

(** ** The output of a failure *)

(** Every [fail_json] of a real run: the one of the unpack phase echoes
    the request, the three of the ownership phase do not. *)
Lemma failure_outputs env params f c out s' :
  invoke env params false f c = (Raise (SystemExit 1 out), s') ->
  out = failure_output (prepared_result env params)
          (msg_extract (resolved_src env params))
  \/ exists msg, out = [("failed", VBool true); ("msg", VStr msg)].
Proof.
  unfold invoke, start. intros H.
  destruct (workdir env params f c) as [w|] eqn:Hw.
  2:{ destruct (workdir_refused env params false f c [] Hw) as [e He].
      rewrite He in H. discriminate. }
  rewrite (workdir_entered _ _ _ _ _ _ _ Hw) in H.
  apply decide_real_inv in H. cbv zeta in H.
  destruct H as [(_ & _ & [=] & _)|(_ & H)].
  destruct H as [(e & [=] & _)|[(st & _ & [= <-] & _)|(added & _ & _ & H)]];
    [now left|].
  destruct H as [[=]|(e & [= <-] & (_ & Hm))]. now right.
Qed.

(** C5 fails on the code: with an owner, or a group, that the databases
    do not know, or with a [chown] that is refused, the output of
    [fail_json] holds the failure mark and the message only; none of
    [src], [dest], [chdir], [owner], [group], [force] is echoed.  The
    failure of the pipeline does echo them. *)
Theorem ownership_failures_echo_nothing :
  fst (invoke Host.env (Host.with_owner "ghost" Host.request)
              false Host.disk [])
  = Raise (SystemExit 1
      [ ("failed", VBool true);
        ("msg", VStr "owner 'ghost' not found in password database") ])
  /\ fst (invoke Host.env (Host.with_group "ghosts" Host.request)
                 false Host.disk [])
     = Raise (SystemExit 1
         [ ("failed", VBool true);
           ("msg", VStr "group 'ghosts' not found in group database") ])
  /\ fst (invoke Host.env_unprivileged
                 (Host.with_owner "deploy" Host.request)
                 false Host.disk_writable [])
     = Raise (SystemExit 1
         [ ("failed", VBool true);
           ("msg", VStr ("failed to change permissions for path: "
                         ++ "/work/pkg-2.3 [operation not permitted]")) ])
  /\ (forall msg,
        map fst [("failed", VBool true); ("msg", VStr msg)]
        = ["failed"; "msg"])
  /\ map fst (failure_output
                (prepared_result Host.env Host.request)
                (msg_extract "/srv/pkg-2.3.rpm"))
     = [ "changed"; "src"; "dest"; "chdir"; "owner"; "group"; "force";
         "failed"; "msg" ].
Proof. repeat split. Qed.

(** ** A destination that is not a directory *)

(** C6, as amended: a destination path that exists but is not a
    directory (a regular file, or a link that does not lead to a
    directory) fails the directory test and is handled as an absent
    destination, whatever [force] is: check mode predicts [changed]
    true, and a real run neither exits unchanged nor deletes anything;
    it goes straight to [mkdir], which the operating system refuses
    because the path exists, and the error is not caught. *)
Theorem non_directory_destination_counts_as_absent env params f c w l n :
  workdir env params f c = Some w ->
  namei f w (final_dest env params) = Some l ->
  lookup f l = Some n ->
  stat_is_dir n = false ->
  invoke env params true f c
  = (Raise (SystemExit 0
       (dict_set "changed" (VBool true) (prepared_result env params))),
     State f w (entry_log env params ++ [EvIsdir (final_dest env params)]))
  /\ invoke env params false f c
     = (Raise (OSError EEXIST (final_dest env params)),
        State f w (entry_log env params
                     ++ [ EvIsdir (final_dest env params);
                          EvMkdir (final_dest env params) ])).
Proof.
  intros Hw Hn Hl Hs.
  assert (Hd : path_isdir f w (final_dest env params) = false).
  { unfold path_isdir. now rewrite Hn, Hl. }
  split.
  - now rewrite (check_mode_run _ _ _ _ _ Hw), Hd.
  - unfold invoke, start.
    rewrite (workdir_entered _ _ _ _ _ _ _ Hw).
    rewrite decide_reaches_unpack by now rewrite Hd.
    rewrite Hd. cbn [app].
    unfold unpack, os_mkdir, bind, emit, get_fs, get_cwd, raise.
    cbn [fs cwd log]. rewrite Hn. unfold exists_at. rewrite Hl.
    now rewrite <- app_assoc.
Qed.

(** The instance of C6 on the concrete host: [/work/notes] is a regular
    file and [force] is set. *)
Lemma non_directory_destination_counts_as_absent_witness :
  invoke Host.env (Host.with_force true (Host.with_dest "notes" Host.request))
         true Host.disk []
  = (Raise (SystemExit 0
       [ ("changed", VBool true); ("src", VStr "/srv/pkg-2.3.rpm");
         ("dest", VStr "notes"); ("chdir", VStr "/work");
         ("owner", VNone); ("group", VNone); ("force", VBool true) ]),
     State Host.disk ["work"] [EvChdir "/work"; EvGetcwd; EvIsdir "notes"])
  /\ invoke Host.env
            (Host.with_force true (Host.with_dest "notes" Host.request))
            false Host.disk []
     = (Raise (OSError EEXIST "notes"),
        State Host.disk ["work"]
          [EvChdir "/work"; EvGetcwd; EvIsdir "notes"; EvMkdir "notes"]).
Proof.
  exact (non_directory_destination_counts_as_absent
           Host.env (Host.with_force true (Host.with_dest "notes" Host.request))
           Host.disk [] ["work"] ["work"; "notes"]
           (File Host.root_owned "todo")
           eq_refl eq_refl eq_refl eq_refl).
Defined.

(** C6 as stated fails: with a regular file at the destination and
    [force] false the real run is no no-op with [changed] false, it
    ends in an uncaught error, and check mode says [changed] true;
    a present directory gives [changed] false in both. *)
Lemma non_directory_destination_counterexample :
  lookup Host.disk ["work"; "notes"] = Some (File Host.root_owned "todo")
  /\ p_force (Host.with_dest "notes" Host.request) = false
  /\ fst (invoke Host.env (Host.with_dest "notes" Host.request)
                 false Host.disk [])
     = Raise (OSError EEXIST "notes")
  /\ reported_changed
       (fst (invoke Host.env (Host.with_dest "notes" Host.request)
                    true Host.disk []))
     = Some (VBool true)
  /\ reported_changed
       (fst (invoke Host.env Host.request false Host.disk_unpacked []))
     = Some (VBool false).
Proof. repeat split. Qed.

(** ** Changing the metadata of one entry *)

(** [strip_prefix p l] is what is left of [l] after [p]. *)
Fixpoint strip_prefix (p l : loc) : option loc :=
  match p, l with
  | [], _ => Some l
  | a :: p', b :: l' => if String.eqb a b then strip_prefix p' l' else None
  | _ :: _, [] => None
  end.

(** A function on entries that touches the metadata only. *)
Definition meta_only (h : node -> node) : Prop :=
  forall n, exists m, h n = with_meta m n.

Lemma chown_node_meta_only uid gid : meta_only (chown_node uid gid).
Proof. intros n. now eexists. Qed.

Lemma lookup_with_meta m n l :
  l <> [] -> lookup (with_meta m n) l = lookup n l.
Proof. destruct l; [congruence|]. now destruct n. Qed.

Lemma entries_alter_ext g1 g2 k es :
  (forall o, g1 o = g2 o) -> entries_alter g1 k es = entries_alter g2 k es.
Proof.
  intros H. induction es as [|[k' v] t IH]; cbn.
  - now rewrite H.
  - rewrite H, IH. reflexivity.
Qed.

Lemma alter_cons g c rest m es :
  alter g (c :: rest) (Dir m es)
  = Dir m (entries_alter
             (match rest with
              | [] => g
              | _ => option_map (alter g rest)
              end) c es).
Proof.
  cbn [alter]. f_equal. apply entries_alter_ext. intros o.
  now destruct rest.
Qed.

Lemma alter_meta_only_nil h n :
  alter (option_map h) [] n = h n.
Proof. reflexivity. Qed.

Lemma alter_cons_meta h c rest m es :
  alter (option_map h) (c :: rest) (Dir m es)
  = Dir m (entries_alter (option_map (alter (option_map h) rest)) c es).
Proof.
  rewrite alter_cons. f_equal. apply entries_alter_ext. intros o.
  now destruct rest.
Qed.

(** Looking up after a change of metadata at [l]: the entry found at
    [l'] is the old one, changed in turn when [l] lies at or below
    [l']. *)
Lemma lookup_alter_meta h :
  meta_only h ->
  forall l f l',
    lookup (alter (option_map h) l f) l'
    = option_map
        (fun n => match strip_prefix l' l with
                  | Some rest => alter (option_map h) rest n
                  | None => n
                  end)
        (lookup f l').
Proof.
  intros Hh. induction l as [|c rest IH]; intros f l'.
  - rewrite alter_meta_only_nil. destruct l' as [|c' r'].
    + reflexivity.
    + destruct (Hh f) as [m ->].
      rewrite lookup_with_meta by discriminate.
      cbn [strip_prefix]. now destruct (lookup f (c' :: r')).
  - destruct f as [m d|m b|m es].
    + destruct l'; reflexivity.
    + destruct l'; reflexivity.
    + rewrite alter_cons_meta. destruct l' as [|c' r'].
      * cbn [lookup option_map strip_prefix]. now rewrite alter_cons_meta.
      * cbn [lookup strip_prefix].
        destruct (String.eqb c' c) eqn:E.
        -- apply String.eqb_eq in E. subst c'.
           rewrite assoc_entries_alter_same.
           destruct (assoc c es) as [child|]; [|reflexivity].
           cbn [option_map]. apply IH.
        -- rewrite assoc_entries_alter_other
             by (intros ->; now rewrite String.eqb_refl in E).
           destruct (assoc c' es) as [child|]; [|reflexivity].
           now destruct (lookup child r').
Qed.

Lemma node_meta_alter_below g c rest n :
  node_meta (alter g (c :: rest) n) = node_meta n.
Proof. now destruct n. Qed.

Lemma is_real_dir_alter_below g c rest n :
  is_real_dir (alter g (c :: rest) n) = is_real_dir n.
Proof. now destruct n. Qed.

Lemma is_real_dir_with_meta m n :
  is_real_dir (with_meta m n) = is_real_dir n.
Proof. now destruct n. Qed.

Lemma stat_is_dir_with_meta m n :
  stat_is_dir (with_meta m n) = stat_is_dir n.
Proof. now destruct n. Qed.

(** Directories stay directories, and nothing else becomes one. *)
Lemma dir_at_alter_meta h l f l' :
  meta_only h ->
  dir_at (alter (option_map h) l f) l' = dir_at f l'.
Proof.
  intros Hh. unfold dir_at. rewrite (lookup_alter_meta h Hh).
  destruct (lookup f l') as [n|]; [|reflexivity]. cbn [option_map].
  destruct (strip_prefix l' l) as [[|c rest]|]; [|..|reflexivity].
  - rewrite alter_meta_only_nil. destruct (Hh n) as [m ->].
    apply is_real_dir_with_meta.
  - apply is_real_dir_alter_below.
Qed.

Lemma exists_at_alter_meta h l f l' :
  meta_only h ->
  exists_at (alter (option_map h) l f) l' = exists_at f l'.
Proof.
  intros Hh. unfold exists_at. rewrite (lookup_alter_meta h Hh).
  now destruct (lookup f l').
Qed.

Lemma namei_from_alter_meta h l f comps :
  meta_only h ->
  forall stack,
    namei_from (alter (option_map h) l f) stack comps
    = namei_from f stack comps.
Proof.
  intros Hh. induction comps as [|c rest IH]; intros stack; cbn.
  - reflexivity.
  - rewrite dir_at_alter_meta by assumption.
    destruct (dir_at f stack); [apply IH|reflexivity].
Qed.

Lemma namei_alter_meta h l f c p :
  meta_only h ->
  namei (alter (option_map h) l f) c p = namei f c p.
Proof.
  intros Hh. unfold namei. destruct (String.eqb p ""); [reflexivity|].
  now apply namei_from_alter_meta.
Qed.

Lemma strip_prefix_self l : strip_prefix l l = Some [].
Proof.
  induction l as [|c r IH]; cbn; [reflexivity|].
  now rewrite String.eqb_refl.
Qed.

Lemma strip_prefix_nil l l' : strip_prefix l' l = Some [] -> l' = l.
Proof.
  revert l. induction l' as [|c r IH]; intros l H.
  - cbn in H. now injection H as ->.
  - destruct l as [|c' r']; [discriminate|]. cbn in H.
    destruct (String.eqb c c') eqn:E; [|discriminate].
    apply String.eqb_eq in E. subst c'. f_equal. now apply IH.
Qed.

(** The metadata found at [l'] after a change at [l]. *)
Definition meta_at (f : node) (l : loc) : option meta :=
  option_map node_meta (lookup f l).

Lemma meta_at_alter_meta k l f l' :
  meta_at (alter (option_map (fun n => with_meta (k (node_meta n)) n)) l f) l'
  = option_map (fun m => if list_eq_dec string_dec l' l then k m else m)
               (meta_at f l').
Proof.
  unfold meta_at.
  rewrite lookup_alter_meta by (intros n; now eexists).
  destruct (lookup f l') as [n|]; [|reflexivity]. cbn [option_map]. f_equal.
  destruct (list_eq_dec string_dec l' l) as [->|Hne].
  - rewrite strip_prefix_self, alter_meta_only_nil. now destruct n.
  - destruct (strip_prefix l' l) as [[|c rest]|] eqn:E; [|..|reflexivity].
    + apply strip_prefix_nil in E. congruence.
    + apply node_meta_alter_below.
Qed.

(** ** Ownership of one kind only *)

Definition uid_at (f : node) (l : loc) : option Z :=
  option_map st_uid (meta_at f l).

Definition gid_at (f : node) (l : loc) : option Z :=
  option_map st_gid (meta_at f l).

(** The request without its owner and group: its run stops where the
    ownership phase of the full request begins. *)
Definition without_ownership (r : Params) : Params := {|
  p_src := p_src r; p_dest := p_dest r; p_chdir := p_chdir r;
  p_owner := None; p_group := None; p_force := p_force r
|}.

(** Every [chown] of the log passes [-1] as group id. *)
Definition group_untouched (e : event) : bool :=
  match e with
  | EvChown _ _ gid => Z.eqb gid (-1)
  | _ => true
  end.

(** Every [chown] of the log passes [-1] as user id. *)
Definition owner_untouched (e : event) : bool :=
  match e with
  | EvChown _ uid _ => Z.eqb uid (-1)
  | _ => true
  end.

Lemma gid_at_chown uid l f l' :
  gid_at (alter (option_map (chown_node uid (-1))) l f) l' = gid_at f l'.
Proof.
  unfold gid_at, chown_node.
  rewrite (meta_at_alter_meta (chown_meta uid (-1))).
  destruct (meta_at f l') as [m|]; [|reflexivity]. cbn [option_map].
  now destruct (list_eq_dec string_dec l' l).
Qed.

Lemma uid_at_chown gid l f l' :
  uid_at (alter (option_map (chown_node (-1) gid)) l f) l' = uid_at f l'.
Proof.
  unfold uid_at, chown_node.
  rewrite (meta_at_alter_meta (chown_meta (-1) gid)).
  destruct (meta_at f l') as [m|]; [|reflexivity]. cbn [option_map].
  now destruct (list_eq_dec string_dec l' l).
Qed.

Definition same_gids (f0 : node) (s : state) : Prop :=
  forall l, gid_at (fs s) l = gid_at f0 l.

Definition same_uids (f0 : node) (s : state) : Prop :=
  forall l, uid_at (fs s) l = uid_at f0 l.

Lemma preserves_same_gids_chown f0 env p uid :
  preserves (same_gids f0) (os_chown_nofollow env p uid (-1)).
Proof.
  intros s H. unfold_calls. cbn. case_split; try exact H.
  intros q. cbn [fs]. rewrite gid_at_chown. apply H.
Qed.

Lemma preserves_same_uids_chown f0 env p gid :
  preserves (same_uids f0) (os_chown_nofollow env p (-1) gid).
Proof.
  intros s H. unfold_calls. cbn. case_split; try exact H.
  intros q. cbn [fs]. rewrite uid_at_chown. apply H.
Qed.

(** Calls that leave the filesystem alone keep every property of it. *)
Definition fs_property (I : state -> Prop) : Prop :=
  forall f c l c' l', I (State f c l) -> I (State f c' l').

Lemma same_gids_fs_property f0 : fs_property (same_gids f0).
Proof. intros f c l c' l' H. exact H. Qed.

Lemma same_uids_fs_property f0 : fs_property (same_uids f0).
Proof. intros f c l c' l' H. exact H. Qed.

Lemma preserves_walk I top : fs_property I -> preserves I (os_walk top).
Proof.
  intros HI [f c l] H. unfold_calls. cbn. now apply (HI f c l).
Qed.

Lemma preserves_getpwnam I env name :
  fs_property I -> preserves I (pwd_getpwnam_uid env name).
Proof.
  intros HI [f c l] H. unfold_calls. cbn.
  destruct (passwd env name); now apply (HI f c l).
Qed.

Lemma preserves_getgrnam I env name :
  fs_property I -> preserves I (grp_getgrnam_gid env name).
Proof.
  intros HI [f c l] H. unfold_calls. cbn.
  destruct (groupdb env name); now apply (HI f c l).
Qed.

Lemma preserves_chown_loop I env rd uid gid :
  fs_property I ->
  (forall p, preserves I (os_chown_nofollow env p uid gid)) ->
  preserves I (chown_loop env rd uid gid).
Proof.
  intros HI Hc. unfold chown_loop.
  apply preserves_bind; [now apply preserves_walk|]. intros items.
  apply preserves_for_each. intros [[dirpath dn] fn].
  apply preserves_bind; [apply Hc|]. intros _.
  apply preserves_for_each. intros filename. apply Hc.
Qed.

(** The ownership phase with an owner only keeps every group id, and
    with a group only every user id. *)
Lemma normalize_keeps_gids f0 env owner group rd :
  PyStr.truthy group = false ->
  preserves (same_gids f0) (normalize env owner group rd).
Proof.
  intros Hg. unfold normalize. rewrite Hg.
  pose proof (same_gids_fs_property f0) as HI.
  apply preserves_bind.
  - destruct (PyStr.truthy owner); [|apply preserves_ret].
    apply preserves_try; [now apply preserves_getpwnam|].
    intros e. apply preserves_raise.
  - intros uid s Hs.
    change (same_gids f0
              (snd ((if PyStr.truthy owner || false
                     then try_except (chown_loop env rd uid (-1))
                            is_PermissionError
                            (fun _ => fail_json (msg_chown rd) [])
                     else ret tt) s))).
    destruct (PyStr.truthy owner || false); [|exact Hs].
    apply preserves_try; [|intros e; apply preserves_raise|exact Hs].
    apply preserves_chown_loop; [assumption|].
    intros p. apply preserves_same_gids_chown.
Qed.

Lemma normalize_keeps_uids f0 env owner group rd :
  PyStr.truthy owner = false ->
  preserves (same_uids f0) (normalize env owner group rd).
Proof.
  intros Ho. unfold normalize. rewrite Ho.
  pose proof (same_uids_fs_property f0) as HI.
  intros s Hs.
  change (same_uids f0
            (snd (bind (if PyStr.truthy group
                        then try_except (grp_getgrnam_gid env (str_of group))
                               is_KeyError
                               (fun _ => fail_json (msg_group (str_of group)) [])
                        else ret (-1)%Z)
                    (fun gid =>
                       if false || PyStr.truthy group
                       then try_except (chown_loop env rd (-1) gid)
                              is_PermissionError
                              (fun _ => fail_json (msg_chown rd) [])
                       else ret tt) s))).
  revert s Hs. apply preserves_bind.
  - destruct (PyStr.truthy group); [|apply preserves_ret].
    apply preserves_try; [now apply preserves_getgrnam|].
    intros e. apply preserves_raise.
  - intros gid. destruct (false || PyStr.truthy group); [|apply preserves_ret].
    apply preserves_try; [|intros e; apply preserves_raise].
    apply preserves_chown_loop; [assumption|].
    intros p. apply preserves_same_uids_chown.
Qed.

Lemma only_adds_chdir P p : P (EvChdir p) = true -> only_adds P (os_chdir p).
Proof. intros H. one_event (EvChdir p) H. Qed.

Lemma only_adds_getcwd P : P EvGetcwd = true -> only_adds P os_getcwd.
Proof. intros H. one_event EvGetcwd H. Qed.

Lemma only_adds_isdir P p :
  P (EvIsdir p) = true -> only_adds P (os_path_isdir p).
Proof. intros H. one_event (EvIsdir p) H. Qed.

Lemma only_adds_rmtree P p :
  P (EvRmtree p) = true -> only_adds P (shutil_rmtree_ignore_errors p).
Proof. intros H. one_event (EvRmtree p) H. Qed.

Lemma only_adds_mkdir P env p :
  P (EvMkdir p) = true -> only_adds P (os_mkdir env p).
Proof. intros H. one_event (EvMkdir p) H. Qed.

Lemma only_adds_popen P env cmd :
  (forall st, P (EvPopen cmd st) = true) ->
  only_adds P (os_popen_read_close env cmd).
Proof.
  intros H s. unfold_calls. cbn.
  destruct (pipeline env cmd (fs s) (cwd s)) as [[written out] st].
  exists [EvPopen cmd st]. cbn. now rewrite H.
Qed.

Lemma only_adds_unpack P env src dest result :
  (forall e, is_chown e = false -> P e = true) ->
  only_adds P (unpack env src dest result).
Proof.
  intros HP. unfold unpack.
  apply only_adds_bind; [now apply only_adds_mkdir, HP|]. intros _.
  apply only_adds_bind; [now apply only_adds_chdir, HP|]. intros _.
  apply only_adds_bind; [apply only_adds_popen; intros; now apply HP|].
  intros sh. destruct (truthy_status (snd sh));
    [apply only_adds_fail_json|apply only_adds_ret].
Qed.

(** The calls of a whole run, given those of its ownership phase. *)
Lemma only_adds_run P env params cm :
  (forall e, is_chown e = false -> P e = true) ->
  (forall rd, only_adds P (normalize env (p_owner params) (p_group params) rd)) ->
  only_adds P (run_module env params cm).
Proof.
  intros HP Hn. unfold run_module.
  apply only_adds_bind.
  { destruct (PyStr.truthy _); [now apply only_adds_chdir, HP|apply only_adds_ret]. }
  intros _. apply only_adds_bind; [now apply only_adds_getcwd, HP|].
  intros cwd0. unfold decide.
  apply only_adds_bind.
  { destruct cm; [|apply only_adds_ret]. unfold predict.
    apply only_adds_bind; [now apply only_adds_isdir, HP|].
    intros b. apply only_adds_raise. }
  intros _. apply only_adds_bind; [now apply only_adds_isdir, HP|].
  intros b. apply only_adds_bind.
  { destruct b; [|apply only_adds_ret].
    destruct (p_force params);
      [now apply only_adds_rmtree, HP|apply only_adds_raise]. }
  intros _. apply only_adds_bind; [now apply only_adds_unpack|].
  intros _. apply only_adds_bind; [apply Hn|].
  intros _. apply only_adds_raise.
Qed.

Lemma only_adds_normalize_owner_only env owner group rd :
  PyStr.truthy group = false ->
  only_adds group_untouched (normalize env owner group rd).
Proof.
  intros Hg. unfold normalize. rewrite Hg.
  apply only_adds_bind.
  - destruct (PyStr.truthy owner); [|apply only_adds_ret].
    apply only_adds_try; [|intros; apply only_adds_fail_json].
    now apply only_adds_getpwnam.
  - intros uid s.
    change (exists added,
              log (snd ((if PyStr.truthy owner || false
                         then try_except (chown_loop env rd uid (-1))
                                is_PermissionError
                                (fun _ => fail_json (msg_chown rd) [])
                         else ret tt) s))
              = log s ++ added /\ forallb group_untouched added = true).
    revert s.
    change (only_adds group_untouched
              (if PyStr.truthy owner || false
               then try_except (chown_loop env rd uid (-1))
                      is_PermissionError
                      (fun _ => fail_json (msg_chown rd) [])
               else ret tt)).
    destruct (PyStr.truthy owner || false); [|apply only_adds_ret].
    apply only_adds_try; [|intros; apply only_adds_fail_json].
    now apply only_adds_chown_loop.
Qed.

Lemma only_adds_normalize_group_only env owner group rd :
  PyStr.truthy owner = false ->
  only_adds owner_untouched (normalize env owner group rd).
Proof.
  intros Ho. unfold normalize. rewrite Ho.
  change (only_adds owner_untouched
            (bind (if PyStr.truthy group
                   then try_except (grp_getgrnam_gid env (str_of group))
                          is_KeyError
                          (fun _ => fail_json (msg_group (str_of group)) [])
                   else ret (-1)%Z)
               (fun gid =>
                  if false || PyStr.truthy group
                  then try_except (chown_loop env rd (-1) gid)
                         is_PermissionError
                         (fun _ => fail_json (msg_chown rd) [])
                  else ret tt))).
  apply only_adds_bind.
  - destruct (PyStr.truthy group); [|apply only_adds_ret].
    apply only_adds_try; [|intros; apply only_adds_fail_json].
    now apply only_adds_getgrnam.
  - intros gid. destruct (false || PyStr.truthy group); [|apply only_adds_ret].
    apply only_adds_try; [|intros; apply only_adds_fail_json].
    now apply only_adds_chown_loop.
Qed.

Lemma snd_bind {A B} (c : M A) (k : A -> M B) s :
  snd (bind c k s)
  = match c s with
    | (Ret a, s1) => snd (k a s1)
    | (Raise _, s1) => s1
    end.
Proof. unfold bind. now destruct (c s) as [[a|e] s1]. Qed.

(** The state the unpack phase leaves does not depend on the dictionary
    it would print. *)
Lemma unpack_state_independent env src dest r1 r2 s :
  match unpack env src dest r1 s, unpack env src dest r2 s with
  | (Ret _, s1), (Ret _, s2) => s1 = s2
  | (Raise _, s1), (Raise _, s2) => s1 = s2
  | _, _ => False
  end.
Proof.
  unfold unpack, bind.
  destruct (os_mkdir env dest s) as [[[]|e] s1]; [|reflexivity].
  destruct (os_chdir dest s1) as [[[]|e] s2]; [|reflexivity].
  destruct (os_popen_read_close env (extract_cmd src) s2) as [[sh|e] s3];
    [|reflexivity].
  now destruct (truthy_status (snd sh)).
Qed.

(** A real run either ends before its ownership phase, with the
    filesystem that the run without owner and group leaves, or it ends
    in the state its ownership phase leaves when started from there. *)
Lemma real_run_normalizes env params f c :
  fs (snd (invoke env params false f c))
  = fs (snd (invoke env (without_ownership params) false f c))
  \/ exists s1 rd,
       fs s1 = fs (snd (invoke env (without_ownership params) false f c))
       /\ snd (invoke env params false f c)
          = snd (normalize env (p_owner params) (p_group params) rd s1).
Proof.
  unfold invoke, start.
  destruct (workdir env params f c) as [w|] eqn:Hw.
  2:{ left.
      destruct (workdir_refused env params false f c [] Hw) as [e ->].
      destruct (workdir_refused env (without_ownership params) false f c []
                  Hw) as [e' ->].
      reflexivity. }
  rewrite (workdir_entered env params false f c [] w Hw).
  rewrite (workdir_entered env (without_ownership params) false f c [] w Hw).
  destruct (path_isdir f w (final_dest env params) && negb (p_force params))
    eqn:Hnoop.
  - left. apply andb_prop in Hnoop as [Hd Hf]. apply negb_true_iff in Hf.
    rewrite (decide_present_no_force env params _ f w _ Hd Hf).
    now rewrite (decide_present_no_force env (without_ownership params)
                   _ f w _ Hd Hf).
  - rewrite (decide_reaches_unpack env params _ f w _ Hnoop).
    rewrite (decide_reaches_unpack env (without_ownership params)
               _ f w _ Hnoop).
    change (final_dest env (without_ownership params))
      with (final_dest env params).
    change (resolved_src env (without_ownership params))
      with (resolved_src env params).
    change (p_owner (without_ownership params)) with (@None string).
    change (p_group (without_ownership params)) with (@None string).
    set (s0 := State _ w _).
    pose proof (unpack_state_independent env (resolved_src env params)
                  (final_dest env params) (prepared_result env params)
                  (prepared_result env (without_ownership params)) s0) as Hu.
    rewrite !snd_bind.
    destruct (unpack env _ _ (prepared_result env params) s0)
      as [[[]|e1] s1];
      destruct (unpack env _ _ (prepared_result env (without_ownership params)) s0)
        as [[[]|e2] s2]; try contradiction; subst s2.
    + right. exists s1, (PosixPath.join (render w) (final_dest env params)).
      split.
      * rewrite snd_bind. cbn. reflexivity.
      * rewrite snd_bind.
        destruct (normalize env (p_owner params) (p_group params) _ s1)
          as [[[]|e] s2]; reflexivity.
    + left. reflexivity.
Qed.

(** C8: in a run that asks for an owner and no group, every entry of
    the filesystem has, when the run ends, the group id it had when the
    extraction was done (the state in which the same request without
    owner and group ends); with a group and no owner, every entry keeps
    its user id.  The id that was not asked for is passed to every
    [chown] as [-1], which leaves it as it is. *)
Theorem ownership_of_one_kind_leaves_the_other env params f c :
  let final := snd (invoke env params false f c) in
  let extracted := snd (invoke env (without_ownership params) false f c) in
  (PyStr.truthy (p_group params) = false ->
   (forall l, gid_at (fs final) l = gid_at (fs extracted) l)
   /\ forallb group_untouched (log final) = true)
  /\ (PyStr.truthy (p_owner params) = false ->
      (forall l, uid_at (fs final) l = uid_at (fs extracted) l)
      /\ forallb owner_untouched (log final) = true).
Proof.
  intros final extracted. subst final extracted. split; intros Hg; split.
  - destruct (real_run_normalizes env params f c) as [->|(s1 & rd & <- & ->)];
      [reflexivity|].
    now apply (normalize_keeps_gids (fs s1)).
  - destruct (only_adds_run group_untouched env params false)
        with (s := start f c) as (added & E & F).
    + now intros [].
    + intros rd. now apply only_adds_normalize_owner_only.
    + unfold invoke. now rewrite E.
  - destruct (real_run_normalizes env params f c) as [->|(s1 & rd & <- & ->)];
      [reflexivity|].
    now apply (normalize_keeps_uids (fs s1)).
  - destruct (only_adds_run owner_untouched env params false)
        with (s := start f c) as (added & E & F).
    + now intros [].
    + intros rd. now apply only_adds_normalize_group_only.
    + unfold invoke. now rewrite E.
Qed.

(** The instance of C8 on the concrete host: [deploy] becomes the owner
    and the group stays [1000]; [staff] becomes the group and the owner
    stays [1000]. *)
Lemma ownership_of_one_kind_leaves_the_other_witness :
  (let final := snd (invoke Host.env (Host.with_owner "deploy" Host.request)
                            false Host.disk []) in
   uid_at (fs final) ["work"; "pkg-2.3"; "usr"; "README"] = Some 2000%Z
   /\ gid_at (fs final) ["work"; "pkg-2.3"; "usr"; "README"] = Some 1000%Z
   /\ forallb group_untouched (log final) = true)
  /\ (let final := snd (invoke Host.env (Host.with_group "staff" Host.request)
                               false Host.disk []) in
      uid_at (fs final) ["work"; "pkg-2.3"; "usr"; "README"] = Some 1000%Z
      /\ gid_at (fs final) ["work"; "pkg-2.3"; "usr"; "README"] = Some 50%Z
      /\ forallb owner_untouched (log final) = true).
Proof.
  split.
  - destruct (proj1 (ownership_of_one_kind_leaves_the_other
                       Host.env (Host.with_owner "deploy" Host.request)
                       Host.disk []) eq_refl) as [Hg Hl].
    split; [reflexivity|]. split; [|exact Hl].
    exact (eq_trans (Hg ["work"; "pkg-2.3"; "usr"; "README"]) eq_refl).
  - destruct (proj2 (ownership_of_one_kind_leaves_the_other
                       Host.env (Host.with_group "staff" Host.request)
                       Host.disk []) eq_refl) as [Hu Hl].
    split; [|split; [reflexivity|exact Hl]].
    exact (eq_trans (Hu ["work"; "pkg-2.3"; "usr"; "README"]) eq_refl).
Defined.

(** ** What a run adds to the tree *)

(** Every directory of the first tree is a directory of the second. *)
Definition grows (fa fb : node) : Prop :=
  forall l, dir_at fa l = true -> dir_at fb l = true.

Definition same_dirs (f0 : node) (s : state) : Prop :=
  forall l, dir_at (fs s) l = dir_at f0 l.

Lemma grows_refl f : grows f f.
Proof. now intros l H. Qed.

Lemma grows_trans fa fb fc : grows fa fb -> grows fb fc -> grows fa fc.
Proof. intros H1 H2 l H. now apply H2, H1. Qed.

Lemma namei_from_grows fa fb comps :
  grows fa fb ->
  forall stack l,
    namei_from fa stack comps = Some l -> namei_from fb stack comps = Some l.
Proof.
  intros Hg. induction comps as [|c rest IH]; intros stack l; cbn.
  - trivial.
  - destruct (dir_at fa stack) eqn:E; [|discriminate].
    rewrite (Hg _ E). apply IH.
Qed.

Lemma namei_grows fa fb c p l :
  grows fa fb -> namei fa c p = Some l -> namei fb c p = Some l.
Proof.
  intros Hg. unfold namei. destruct (String.eqb p ""); [discriminate|].
  now apply namei_from_grows.
Qed.

Lemma lookup_app f : forall l suf,
  lookup f (l ++ suf)
  = match lookup f l with
    | Some n => lookup n suf
    | None => None
    end.
Proof.
  intros l. revert f. induction l as [|c r IH]; intros f suf; cbn.
  - reflexivity.
  - destruct f as [m d|m b|m es]; try reflexivity.
    destruct (assoc c es) as [child|]; [apply IH|reflexivity].
Qed.

Lemma strip_prefix_app p : forall l suf,
  strip_prefix p l = Some suf -> l = p ++ suf.
Proof.
  induction p as [|a p' IH]; intros l suf H.
  - cbn in H. now injection H as ->.
  - destruct l as [|b l']; [discriminate|]. cbn in H.
    destruct (String.eqb a b) eqn:E; [|discriminate].
    apply String.eqb_eq in E. subst b. cbn. f_equal. now apply IH.
Qed.

(** A change at [p] leaves the directories that are not at or below
    [p] directories. *)
Lemma dir_at_alter_elsewhere g p : forall f l,
  strip_prefix p l = None ->
  dir_at f l = true -> dir_at (alter g p f) l = true.
Proof.
  unfold dir_at. induction p as [|c rest IH]; intros f l Hs Hd.
  - discriminate.
  - destruct f as [m d|m b|m es]; try exact Hd.
    rewrite alter_cons. destruct l as [|c' r']; [reflexivity|].
    cbn [lookup strip_prefix] in *.
    destruct (String.eqb c c') eqn:E.
    + apply String.eqb_eq in E. subst c'.
      rewrite assoc_entries_alter_same.
      destruct (assoc c es) as [child|]; [|discriminate].
      destruct rest as [|c2 rest2]; [discriminate|].
      cbn [option_map]. now apply IH.
    + rewrite assoc_entries_alter_other; [exact Hd|].
      intros ->. now rewrite String.eqb_refl in E.
Qed.

(** [mkdir] where nothing was. *)
Lemma grows_created g p f :
  lookup f p = None -> grows f (alter g p f).
Proof.
  intros Hp l Hd. destruct (strip_prefix p l) as [suf|] eqn:E.
  - apply strip_prefix_app in E. subst l. unfold dir_at in Hd.
    rewrite lookup_app, Hp in Hd. discriminate.
  - now apply dir_at_alter_elsewhere.
Qed.

(** The pipeline writing into an empty directory. *)
Lemma grows_populated written p f m :
  lookup f p = Some (Dir m []) -> grows f (alter (populate written) p f).
Proof.
  intros Hp l Hd. destruct (strip_prefix p l) as [suf|] eqn:E.
  - apply strip_prefix_app in E. subst l. destruct suf as [|c r].
    + rewrite app_nil_r. apply dir_at_populate. unfold dir_at.
      now rewrite Hp.
    + unfold dir_at in Hd. rewrite lookup_app, Hp in Hd. discriminate.
  - now apply dir_at_alter_elsewhere.
Qed.

Lemma namei_from_same_dirs fa fb comps :
  (forall l, dir_at fa l = dir_at fb l) ->
  forall stack, namei_from fa stack comps = namei_from fb stack comps.
Proof.
  intros H. induction comps as [|c rest IH]; intros stack; cbn.
  - reflexivity.
  - rewrite H. destruct (dir_at fb stack); [apply IH|reflexivity].
Qed.

Lemma namei_same_dirs fa fb c p :
  (forall l, dir_at fa l = dir_at fb l) -> namei fa c p = namei fb c p.
Proof.
  intros H. unfold namei. destruct (String.eqb p ""); [reflexivity|].
  now apply namei_from_same_dirs.
Qed.

Lemma same_dirs_fs_property f0 : fs_property (same_dirs f0).
Proof. intros f c l c' l' H. exact H. Qed.

Lemma preserves_same_dirs_chown f0 env p uid gid :
  preserves (same_dirs f0) (os_chown_nofollow env p uid gid).
Proof.
  intros s H. unfold_calls. cbn. case_split; try exact H.
  intros q. cbn [fs].
  rewrite dir_at_alter_meta by apply chown_node_meta_only. apply H.
Qed.

(** The ownership phase keeps the shape of the tree. *)
Lemma normalize_keeps_dirs f0 env owner group rd :
  preserves (same_dirs f0) (normalize env owner group rd).
Proof.
  pose proof (same_dirs_fs_property f0) as HI. unfold normalize.
  apply preserves_bind; [|intros uid; apply preserves_bind; [|intros gid]].
  - destruct (PyStr.truthy owner); [|apply preserves_ret].
    apply preserves_try; [now apply preserves_getpwnam|].
    intros e. apply preserves_raise.
  - destruct (PyStr.truthy group); [|apply preserves_ret].
    apply preserves_try; [now apply preserves_getgrnam|].
    intros e. apply preserves_raise.
  - destruct (PyStr.truthy owner || PyStr.truthy group);
      [|apply preserves_ret].
    apply preserves_try; [|intros e; apply preserves_raise].
    apply preserves_chown_loop; [assumption|].
    intros p. apply preserves_same_dirs_chown.
Qed.

(** When the unpack phase goes through, the destination was not there,
    it is the directory the process is now in, and every directory of
    the old tree is still one. *)
Lemma unpack_ok env src dest result f w l0 s1 :
  unpack env src dest result (State f w l0) = (Ret tt, s1) ->
  exists L,
    namei f w dest = Some L
    /\ lookup f L = None
    /\ cwd s1 = L
    /\ grows f (fs s1)
    /\ dir_at (fs s1) L = true.
Proof.
  unfold unpack, os_mkdir, os_chdir, os_popen_read_close.
  unfold bind at 1. unfold bind at 1. unfold emit at 1. cbn [fs cwd log].
  unfold bind at 1. unfold get_fs at 1. cbn [fs].
  unfold bind at 1. unfold get_cwd at 1. cbn [cwd].
  destruct (namei f w dest) as [L|] eqn:Hn; [|discriminate].
  destruct (exists_at f L) eqn:Hex; [discriminate|].
  destruct (dir_at f (removelast L)) eqn:Hpar; [|discriminate].
  destruct (may_write_at env f (removelast L)) eqn:Hmw; [|discriminate].
  assert (HL : lookup f L = None).
  { unfold exists_at in Hex. now destruct (lookup f L). }
  assert (Hne : L <> []) by (intros ->; discriminate).
  unfold put_fs at 1. cbn [fs cwd log].
  set (f1 := alter _ L f).
  assert (Hg1 : grows f f1) by now apply grows_created.
  assert (H1 : lookup f1 L = Some (fresh_dir env)).
  { now apply lookup_alter_created. }
  unfold bind at 1. unfold bind at 1. unfold bind at 1. unfold emit at 1.
  cbn [fs cwd log]. unfold bind at 1. unfold get_fs at 1. cbn [fs].
  unfold bind at 1. unfold get_cwd at 1. cbn [cwd].
  rewrite (namei_grows f f1 w dest L Hg1 Hn).
  assert (Hd1 : dir_at f1 L = true) by (unfold dir_at; now rewrite H1).
  rewrite Hd1.
  unfold put_cwd at 1. cbn [fs cwd log].
  unfold bind at 1. unfold bind at 1. unfold get_fs at 1. cbn [fs cwd log].
  unfold bind at 1. unfold get_cwd at 1. cbn [fs cwd log].
  destruct (pipeline env (extract_cmd src) f1 L) as [[written out] st].
  unfold bind, emit, put_fs, ret. cbn [fs cwd log snd].
  destruct (truthy_status _); [discriminate|].
  intros [= <-]. exists L. cbn [fs cwd].
  split; [reflexivity|]. split; [assumption|]. split; [reflexivity|]. split.
  - eapply grows_trans; [exact Hg1|].
    now apply (grows_populated written L f1 (Meta (euid env) (egid env) false)).
  - now apply dir_at_populate.
Qed.

(** ** Running the module twice *)


(** The first run on the concrete host, computed. *)
Lemma first_run_on_host :
  invoke Host.env Host.request false Host.disk []
  = (Raise (SystemExit 0
       [ ("changed", VBool true); ("src", VStr "/srv/pkg-2.3.rpm");
         ("dest", VStr "pkg-2.3"); ("chdir", VStr "/work");
         ("owner", VNone); ("group", VNone); ("force", VBool false) ]),
     State Host.disk_unpacked ["work"; "pkg-2.3"]
       [ EvChdir "/work"; EvGetcwd; EvIsdir "pkg-2.3"; EvMkdir "pkg-2.3";
         EvChdir "pkg-2.3"; EvPopen (extract_cmd "/srv/pkg-2.3.rpm") 0 ]).
Proof. vm_compute. reflexivity. Qed.



(** ** Paths below a directory *)

Fixpoint has_slash (s : string) : bool :=
  match s with
  | EmptyString => false
  | String c r => Ascii.eqb c "/" || has_slash r
  end.

(** A name that a directory can hold. *)
Definition valid_name (k : string) : bool :=
  negb (String.eqb k "") && negb (String.eqb k ".")
  && negb (String.eqb k "..") && negb (has_slash k).

Lemma split_slash_no_slash k :
  has_slash k = false -> PyStr.split_slash k = [k].
Proof.
  induction k as [|c r IH]; cbn; [reflexivity|].
  destruct (Ascii.eqb c "/"); cbn; [discriminate|].
  intros H. now rewrite (IH H).
Qed.

(** A single name is removed as a whole. *)
Lemma rmtree_at_valid_name k :
  valid_name k = true -> rmtree_at k = rmtree_entry.
Proof.
  intros Hk. unfold valid_name in Hk.
  apply andb_prop in Hk as [Hk Hs]. apply andb_prop in Hk as [Hk H2].
  apply andb_prop in Hk as [H0 H1]. apply negb_true_iff in H0, H1, H2, Hs.
  unfold rmtree_at, rmdir_refuses, last_component.
  rewrite (split_slash_no_slash k Hs). cbn [filter]. rewrite H0. cbn [negb last].
  now rewrite H0, H1, H2.
Qed.

Lemma split_slash_sep a b :
  PyStr.split_slash (a ++ "/" ++ b)%string
  = PyStr.split_slash a ++ PyStr.split_slash b.
Proof.
  rewrite split_slash_app.
  change (PyStr.split_slash ("/" ++ b)%string)
    with (EmptyString :: PyStr.split_slash b).
  cbv iota. rewrite append_empty_r.
  rewrite (app_removelast_last EmptyString (split_slash_nonempty a)) at 3.
  now rewrite <- app_assoc.
Qed.

Lemma ends_with_slash_inv s :
  PyStr.ends_with_slash s = true -> exists s', s = (s' ++ "/")%string.
Proof.
  induction s as [|c r IH]; [discriminate|].
  destruct r as [|c' r'].
  - cbn. intros H. apply Ascii.eqb_eq in H. subst c. now exists EmptyString.
  - intros H. change (PyStr.ends_with_slash (String c' r') = true) in H.
    destruct (IH H) as [s' ->]. now exists (String c s').
Qed.

Lemma components_app_name a k :
  valid_name k = true ->
  components (a ++ "/" ++ k)%string = components a ++ [k].
Proof.
  intros Hk. unfold valid_name in Hk.
  apply andb_prop in Hk as [Hk Hs]. apply andb_prop in Hk as [Hk H2].
  apply andb_prop in Hk as [H0 H1]. apply negb_true_iff in Hs.
  unfold components.
  rewrite split_slash_sep, filter_app, (split_slash_no_slash k Hs).
  cbn [filter]. apply negb_true_iff in H0, H1. now rewrite H0, H1.
Qed.

Lemma components_trailing_slash a :
  components (a ++ "/")%string = components a.
Proof.
  unfold components.
  replace (a ++ "/")%string with (a ++ "/" ++ "")%string by reflexivity.
  rewrite split_slash_sep, filter_app. cbn. apply app_nil_r.
Qed.

(** The components of [os.path.join(top, name)]. *)
Lemma components_join top k :
  top <> EmptyString -> valid_name k = true ->
  components (PosixPath.join top k) = components top ++ [k].
Proof.
  intros Ht Hk. unfold PosixPath.join.
  assert (Hs : PyStr.starts_with_slash k = false).
  { unfold valid_name in Hk. destruct k as [|c r]; [reflexivity|].
    cbn in *. destruct (Ascii.eqb c "/"); [|reflexivity].
    cbn in Hk. now rewrite andb_false_r in Hk. }
  rewrite Hs.
  destruct (String.eqb top "") eqn:E.
  { apply String.eqb_eq in E. congruence. }
  cbn [orb]. destruct (PyStr.ends_with_slash top) eqn:Hend.
  - destruct (ends_with_slash_inv _ Hend) as [s' ->].
    rewrite append_assoc, components_trailing_slash.
    now apply components_app_name.
  - now apply components_app_name.
Qed.

Lemma starts_with_slash_join top k :
  top <> EmptyString -> PyStr.starts_with_slash k = false ->
  PyStr.starts_with_slash (PosixPath.join top k)
  = PyStr.starts_with_slash top
  /\ PosixPath.join top k <> EmptyString.
Proof.
  intros Ht Hs. unfold PosixPath.join. rewrite Hs.
  destruct top as [|c r]; [congruence|].
  destruct (String.eqb (String c r) "" || PyStr.ends_with_slash (String c r));
    split; cbn; congruence.
Qed.

Lemma namei_from_snoc f comps k : forall stack,
  namei_from f stack (comps ++ [k])
  = match namei_from f stack comps with
    | Some l =>
        if dir_at f l
        then Some (if String.eqb k ".." then removelast l else l ++ [k])
        else None
    | None => None
    end.
Proof.
  induction comps as [|c rest IH]; intros stack; cbn.
  - reflexivity.
  - destruct (dir_at f stack); [apply IH|reflexivity].
Qed.

(** An entry of a directory, named through [os.path.join]. *)
Lemma namei_join f c top k here :
  namei f c top = Some here ->
  dir_at f here = true ->
  valid_name k = true ->
  namei f c (PosixPath.join top k) = Some (here ++ [k]).
Proof.
  unfold namei. intros Hn Hd Hk.
  destruct (String.eqb top "") eqn:E; [discriminate|].
  apply String.eqb_neq in E.
  assert (Hs : PyStr.starts_with_slash k = false).
  { unfold valid_name in Hk. destruct k as [|a r]; [reflexivity|].
    cbn in *. destruct (Ascii.eqb a "/"); [|reflexivity].
    cbn in Hk. now rewrite andb_false_r in Hk. }
  destruct (starts_with_slash_join top k E Hs) as [-> Hne].
  apply String.eqb_neq in Hne. rewrite Hne.
  rewrite components_join by assumption.
  rewrite namei_from_snoc, Hn, Hd.
  unfold valid_name in Hk.
  apply andb_prop in Hk as [Hk _]. apply andb_prop in Hk as [_ Hk].
  apply negb_true_iff in Hk. now rewrite Hk.
Qed.

(** ** The walk over a well-formed tree *)

(** The part of [walk_node] that descends into the entries. *)
Definition walk_entries (top : string) : entries_t -> list walk_item :=
  fix go (es : entries_t) : list walk_item :=
    match es with
    | [] => []
    | (k, v) :: t => walk_node (PosixPath.join top k) v ++ go t
    end.

Definition fresh_name (k : string) (t : entries_t) : bool :=
  match assoc k t with
  | None => true
  | Some _ => false
  end.

(** Names are valid and no directory holds a name twice. *)
Fixpoint wf_node (n : node) : bool :=
  match n with
  | Dir _ es =>
      (fix go (es : entries_t) : bool :=
         match es with
         | [] => true
         | (k, v) :: t =>
             valid_name k && fresh_name k t && wf_node v && go t
         end) es
  | _ => true
  end.

Definition wf_entries : entries_t -> bool :=
  fix go (es : entries_t) : bool :=
    match es with
    | [] => true
    | (k, v) :: t => valid_name k && fresh_name k t && wf_node v && go t
    end.

(** The paths handed to [chown], in the order of the loop: for every
    item, the directory, then its files. *)
Definition chown_paths (items : list walk_item) : list string :=
  flat_map (fun it : walk_item =>
              let '(dirpath, _, fnames) := it in
              dirpath :: map (PosixPath.join dirpath) fnames)
           items.

(** The same, as locations in the tree. *)
Fixpoint targets (here : loc) (n : node) : list loc :=
  match n with
  | Dir _ es =>
      here :: map (fun k => here ++ [k]) (filenames es)
        ++ (fix go (es : entries_t) : list loc :=
              match es with
              | [] => []
              | (k, v) :: t => targets (here ++ [k]) v ++ go t
              end) es
  | _ => []
  end.

Definition targets_entries (here : loc) : entries_t -> list loc :=
  fix go (es : entries_t) : list loc :=
    match es with
    | [] => []
    | (k, v) :: t => targets (here ++ [k]) v ++ go t
    end.

(** Induction on a tree and on the entries of its directories. *)
Section NodeInduction.

Variable P : node -> Prop.
Variable Q : entries_t -> Prop.
Hypothesis on_file : forall m d, P (File m d).
Hypothesis on_link : forall m b, P (Symlink m b).
Hypothesis on_dir : forall m es, Q es -> P (Dir m es).
Hypothesis on_nil : Q [].
Hypothesis on_cons : forall k v t, P v -> Q t -> Q ((k, v) :: t).

Fixpoint node_entries_ind (n : node) : P n :=
  match n as n0 return P n0 with
  | File m d => on_file m d
  | Symlink m b => on_link m b
  | Dir m es =>
      on_dir m es
        ((fix entries_ind (es : entries_t) : Q es :=
            match es as es0 return Q es0 with
            | [] => on_nil
            | (k, v) :: t => on_cons k v t (node_entries_ind v) (entries_ind t)
            end) es)
  end.

End NodeInduction.

Lemma chown_paths_app a b :
  chown_paths (a ++ b) = chown_paths a ++ chown_paths b.
Proof. apply flat_map_app. Qed.

Lemma assoc_in k v es : assoc k es = Some v -> In (k, v) es.
Proof.
  induction es as [|[k' v'] t IH]; cbn; [discriminate|].
  destruct (String.eqb k' k) eqn:E.
  - apply String.eqb_eq in E. subst k'. intros [= ->]. now left.
  - intros H. right. now apply IH.
Qed.

Lemma wf_entries_cons k v t :
  wf_entries ((k, v) :: t) = true ->
  valid_name k = true /\ assoc k t = None /\ wf_node v = true
  /\ wf_entries t = true.
Proof.
  cbn. intros H.
  apply andb_prop in H as [H H4]. apply andb_prop in H as [H H3].
  apply andb_prop in H as [H1 H2]. unfold fresh_name in H2.
  destruct (assoc k t); [discriminate|]. auto.
Qed.

Lemma in_assoc_unique k v es :
  wf_entries es = true -> In (k, v) es -> assoc k es = Some v.
Proof.
  induction es as [|[k' v'] t IH]; [contradiction|].
  intros Hwf Hin. apply wf_entries_cons in Hwf as (_ & Hfresh & _ & Hwf).
  cbn. destruct Hin as [[= -> ->]|Hin].
  - now rewrite String.eqb_refl.
  - specialize (IH Hwf Hin). destruct (String.eqb k' k) eqn:E; [|exact IH].
    apply String.eqb_eq in E. subst k'. congruence.
Qed.

Lemma in_wf_entries k v es :
  wf_entries es = true -> In (k, v) es ->
  valid_name k = true /\ wf_node v = true.
Proof.
  induction es as [|[k' v'] t IH]; [contradiction|].
  intros Hwf Hin. apply wf_entries_cons in Hwf as (H1 & _ & H3 & Hwf).
  destruct Hin as [[= -> ->]|Hin]; [auto|now apply IH].
Qed.

Lemma in_filenames k es :
  In k (filenames es) <->
  exists v, In (k, v) es /\ stat_is_dir v = false.
Proof.
  unfold filenames. rewrite in_map_iff. split.
  - intros ([k' v] & <- & Hin). apply filter_In in Hin as [Hin Hs].
    exists v. split; [exact Hin|]. now apply negb_true_iff in Hs.
  - intros (v & Hin & Hs). exists (k, v). split; [reflexivity|].
    apply filter_In. split; [exact Hin|]. cbn. now rewrite Hs.
Qed.

Lemma Forall2_map_same {A B C} (R : B -> C -> Prop) (g : A -> B)
    (h : A -> C) xs :
  (forall x, In x xs -> R (g x) (h x)) ->
  Forall2 R (map g xs) (map h xs).
Proof.
  induction xs as [|x t IH]; intros H; cbn; constructor.
  - apply H. now left.
  - apply IH. intros y Hy. apply H. now right.
Qed.

(** A path handed to [chown] and the location it names. *)
Definition names (f : node) (c : loc) (p : string) (l : loc) : Prop :=
  namei f c p = Some l /\ exists_at f l = true.

(** Every path of the loop names the location at the same place of
    [targets]. *)
Lemma walk_names f c n :
  forall top here,
    wf_node n = true ->
    namei f c top = Some here ->
    lookup f here = Some n ->
    Forall2 (names f c) (chown_paths (walk_node top n)) (targets here n).
Proof.
  induction n using node_entries_ind
    with (Q := fun es =>
                 forall top here,
                   wf_entries es = true ->
                   namei f c top = Some here ->
                   dir_at f here = true ->
                   (forall k v, In (k, v) es ->
                                lookup f (here ++ [k]) = Some v) ->
                   Forall2 (names f c)
                     (chown_paths (walk_entries top es))
                     (targets_entries here es)).
  - intros; constructor.
  - intros; constructor.
  - intros top here Hwf Hn Hl.
    assert (Hd : dir_at f here = true) by (unfold dir_at; now rewrite Hl).
    assert (Hin : forall k v, In (k, v) es ->
                              lookup f (here ++ [k]) = Some v).
    { intros k v Hkv. rewrite lookup_app, Hl. cbn.
      now rewrite (in_assoc_unique k v es Hwf Hkv). }
    change (walk_node top (Dir m es))
      with ((top, dirnames es, filenames es) :: walk_entries top es).
    change (targets here (Dir m es))
      with (here :: map (fun k => here ++ [k]) (filenames es)
              ++ targets_entries here es).
    cbn [chown_paths flat_map]. fold (chown_paths (walk_entries top es)).
    cbn [app]. constructor.
    { split; [exact Hn|]. unfold exists_at. now rewrite Hl. }
    apply Forall2_app.
    + apply Forall2_map_same. intros k Hk.
      apply in_filenames in Hk as (v & Hkv & _).
      destruct (in_wf_entries k v es Hwf Hkv) as [Hvalid _]. split.
      * now apply namei_join.
      * unfold exists_at. now rewrite (Hin k v Hkv).
    + now apply IHn.
  - intros; constructor.
  - intros top here Hwf Hn Hd Hin.
    apply wf_entries_cons in Hwf as (Hvalid & _ & Hwv & Hwt).
    change (walk_entries top ((k, n) :: t))
      with (walk_node (PosixPath.join top k) n ++ walk_entries top t).
    change (targets_entries here ((k, n) :: t))
      with (targets (here ++ [k]) n ++ targets_entries here t).
    rewrite chown_paths_app. apply Forall2_app.
    + apply IHn; [assumption|now apply namei_join|].
      apply Hin. now left.
    + apply IHn0; try assumption.
      intros k' v' Hk'. apply Hin. now right.
Qed.

(** ** Running the loop *)

(** [chown] over a list of paths, one after the other. *)
Definition chown_all (env : Env) (uid gid : Z) (ps : list string) : M unit :=
  for_each ps (fun p => os_chown_nofollow env p uid gid).

(** The filesystem after [chown] at a list of locations. *)
Definition chown_at (uid gid : Z) (f : node) (l : loc) : node :=
  alter (option_map (chown_node uid gid)) l f.

Lemma for_each_app {A} (xs ys : list A) body s :
  for_each (xs ++ ys) body s
  = (for_each xs body ;; for_each ys body) s.
Proof.
  revert s. induction xs as [|x t IH]; intros s.
  - reflexivity.
  - cbn [app for_each]. unfold bind in *.
    destruct (body x s) as [[[]|e] s1]; [|reflexivity].
    apply IH.
Qed.

Lemma for_each_map {A B} (g : A -> B) xs body s :
  for_each (map g xs) body s = for_each xs (fun x => body (g x)) s.
Proof.
  revert s. induction xs as [|x t IH]; intros s.
  - reflexivity.
  - cbn [map for_each]. unfold bind.
    destruct (body (g x) s) as [[[]|e] s1]; [apply IH|reflexivity].
Qed.

(** The nested loops of lines 222 to 226 are one loop over the paths. *)
Lemma nested_loops_flatten env uid gid items s :
  for_each items
    (fun '(dirpath, _, fnames) =>
       os_chown_nofollow env dirpath uid gid ;;
       for_each fnames
         (fun filename =>
            os_chown_nofollow env (PosixPath.join dirpath filename) uid gid))
    s
  = chown_all env uid gid (chown_paths items) s.
Proof.
  revert s. induction items as [|[[d dn] fns] rest IH]; intros s.
  - reflexivity.
  - unfold chown_all. cbn [for_each chown_paths flat_map].
    fold (chown_paths rest). cbn [app for_each].
    unfold chown_all in IH. unfold bind.
    destruct (os_chown_nofollow env d uid gid s) as [[[]|e] s1];
      [|reflexivity].
    rewrite for_each_app. unfold bind. rewrite for_each_map.
    destruct (for_each fns _ s1) as [[[]|e] s2]; [|reflexivity].
    apply IH.
Qed.

Lemma chown_meta_idempotent uid gid m :
  chown_meta uid gid (chown_meta uid gid m) = chown_meta uid gid m.
Proof.
  unfold chown_meta. cbn.
  destruct (Z.eqb uid (-1)) eqn:Eu, (Z.eqb gid (-1)) eqn:Eg;
    rewrite ?Eu, ?Eg; reflexivity.
Qed.

(** One [chown] that goes through. *)
Lemma chown_step env p uid gid s s' :
  os_chown_nofollow env p uid gid s = (Ret tt, s') ->
  exists l,
    namei (fs s) (cwd s) p = Some l
    /\ s' = State (chown_at uid gid (fs s) l) (cwd s)
              (log s ++ [EvChown p uid gid]).
Proof.
  unfold_calls. cbn.
  destruct (namei (fs s) (cwd s) p) as [l|]; [|discriminate].
  destruct (lookup (fs s) l) as [n|]; [|discriminate].
  destruct (chown_permitted env (node_meta n) uid gid); [|discriminate].
  intros [= <-]. now exists l.
Qed.

(** The tree keeps its shape under [chown]. *)
Definition same_shape (f0 f : node) : Prop :=
  (forall q, dir_at f q = dir_at f0 q)
  /\ (forall q, exists_at f q = exists_at f0 q).

Lemma same_shape_refl f : same_shape f f.
Proof. now split. Qed.

Lemma same_shape_chown f0 f uid gid l :
  same_shape f0 f -> same_shape f0 (chown_at uid gid f l).
Proof.
  intros [Hd He]. unfold chown_at. split; intros q.
  - rewrite dir_at_alter_meta by apply chown_node_meta_only. apply Hd.
  - rewrite exists_at_alter_meta by apply chown_node_meta_only. apply He.
Qed.

Lemma names_same_shape f0 f c p l :
  same_shape f0 f -> names f0 c p l -> names f c p l.
Proof.
  intros [Hd He] [Hn Hx]. split.
  - now rewrite (namei_same_dirs f f0 c p Hd).
  - now rewrite He.
Qed.

(** A loop over paths that goes through did [chown] at the locations
    the paths name, in order. *)
Lemma chown_all_run env uid gid f0 c ps ls :
  Forall2 (names f0 c) ps ls ->
  forall s s',
    cwd s = c -> same_shape f0 (fs s) ->
    chown_all env uid gid ps s = (Ret tt, s') ->
    fs s' = fold_left (chown_at uid gid) ls (fs s)
    /\ cwd s' = c
    /\ log s' = log s ++ map (fun p => EvChown p uid gid) ps.
Proof.
  unfold chown_all.
  induction 1 as [|p l ps ls Hpl _ IH]; intros s s' Hc Hs H.
  - cbn in H. injection H as <-. now rewrite app_nil_r.
  - cbn [for_each] in H. unfold bind in H.
    destruct (os_chown_nofollow env p uid gid s) as [[[]|e] s1] eqn:E;
      [|discriminate].
    apply chown_step in E as (l' & Hn & ->).
    destruct (names_same_shape f0 (fs s) c p l Hs Hpl) as [Hn' _].
    rewrite Hc, Hn' in Hn. injection Hn as <-.
    apply IH in H; [|exact Hc|now apply same_shape_chown].
    cbn [fs cwd log] in H. destruct H as (H1 & H2 & H3).
    cbn [fold_left map]. rewrite H1, H2, H3, <- app_assoc. auto.
Qed.

(** The metadata of an entry after [chown] at a list of locations. *)
Lemma meta_at_chown_at uid gid f l q :
  meta_at (chown_at uid gid f l) q
  = option_map (fun m => if list_eq_dec string_dec q l
                         then chown_meta uid gid m else m)
               (meta_at f q).
Proof. apply (meta_at_alter_meta (chown_meta uid gid)). Qed.

Lemma meta_at_fold_chown uid gid ls : forall f q,
  meta_at (fold_left (chown_at uid gid) ls f) q
  = option_map (fun m => if in_dec (list_eq_dec string_dec) q ls
                         then chown_meta uid gid m else m)
               (meta_at f q).
Proof.
  induction ls as [|l t IH]; intros f q; cbn [fold_left].
  - now destruct (meta_at f q).
  - rewrite IH, meta_at_chown_at.
    destruct (meta_at f q) as [m|]; [|reflexivity]. cbn [option_map]. f_equal.
    destruct (list_eq_dec string_dec q l) as [->|Hne].
    + destruct (in_dec (list_eq_dec string_dec) l (l :: t)) as [_|Hn];
        [|exfalso; apply Hn; now left].
      destruct (in_dec (list_eq_dec string_dec) l t);
        [apply chown_meta_idempotent|reflexivity].
    + destruct (in_dec (list_eq_dec string_dec) q t) as [Hi|Hi];
        destruct (in_dec (list_eq_dec string_dec) q (l :: t)) as [Hj|Hj];
        try reflexivity.
      * exfalso. apply Hj. now right.
      * exfalso. destruct Hj as [->|Hj]; [now apply Hne|now apply Hi].
Qed.

(** ** What the walk reaches *)

(** The entries the loop hands to [chown]: directories, and what
    [DirEntry.is_dir()] does not take for a directory (files, links
    that do not lead to a directory). *)
Definition visited (x : node) : Prop :=
  is_real_dir x = true \/ stat_is_dir x = false.

Lemma in_targets_entries here k v es l :
  In (k, v) es -> In l (targets (here ++ [k]) v) ->
  In l (targets_entries here es).
Proof.
  induction es as [|[k' v'] t IH]; [contradiction|].
  intros Hin Hl.
  change (targets_entries here ((k', v') :: t))
    with (targets (here ++ [k']) v' ++ targets_entries here t).
  apply in_or_app. destruct Hin as [[= -> ->]|Hin]; [now left|].
  right. now apply IH.
Qed.

Lemma targets_dir here m es :
  targets here (Dir m es)
  = here :: map (fun k => here ++ [k]) (filenames es)
      ++ targets_entries here es.
Proof. reflexivity. Qed.

(** Everything below the root that is [visited] is a target. *)
Lemma targets_cover q : forall n here x,
  is_real_dir n = true ->
  lookup n q = Some x -> visited x ->
  In (here ++ q) (targets here n).
Proof.
  induction q as [|k r IH]; intros n here x Hn Hl Hv.
  - destruct n as [m d|m b|m es]; try discriminate.
    rewrite targets_dir, app_nil_r. now left.
  - destruct n as [m d|m b|m es]; try discriminate.
    cbn [lookup] in Hl.
    destruct (assoc k es) as [child|] eqn:Hk; [|discriminate].
    apply assoc_in in Hk. rewrite targets_dir. right. apply in_or_app.
    destruct (is_real_dir child) eqn:Hc.
    + right. apply (in_targets_entries here k child es); [assumption|].
      replace (here ++ k :: r) with ((here ++ [k]) ++ r)
        by now rewrite <- app_assoc.
      now apply (IH child (here ++ [k]) x).
    + left. destruct r as [|k' r'].
      * cbn in Hl. injection Hl as <-. apply in_map_iff. exists k.
        split; [reflexivity|]. apply in_filenames. exists child.
        split; [assumption|]. destruct Hv as [Hv|Hv]; [congruence|exact Hv].
      * destruct child; discriminate.
Qed.

(** Every target is an entry below the root that is [visited]. *)
Lemma targets_sound n :
  forall here l,
    wf_node n = true -> In l (targets here n) ->
    exists q x, l = here ++ q /\ lookup n q = Some x /\ visited x.
Proof.
  induction n using node_entries_ind
    with (Q := fun es =>
                 forall here l,
                   wf_entries es = true ->
                   In l (targets_entries here es) ->
                   exists k v q x,
                     In (k, v) es /\ l = (here ++ [k]) ++ q
                     /\ lookup v q = Some x /\ visited x).
  - intros here l _ [].
  - intros here l _ [].
  - intros here l Hwf Hin. rewrite targets_dir in Hin.
    destruct Hin as [<-|Hin].
    { exists [], (Dir m es). rewrite app_nil_r. repeat split. now left. }
    apply in_app_or in Hin as [Hin|Hin].
    + apply in_map_iff in Hin as (k & <- & Hk).
      apply in_filenames in Hk as (v & Hkv & Hs).
      exists [k], v. split; [reflexivity|]. split; [|now right].
      cbn. now rewrite (in_assoc_unique k v es Hwf Hkv).
    + destruct (IHn here l Hwf Hin) as (k & v & q & x & Hkv & -> & Hl & Hv).
      exists (k :: q), x. split; [now rewrite <- app_assoc|].
      split; [|exact Hv]. cbn.
      now rewrite (in_assoc_unique k v es Hwf Hkv).
  - intros here l _ [].
  - intros here l Hwf Hin.
    apply wf_entries_cons in Hwf as (_ & _ & Hwv & Hwt).
    change (targets_entries here ((k, n) :: t))
      with (targets (here ++ [k]) n ++ targets_entries here t) in Hin.
    apply in_app_or in Hin as [Hin|Hin].
    + destruct (IHn (here ++ [k]) l Hwv Hin) as (q & x & -> & Hl & Hv).
      exists k, n, q, x. repeat split; try assumption. now left.
    + destruct (IHn0 here l Hwt Hin) as (k' & v' & q & x & Hkv & -> & Hl & Hv).
      exists k', v', q, x. repeat split; try assumption. now right.
Qed.



(** ** The ownership walk (lines 218 to 226) *)

(** A walk that goes through did [chown] at the targets, in order. *)
Lemma chown_loop_run env uid gid f c lg top here n s' :
  namei f c top = Some here ->
  lookup f here = Some n ->
  wf_node n = true ->
  chown_loop env top uid gid (State f c lg) = (Ret tt, s') ->
  fs s' = fold_left (chown_at uid gid) (targets here n) f
  /\ cwd s' = c
  /\ log s' = lg ++ EvWalk top
                 :: map (fun p => EvChown p uid gid)
                      (chown_paths (walk_node top n)).
Proof.
  intros Hn Hl Hwf H.
  unfold chown_loop, os_walk in H.
  unfold bind at 1 in H. unfold bind at 1 in H.
  unfold emit at 1 in H. cbn [fs cwd log] in H.
  unfold bind at 1 in H. unfold get_fs at 1 in H. cbn [fs] in H.
  unfold bind at 1 in H. unfold get_cwd at 1 in H. cbn [cwd ret] in H.
  rewrite Hn, Hl in H. rewrite nested_loops_flatten in H.
  pose proof (walk_names f c n top here Hwf Hn Hl) as Hnames.
  destruct (chown_all_run env uid gid f c _ _ Hnames
              (State f c (lg ++ [EvWalk top])) s'
              eq_refl (same_shape_refl f) H) as (H1 & H2 & H3).
  cbn [fs log] in H1, H3. rewrite H3, <- app_assoc. auto.
Qed.





(** C7: what the ownership walk does to each entry below the
    destination root, when it runs to its end over a well-formed tree.
    Every directory (the root included), every regular file and every
    symbolic link that does not lead to a directory gets the two ids
    itself, [-1] leaving an id as it was.  A symbolic link that leads
    to a directory does not: it is listed in [dirnames], which the loop
    ignores, and [os.walk] does not descend into it, so that no [chown]
    ever names it and it keeps the owner and group it had. *)
Theorem walk_changes_all_but_links_to_directories
    env uid gid f c lg top here n s' :
  namei f c top = Some here ->
  lookup f here = Some n ->
  is_real_dir n = true ->
  wf_node n = true ->
  chown_loop env top uid gid (State f c lg) = (Ret tt, s') ->
  forall q x,
    lookup n q = Some x ->
    meta_at (fs s') (here ++ q)
    = Some (match x with
            | Symlink m true => m
            | _ => chown_meta uid gid (node_meta x)
            end).
Proof.
  intros Hn Hl Hd Hwf H q x Hq.
  destruct (chown_loop_run _ _ _ _ _ _ _ _ _ _ Hn Hl Hwf H) as (-> & _ & _).
  rewrite meta_at_fold_chown.
  assert (Hm : meta_at f (here ++ q) = Some (node_meta x)).
  { unfold meta_at. now rewrite lookup_app, Hl, Hq. }
  rewrite Hm. cbn [option_map].
  destruct (in_dec (list_eq_dec string_dec) (here ++ q) (targets here n))
    as [Hin|Hnot].
  - apply (targets_sound n here _ Hwf) in Hin.
    destruct Hin as (q' & x' & E & Hq' & Hv).
    apply app_inv_head in E. subst q'. rewrite Hq in Hq'.
    injection Hq' as <-.
    destruct x as [m d|m [|]|m es]; try reflexivity.
    destruct Hv as [Hv|Hv]; discriminate.
  - destruct x as [m d|m [|]|m es]; try reflexivity;
      exfalso; apply Hnot;
      apply (targets_cover q n here _ Hd Hq); unfold visited; cbn; auto.
Qed.

(** The walk on the concrete host, after the archive was unpacked:
    [deploy] (uid 2000) is to own [/work/pkg-2.3]. *)
Module HostWalk.

Definition root : loc := ["work"; "pkg-2.3"].

Definition unpacked : state := State Host.disk_unpacked root [].

Definition walked : state :=
  Eval vm_compute in
    snd (chown_loop Host.env "/work/pkg-2.3" 2000 (-1) unpacked).

Lemma host_walk_run :
  chown_loop Host.env "/work/pkg-2.3" 2000 (-1) unpacked = (Ret tt, walked).
Proof. vm_compute. reflexivity. Qed.

End HostWalk.




(** The instance of C7 on the concrete host: [usr/lib64], a link to a
    directory, keeps uid 1000 while [usr/current], a link to a file,
    and the directory [usr/bin] get uid 2000. *)
Lemma walk_changes_all_but_links_to_directories_witness :
  meta_at (fs HostWalk.walked) (HostWalk.root ++ ["usr"; "lib64"])
  = Some (Meta 1000 1000 false)
  /\ meta_at (fs HostWalk.walked) (HostWalk.root ++ ["usr"; "current"])
     = Some (Meta 2000 1000 false)
  /\ meta_at (fs HostWalk.walked) (HostWalk.root ++ ["usr"; "bin"])
     = Some (Meta 2000 1000 false).
Proof.
  pose proof (walk_changes_all_but_links_to_directories
                Host.env 2000 (-1) Host.disk_unpacked HostWalk.root []
                "/work/pkg-2.3" HostWalk.root
                (Dir Host.root_owned Host.payload) HostWalk.walked
                eq_refl eq_refl eq_refl eq_refl HostWalk.host_walk_run) as H.
  split; [|split].
  - exact (H ["usr"; "lib64"] (Symlink Host.build_owned true) eq_refl).
  - exact (H ["usr"; "current"] (Symlink Host.build_owned false) eq_refl).
  - exact (H ["usr"; "bin"]
             (Dir Host.build_owned [("tool", File Host.build_owned "ELF")])
             eq_refl).
Defined.

(** ** The ownership phase within a run *)

Lemma log_bind_exit {A} (c : M A) kw s :
  log (snd ((c ;; @exit_json unit kw) s)) = log (snd (c s)).
Proof.
  unfold bind. now destruct (c s) as [[a|e] s1].
Qed.

(** A run in which the pipeline exited with status 0 goes on with the
    ownership phase, started in the destination directory right after
    the pipeline. *)
Lemma run_reaches_ownership env params f c cmd :
  In (EvPopen cmd 0) (log (snd (invoke env params false f c))) ->
  exists w sA before,
    workdir env params f c = Some w
    /\ dir_at (fs sA) (cwd sA) = true
    /\ log sA = before ++ [EvPopen cmd 0]
    /\ forallb (fun e => negb (is_ownership_call e)) (log sA) = true
    /\ invoke env params false f c
       = (normalize env (p_owner params) (p_group params)
            (PosixPath.join (render w) (final_dest env params)) ;;
          exit_json (dict_set "changed" (VBool true)
                       (prepared_result env params))) sA.
Proof.
  unfold invoke, start. intros Hin.
  destruct (workdir env params f c) as [w|] eqn:Hw.
  2:{ destruct (workdir_refused env params false f c [] Hw) as [e He].
      rewrite He in Hin. cbn in Hin. intuition discriminate. }
  rewrite (workdir_entered _ _ _ _ _ _ _ Hw) in *. cbn [app] in *.
  pose proof (entry_log_quiet env params (fun e => negb (is_popen e))
                (fun _ => eq_refl) eq_refl) as Hq1.
  pose proof (entry_log_quiet env params
                (fun e => negb (is_ownership_call e))
                (fun _ => eq_refl) eq_refl) as Hq2.
  set (d := path_isdir f w (final_dest env params)) in *.
  destruct (d && negb (p_force params)) eqn:Hnoop.
  { exfalso. apply andb_prop in Hnoop as [Hd Hf].
    apply negb_true_iff in Hf.
    rewrite (decide_present_no_force _ _ _ _ _ _ Hd Hf) in Hin.
    cbn [snd log] in Hin. apply in_app_or in Hin as [Hin|Hin].
    - now apply popen_in_quiet_log in Hin.
    - cbn in Hin. intuition discriminate. }
  rewrite (decide_reaches_unpack _ _ _ _ _ _ Hnoop) in *. fold d in Hin |- *.
  set (l1 := entry_log env params
               ++ EvIsdir (final_dest env params)
                  :: (if d then [EvRmtree (final_dest env params)] else []))
    in *.
  assert (Hl1 : forallb (fun e => negb (is_popen e)) l1 = true).
  { unfold l1. rewrite forallb_app, Hq1. now destruct d. }
  assert (Hl1' : forallb (fun e => negb (is_ownership_call e)) l1 = true).
  { unfold l1. rewrite forallb_app, Hq2. now destruct d. }
  set (s0 := State _ w l1) in *.
  unfold bind at 1 in Hin. unfold bind at 1.
  destruct (unpack env _ _ _ s0) as [r sA] eqn:Hu.
  apply unpack_inv in Hu.
  destruct Hu as [(e & -> & ->)|[(e & f1 & -> & ->)|(st & f1 & c1 & -> & Hdir & ->)]].
  - exfalso. cbn [snd log] in Hin. apply in_app_or in Hin as [Hin|Hin].
    + now apply popen_in_quiet_log in Hin.
    + cbn in Hin. intuition discriminate.
  - exfalso. cbn [snd log] in Hin. apply in_app_or in Hin as [Hin|Hin].
    + now apply popen_in_quiet_log in Hin.
    + cbn in Hin. intuition discriminate.
  - destruct (Z.eqb st 0) eqn:Hst.
    + apply Z.eqb_eq in Hst. subst st.
      rewrite log_bind_exit in Hin.
      destruct (only_adds_normalize is_ownership_call env
                  (p_owner params) (p_group params)
                  (PosixPath.join (render w) (final_dest env params))
                  (fun e He => He)
                  (State f1 c1
                     (l1 ++ [EvMkdir (final_dest env params);
                             EvChdir (final_dest env params);
                             EvPopen (extract_cmd (resolved_src env params)) 0])))
        as (added & Ha & Hf).
      rewrite Ha in Hin. cbn [log] in Hin.
      assert (Hc : cmd = extract_cmd (resolved_src env params)).
      { apply in_app_or in Hin as [Hin|Hin].
        - apply in_app_or in Hin as [Hin|Hin].
          + now apply popen_in_quiet_log in Hin.
          + cbn in Hin. destruct Hin as [Hin|[Hin|[Hin|[]]]];
              try discriminate. now injection Hin.
        - rewrite forallb_forall in Hf. apply Hf in Hin. discriminate. }
      subst cmd.
      exists w, (State f1 c1
                   (l1 ++ [EvMkdir (final_dest env params);
                           EvChdir (final_dest env params);
                           EvPopen (extract_cmd (resolved_src env params)) 0])),
        (l1 ++ [EvMkdir (final_dest env params);
                EvChdir (final_dest env params)]).
      cbn [fs cwd log]. repeat split; try assumption.
      * now rewrite <- app_assoc.
      * now rewrite forallb_app, Hl1'.
    + exfalso. apply Z.eqb_neq in Hst. cbn [snd log] in Hin.
      apply in_app_or in Hin as [Hin|Hin].
      * now apply popen_in_quiet_log in Hin.
      * cbn in Hin. destruct Hin as [Hin|[Hin|[Hin|[]]]]; try discriminate.
        injection Hin as _ ->. congruence.
Qed.

Definition bare_output (msg : string) : dict :=
  [("failed", VBool true); ("msg", VStr msg)].

Lemma chown_logs env p uid gid s :
  log (snd (os_chown_nofollow env p uid gid s))
  = log s ++ [EvChown p uid gid].
Proof. unfold_calls. cbn. case_split; reflexivity. Qed.

(** A loop over paths that is cut short ends with the [chown] that
    raised. *)
Lemma chown_all_raises env uid gid ps : forall s e s',
  chown_all env uid gid ps s = (Raise e, s') ->
  exists before p, log s' = before ++ [EvChown p uid gid].
Proof.
  unfold chown_all. induction ps as [|p t IH]; intros s e s' H.
  - discriminate.
  - cbn [for_each] in H. unfold bind in H.
    pose proof (chown_logs env p uid gid s) as Hlog.
    destruct (os_chown_nofollow env p uid gid s) as [[[]|e1] s1].
    + now apply IH in H.
    + injection H as _ <-. cbn [snd] in Hlog. eauto.
Qed.

Lemma chown_loop_raises env rd uid gid s e s' :
  chown_loop env rd uid gid s = (Raise e, s') ->
  exists before p, log s' = before ++ [EvChown p uid gid].
Proof.
  unfold chown_loop. unfold bind at 1.
  destruct (os_walk rd s) as [[items|e0] s1] eqn:Hw.
  - rewrite nested_loops_flatten. apply chown_all_raises.
  - unfold os_walk, bind, emit, get_fs, get_cwd, ret in Hw. discriminate.
Qed.

(** The ways the ownership phase can end. *)
Lemma normalize_inv env owner group rd s r s' :
  normalize env owner group rd s = (r, s') ->
  (r = Raise (SystemExit 1 (bare_output (msg_owner (str_of owner))))
   /\ s' = State (fs s) (cwd s) (log s ++ [EvGetpwnam (str_of owner)]))
  \/ (r = Raise (SystemExit 1 (bare_output (msg_group (str_of group))))
      /\ fs s' = fs s
      /\ exists before, log s' = before ++ [EvGetgrnam (str_of group)])
  \/ (r = Raise (SystemExit 1 (bare_output (msg_chown rd)))
      /\ exists before p uid gid, log s' = before ++ [EvChown p uid gid])
  \/ (exists e p, r = Raise (OSError e p))
  \/ r = Ret tt.
Proof.
  unfold normalize. unfold bind at 1.
  destruct (PyStr.truthy owner) eqn:Ho.
  - unfold try_except at 1, pwd_getpwnam_uid at 1.
    unfold bind at 1, emit at 1. cbn [fs cwd log].
    destruct (passwd env (str_of owner)) as [uid|] eqn:Hp.
    2:{ cbn. intros [= <- <-]. left. auto. }
    cbn [ret]. unfold bind at 1.
    destruct (PyStr.truthy group) eqn:Hg.
    + unfold try_except at 1, grp_getgrnam_gid at 1.
      unfold bind at 1, emit at 1. cbn [fs cwd log].
      destruct (groupdb env (str_of group)) as [gid|] eqn:Hgr.
      2:{ cbn. intros [= <- <-]. right. left. cbn. eauto. }
      cbn [ret orb]. unfold try_except.
      destruct (chown_loop env rd uid gid _) as [[[]|e] s1] eqn:Hl.
      * intros [= <- <-]. auto.
      * pose proof (raises_only_chown_loop _ _ _ _ _ _ _ Hl) as He.
        destruct e as [k|er p|st out]; try contradiction.
        destruct (is_PermissionError (OSError er p)).
        -- intros [= <- <-]. right. right. left. split; [reflexivity|].
           apply chown_loop_raises in Hl as (b & q & Hb). eauto.
        -- intros [= <- <-]. right. right. right. left. eauto.
    + cbn [ret orb]. unfold try_except.
      destruct (chown_loop env rd uid (-1) _) as [[[]|e] s1] eqn:Hl.
      * intros [= <- <-]. auto.
      * pose proof (raises_only_chown_loop _ _ _ _ _ _ _ Hl) as He.
        destruct e as [k|er p|st out]; try contradiction.
        destruct (is_PermissionError (OSError er p)).
        -- intros [= <- <-]. right. right. left. split; [reflexivity|].
           apply chown_loop_raises in Hl as (b & q & Hb). eauto.
        -- intros [= <- <-]. right. right. right. left. eauto.
  - cbn [ret]. unfold bind at 1.
    destruct (PyStr.truthy group) eqn:Hg.
    + unfold try_except at 1, grp_getgrnam_gid at 1.
      unfold bind at 1, emit at 1. cbn [fs cwd log].
      destruct (groupdb env (str_of group)) as [gid|] eqn:Hgr.
      2:{ cbn. intros [= <- <-]. right. left. cbn. eauto. }
      cbn [ret orb]. unfold try_except.
      destruct (chown_loop env rd (-1) gid _) as [[[]|e] s1] eqn:Hl.
      * intros [= <- <-]. auto.
      * pose proof (raises_only_chown_loop _ _ _ _ _ _ _ Hl) as He.
        destruct e as [k|er p|st out]; try contradiction.
        destruct (is_PermissionError (OSError er p)).
        -- intros [= <- <-]. right. right. left. split; [reflexivity|].
           apply chown_loop_raises in Hl as (b & q & Hb). eauto.
        -- intros [= <- <-]. right. right. right. left. eauto.
    + cbn. intros [= <- <-]. auto.
Qed.

(** ** Names that the databases do not know *)

Lemma normalize_unknown_owner env owner group rd s :
  PyStr.truthy owner = true ->
  passwd env (str_of owner) = None ->
  normalize env owner group rd s
  = (Raise (SystemExit 1 (bare_output (msg_owner (str_of owner)))),
     State (fs s) (cwd s) (log s ++ [EvGetpwnam (str_of owner)])).
Proof.
  intros Ho Hp. unfold normalize. rewrite Ho.
  unfold bind at 1, try_except, pwd_getpwnam_uid.
  unfold bind, emit. cbn [fs cwd log]. now rewrite Hp.
Qed.

Lemma normalize_unknown_group env owner group rd s :
  PyStr.truthy group = true ->
  groupdb env (str_of group) = None ->
  (PyStr.truthy owner = false
   \/ exists uid, passwd env (str_of owner) = Some uid) ->
  normalize env owner group rd s
  = (Raise (SystemExit 1 (bare_output (msg_group (str_of group)))),
     State (fs s) (cwd s)
       (log s
          ++ (if PyStr.truthy owner then [EvGetpwnam (str_of owner)] else [])
          ++ [EvGetgrnam (str_of group)])).
Proof.
  intros Hg Hgr Ho. unfold normalize. rewrite Hg.
  destruct (PyStr.truthy owner) eqn:Hto.
  - destruct Ho as [Ho|[uid Hp]]; [discriminate|].
    unfold bind at 1, try_except at 1, pwd_getpwnam_uid.
    unfold bind at 1, emit at 1. cbn [fs cwd log]. rewrite Hp. cbn [ret].
    unfold bind at 1, try_except, grp_getgrnam_gid.
    unfold bind, emit. cbn [fs cwd log]. rewrite Hgr.
    cbn. now rewrite <- app_assoc.
  - unfold bind at 1. cbn [ret].
    unfold bind at 1, try_except, grp_getgrnam_gid.
    unfold bind, emit. cbn [fs cwd log]. now rewrite Hgr.
Qed.

Lemma quiet_app_last P (l : list event) e :
  forallb P l = true -> P e = true -> forallb P (l ++ [e]) = true.
Proof. intros H1 H2. rewrite forallb_app, H1. cbn. now rewrite H2. Qed.

(** An owner that the password database does not know, in a run whose
    pipeline succeeded: the run ends in [fail_json] naming the owner.
    The lookup, right after the pipeline, is the last call: the group
    is not looked up, nothing is walked or chowned, and the extracted
    destination is still the directory the process is in. *)
Theorem unknown_owner_keeps_the_extraction env params f c cmd :
  PyStr.truthy (p_owner params) = true ->
  passwd env (str_of (p_owner params)) = None ->
  In (EvPopen cmd 0) (log (snd (invoke env params false f c))) ->
  let final := snd (invoke env params false f c) in
  fst (invoke env params false f c)
  = Raise (SystemExit 1
      [ ("failed", VBool true);
        ("msg", VStr ("owner '" ++ str_of (p_owner params)
                        ++ "' not found in password database")) ])
  /\ (exists before,
        log final
        = before ++ [EvPopen cmd 0; EvGetpwnam (str_of (p_owner params))])
  /\ forallb (fun e => negb (is_walk e || is_chown e)) (log final) = true
  /\ dir_at (fs final) (cwd final) = true.
Proof.
  intros Ho Hp Hin final. subst final.
  destruct (run_reaches_ownership _ _ _ _ _ Hin)
    as (w & sA & before & Hw & Hd & Hl & Hq & ->).
  unfold bind. rewrite (normalize_unknown_owner _ _ _ _ _ Ho Hp).
  cbn [fst snd fs cwd log]. split; [reflexivity|]. split.
  - exists before. now rewrite Hl, <- app_assoc.
  - split; [|assumption].
    apply quiet_app_last; [|reflexivity].
    rewrite forallb_forall in Hq |- *. intros e He.
    specialize (Hq e He). unfold is_ownership_call in Hq.
    destruct (is_walk e), (is_chown e); try reflexivity;
      now rewrite ?orb_true_r in Hq.
Qed.

Lemma unknown_owner_keeps_the_extraction_witness :
  let final := snd (invoke Host.env (Host.with_owner "ghost" Host.request)
                           false Host.disk []) in
  fst (invoke Host.env (Host.with_owner "ghost" Host.request)
              false Host.disk [])
  = Raise (SystemExit 1
      [ ("failed", VBool true);
        ("msg", VStr "owner 'ghost' not found in password database") ])
  /\ dir_at (fs final) (cwd final) = true.
Proof.
  assert (Hin : In (EvPopen (extract_cmd "/srv/pkg-2.3.rpm") 0)
                   (log (snd (invoke Host.env
                                     (Host.with_owner "ghost" Host.request)
                                     false Host.disk [])))).
  { vm_compute. tauto. }
  destruct (unknown_owner_keeps_the_extraction
              Host.env (Host.with_owner "ghost" Host.request) Host.disk []
              (extract_cmd "/srv/pkg-2.3.rpm") eq_refl eq_refl Hin)
    as (H1 & _ & _ & H4).
  split; [exact H1|exact H4].
Defined.

(** A group that the group database does not know, the owner being
    absent or known: the run ends in [fail_json] naming the group,
    after the lookups and without any [chown], the extraction staying
    in place. *)
Theorem unknown_group_keeps_the_extraction env params f c cmd :
  PyStr.truthy (p_group params) = true ->
  groupdb env (str_of (p_group params)) = None ->
  (PyStr.truthy (p_owner params) = false
   \/ exists uid, passwd env (str_of (p_owner params)) = Some uid) ->
  In (EvPopen cmd 0) (log (snd (invoke env params false f c))) ->
  let final := snd (invoke env params false f c) in
  fst (invoke env params false f c)
  = Raise (SystemExit 1
      [ ("failed", VBool true);
        ("msg", VStr ("group '" ++ str_of (p_group params)
                        ++ "' not found in group database")) ])
  /\ (exists before,
        log final = before ++ [EvGetgrnam (str_of (p_group params))])
  /\ forallb (fun e => negb (is_walk e || is_chown e)) (log final) = true
  /\ dir_at (fs final) (cwd final) = true.
Proof.
  intros Hg Hgr Ho Hin final. subst final.
  destruct (run_reaches_ownership _ _ _ _ _ Hin)
    as (w & sA & before & Hw & Hd & Hl & Hq & ->).
  unfold bind. rewrite (normalize_unknown_group _ _ _ _ _ Hg Hgr Ho).
  cbn [fst snd fs cwd log]. split; [reflexivity|]. split.
  - eexists. now rewrite app_assoc.
  - split; [|assumption].
    assert (Hq' : forallb (fun e => negb (is_walk e || is_chown e)) (log sA)
                  = true).
    { rewrite forallb_forall in Hq |- *. intros e He.
      specialize (Hq e He). unfold is_ownership_call in Hq.
      destruct (is_walk e), (is_chown e); try reflexivity;
        now rewrite ?orb_true_r in Hq. }
    rewrite !forallb_app, Hq'.
    now destruct (PyStr.truthy (p_owner params)).
Qed.

Lemma unknown_group_keeps_the_extraction_witness :
  let final := snd (invoke Host.env
                           (Host.with_group "ghosts"
                              (Host.with_owner "deploy" Host.request))
                           false Host.disk []) in
  fst (invoke Host.env
              (Host.with_group "ghosts" (Host.with_owner "deploy" Host.request))
              false Host.disk [])
  = Raise (SystemExit 1
      [ ("failed", VBool true);
        ("msg", VStr "group 'ghosts' not found in group database") ])
  /\ dir_at (fs final) (cwd final) = true.
Proof.
  assert (Hin : In (EvPopen (extract_cmd "/srv/pkg-2.3.rpm") 0)
                   (log (snd (invoke Host.env
                                     (Host.with_group "ghosts"
                                        (Host.with_owner "deploy" Host.request))
                                     false Host.disk [])))).
  { vm_compute. tauto. }
  destruct (unknown_group_keeps_the_extraction
              Host.env
              (Host.with_group "ghosts" (Host.with_owner "deploy" Host.request))
              Host.disk [] (extract_cmd "/srv/pkg-2.3.rpm")
              eq_refl eq_refl (or_intror (ex_intro _ 2000%Z eq_refl)) Hin)
    as (H1 & _ & _ & H4).
  split; [exact H1|exact H4].
Defined.

(** ** A [chown] that is refused *)

Lemma snoc_three {A} (l : list A) a b c :
  l ++ [a; b; c] = (l ++ [a; b]) ++ [c].
Proof. now rewrite <- app_assoc. Qed.

Lemma last_event_eq (a b : list event) x y :
  a ++ [x] = b ++ [y] -> x = y.
Proof. intros H. now apply app_inj_tail in H. Qed.

(** When a [chown] is refused, whichever entry it was for, the message
    of [fail_json] carries the path of the destination root, the
    [result_dir] of line 161, and the output echoes nothing. *)
Theorem refused_chown_reports_the_destination_root
    env params f c out s' before p uid gid :
  invoke env params false f c = (Raise (SystemExit 1 out), s') ->
  log s' = before ++ [EvChown p uid gid] ->
  exists w,
    workdir env params f c = Some w
    /\ out = [ ("failed", VBool true);
               ("msg", VStr ("failed to change permissions for path: "
                             ++ PosixPath.join (render w)
                                  (final_dest env params)
                             ++ " [operation not permitted]")) ].
Proof.
  intros H Hlast.
  assert (Hin : exists cmd,
             In (EvPopen cmd 0) (log (snd (invoke env params false f c)))).
  { unfold invoke, start in *.
    destruct (workdir env params f c) as [w|] eqn:Hw.
    2:{ destruct (workdir_refused env params false f c [] Hw) as [e He].
        rewrite He in H. discriminate. }
    rewrite (workdir_entered _ _ _ _ _ _ _ Hw) in *.
    pose proof H as H0. apply decide_real_inv in H0. cbv zeta in H0.
    rewrite H. cbn [snd].
    destruct H0 as [(_ & _ & [=] & _)|(_ & H0)].
    destruct H0 as [(e & [=] & _)|[(st & _ & _ & Hl & _)|(added & Hl & _)]].
    - exfalso. rewrite Hl, snoc_three in Hlast.
      apply last_event_eq in Hlast. discriminate.
    - eexists. rewrite Hl. apply in_or_app. right. apply in_or_app. left.
      cbn. eauto. }
  destruct Hin as [cmd Hin].
  destruct (run_reaches_ownership _ _ _ _ _ Hin)
    as (w & sA & b & Hw & _ & Hb & _ & E).
  exists w. split; [assumption|].
  rewrite E in H. unfold bind in H.
  destruct (normalize _ _ _ _ sA) as [r s1] eqn:Hn.
  apply normalize_inv in Hn.
  destruct Hn as [[Hr Hs]|[[Hr [_ [b1 Hl]]]|[[Hr _]|[[e [q Hr]]|Hr]]]];
    subst r.
  - exfalso. subst s1. injection H as _ <-. cbn [log] in Hlast.
    apply last_event_eq in Hlast. discriminate.
  - exfalso. injection H as _ <-. rewrite Hl in Hlast.
    apply last_event_eq in Hlast. discriminate.
  - now injection H as <- _.
  - discriminate.
  - unfold exit_json, raise in H. discriminate.
Qed.

(** A host whose archive holds a file of another user: the process,
    member of the group [staff], may give its own entries to that
    group, not the foreign file. *)
Module HostMixed.

Definition payload : entries_t :=
  [ ("usr",
     Dir Host.build_owned
       [ ("README", File Host.build_owned "read me");
         ("su", File Host.root_owned "setuid") ]) ].

Definition env : Env := {|
  expanduser := fun path => path;
  pipeline := fun _ _ _ => (payload, "usr/README", 0%Z);
  passwd := passwd Host.env;
  groupdb := groupdb Host.env;
  euid := 1000;
  egid := 1000;
  egroups := [50%Z];
  may_write := fun m => Z.eqb (st_uid m) 1000
|}.

Definition request : Params := Host.with_group "staff" Host.request.

Definition final : state :=
  Eval vm_compute in snd (invoke env request false Host.disk_writable []).

Lemma host_mixed_run :
  invoke env request false Host.disk_writable []
  = (Raise (SystemExit 1
       [ ("failed", VBool true);
         ("msg", VStr ("failed to change permissions for path: "
                       ++ "/work/pkg-2.3 [operation not permitted]")) ]),
     final).
Proof. vm_compute. reflexivity. Qed.

Lemma host_mixed_last_call :
  log final
  = [ EvChdir "/work"; EvGetcwd; EvIsdir "pkg-2.3"; EvMkdir "pkg-2.3";
      EvChdir "pkg-2.3"; EvPopen (extract_cmd "/srv/pkg-2.3.rpm") 0;
      EvGetgrnam "staff"; EvWalk "/work/pkg-2.3";
      EvChown "/work/pkg-2.3" (-1) 50;
      EvChown "/work/pkg-2.3/usr" (-1) 50;
      EvChown "/work/pkg-2.3/usr/README" (-1) 50 ]
    ++ [EvChown "/work/pkg-2.3/usr/su" (-1) 50].
Proof. vm_compute. reflexivity. Qed.

End HostMixed.

(** The refused entry is [/work/pkg-2.3/usr/su]; the message names
    [/work/pkg-2.3]. *)
Lemma refused_chown_reports_the_destination_root_witness :
  exists w,
    workdir HostMixed.env HostMixed.request Host.disk_writable [] = Some w
    /\ [ ("failed", VBool true);
         ("msg", VStr ("failed to change permissions for path: "
                       ++ "/work/pkg-2.3 [operation not permitted]")) ]
       = [ ("failed", VBool true);
           ("msg", VStr ("failed to change permissions for path: "
                         ++ PosixPath.join (render w)
                              (final_dest HostMixed.env HostMixed.request)
                         ++ " [operation not permitted]")) ].
Proof.
  exact (refused_chown_reports_the_destination_root
           HostMixed.env HostMixed.request Host.disk_writable [] _
           HostMixed.final _ "/work/pkg-2.3/usr/su" (-1) 50
           HostMixed.host_mixed_run HostMixed.host_mixed_last_call).
Defined.

(** ** Edge cases of the request *)

Lemma slice_to_neg_short n s :
  String.length s <= n -> PyStr.slice_to_neg n s = EmptyString.
Proof.
  intros H. unfold PyStr.slice_to_neg.
  replace (String.length s - n) with 0 by lia. now destruct s.
Qed.

(** A source path of at most four characters and no destination name:
    the default destination is the empty string.  Check mode still
    predicts a change; the real run ends in the uncaught error of
    [os.mkdir("")] (no such file or directory), nothing being created. *)
Theorem short_source_gives_empty_destination env params f c w :
  PyStr.truthy (p_dest params) = false ->
  String.length (resolved_src env params) <= 4 ->
  workdir env params f c = Some w ->
  final_dest env params = EmptyString
  /\ invoke env params true f c
     = (Raise (SystemExit 0
          (dict_set "changed" (VBool true) (prepared_result env params))),
        State f w (entry_log env params ++ [EvIsdir ""]))
  /\ invoke env params false f c
     = (Raise (OSError ENOENT ""),
        State f w (entry_log env params ++ [EvIsdir ""; EvMkdir ""])).
Proof.
  intros Hd Hlen Hw.
  assert (Hf : final_dest env params = EmptyString).
  { unfold final_dest, resolved_dest. rewrite Hd. cbn.
    unfold default_dest. now rewrite slice_to_neg_short. }
  split; [exact Hf|]. split.
  - rewrite (check_mode_run _ _ _ _ _ Hw). now rewrite Hf.
  - unfold invoke, start.
    rewrite (workdir_entered _ _ _ _ _ _ _ Hw).
    rewrite decide_reaches_unpack by now rewrite Hf.
    rewrite Hf. cbn [app path_isdir namei String.eqb].
    unfold unpack, os_mkdir, bind, emit, get_fs, get_cwd, raise.
    cbn [fs cwd log namei String.eqb]. now rewrite <- app_assoc.
Qed.

Lemma short_source_gives_empty_destination_witness :
  final_dest Host.env (Host.with_src "x" Host.request) = EmptyString
  /\ fst (invoke Host.env (Host.with_src "x" Host.request)
                 false Host.disk [])
     = Raise (OSError ENOENT "").
Proof.
  destruct (short_source_gives_empty_destination
              Host.env (Host.with_src "x" Host.request) Host.disk []
              ["work"] eq_refl (le_S _ _ (le_S _ _ (le_S _ _ (le_n 1))))
              eq_refl)
    as (H1 & _ & H3).
  split; [exact H1|]. exact (f_equal fst H3).
Defined.

Lemma run_without_workdir env params cm f c :
  workdir env params f c = None ->
  invoke env params cm f c
  = (Raise (OSError
              match namei f c (str_of (resolved_chdir env params)) with
              | Some l => if exists_at f l then ENOTDIR else ENOENT
              | None => namei_errno f c (str_of (resolved_chdir env params))
              end
              (str_of (resolved_chdir env params))),
     State f c [EvChdir (str_of (resolved_chdir env params))]).
Proof.
  unfold workdir, invoke, start, run_module, os_chdir, bind, emit,
    get_fs, get_cwd, put_cwd, raise.
  destruct (PyStr.truthy (resolved_chdir env params)); [|discriminate].
  intros Hw. cbn [fs cwd log app].
  destruct (namei f c _) as [l|]; [|reflexivity].
  destruct (dir_at f l); [discriminate|reflexivity].
Qed.








(** ** Where a successful run leaves the process *)

Lemma preserves_normalize I env owner group rd :
  (forall name, preserves I (pwd_getpwnam_uid env name)) ->
  (forall name, preserves I (grp_getgrnam_gid env name)) ->
  preserves I (os_walk rd) ->
  (forall p uid gid, preserves I (os_chown_nofollow env p uid gid)) ->
  preserves I (normalize env owner group rd).
Proof.
  intros Hp Hg Hw Hc. unfold normalize.
  apply preserves_bind; [|intros uid; apply preserves_bind; [|intros gid]].
  - destruct (PyStr.truthy owner); [|apply preserves_ret].
    apply preserves_try; [apply Hp|intros e; apply preserves_raise].
  - destruct (PyStr.truthy group); [|apply preserves_ret].
    apply preserves_try; [apply Hg|intros e; apply preserves_raise].
  - destruct (PyStr.truthy owner || PyStr.truthy group);
      [|apply preserves_ret].
    apply preserves_try; [|intros e; apply preserves_raise].
    unfold chown_loop. apply preserves_bind; [exact Hw|]. intros items.
    apply preserves_for_each. intros [[dirpath dn] fn].
    apply preserves_bind; [apply Hc|]. intros _.
    apply preserves_for_each. intros filename. apply Hc.
Qed.

(** The ownership phase does not move the process. *)
Lemma normalize_keeps_cwd L env owner group rd :
  preserves (fun s => cwd s = L) (normalize env owner group rd).
Proof.
  apply preserves_normalize.
  - intros name s H. unfold_calls. cbn. now destruct (passwd env name).
  - intros name s H. unfold_calls. cbn. now destruct (groupdb env name).
  - intros s H. unfold_calls. now cbn.
  - intros p uid gid s H. unfold_calls. cbn. case_split; exact H.
Qed.

(** A run that reports a change ends with the process inside the
    destination directory: the working directory is changed at line 189
    and never changed back. *)
Theorem changed_run_ends_in_the_destination env params f c out s' :
  invoke env params false f c = (Raise (SystemExit 0 out), s') ->
  dict_get "changed" out = Some (VBool true) ->
  exists w L,
    workdir env params f c = Some w
    /\ namei (if path_isdir f w (final_dest env params)
              then cleared f w (final_dest env params) else f)
             w (final_dest env params) = Some L
    /\ cwd s' = L
    /\ dir_at (fs s') L = true.
Proof.
  intros H Hc.
  destruct (successful_real_run _ _ _ _ _ _ H)
    as (w & Hw & [(_ & _ & ->)|(Hn & ->)]).
  { rewrite prepared_result_changed in Hc. discriminate. }
  exists w. unfold invoke, start in H.
  rewrite (workdir_entered _ _ _ _ _ _ _ Hw) in H.
  rewrite (decide_reaches_unpack _ _ _ _ _ _ Hn) in H.
  set (f0 := if path_isdir f w (final_dest env params)
             then cleared f w (final_dest env params) else f) in *.
  remember (State f0 w _) as s0 eqn:Hs0.
  unfold bind at 1 in H.
  destruct (unpack env _ _ _ s0) as [[[]|e] sA] eqn:Hu.
  2:{ injection H as -> _. subst s0. apply unpack_inv in Hu.
      destruct Hu as [(e' & [=] & _)|[(e' & f1 & [=] & _)|(st & f1 & d & _ & _ & Hr)]].
      destruct (Z.eqb st 0); discriminate. }
  subst s0. apply unpack_ok in Hu.
  destruct Hu as (L & HnL & _ & HcL & _ & HdL).
  exists L. split; [assumption|]. split; [assumption|].
  set (rd := PosixPath.join (render w) (final_dest env params)) in *.
  assert (Hs1 : s' = snd (normalize env (p_owner params) (p_group params)
                            rd sA)).
  { unfold bind in H.
    destruct (normalize _ _ _ _ sA) as [[[]|e] sB]; cbn [snd].
    - unfold exit_json, raise in H. now injection H.
    - now injection H. }
  subst s'. split.
  - now apply (normalize_keeps_cwd L).
  - rewrite (normalize_keeps_dirs (fs sA) env _ _ rd sA (fun l => eq_refl)).
    exact HdL.
Qed.

Lemma changed_run_ends_in_the_destination_witness :
  exists w L,
    workdir Host.env Host.request Host.disk [] = Some w
    /\ namei (if path_isdir Host.disk w (final_dest Host.env Host.request)
              then cleared Host.disk w (final_dest Host.env Host.request)
              else Host.disk)
             w (final_dest Host.env Host.request) = Some L
    /\ cwd (State Host.disk_unpacked ["work"; "pkg-2.3"]
              [ EvChdir "/work"; EvGetcwd; EvIsdir "pkg-2.3";
                EvMkdir "pkg-2.3"; EvChdir "pkg-2.3";
                EvPopen (extract_cmd "/srv/pkg-2.3.rpm") 0 ]) = L
    /\ dir_at Host.disk_unpacked L = true.
Proof.
  exact (changed_run_ends_in_the_destination
           Host.env Host.request Host.disk [] _ _ first_run_on_host eq_refl).
Defined.

(** ** Forced runs (lines 182 to 189) *)

Lemma components_valid_name k :
  valid_name k = true -> components k = [k].
Proof.
  intros Hk. unfold valid_name in Hk.
  apply andb_prop in Hk as [Hk Hs]. apply andb_prop in Hk as [Hk _].
  apply andb_prop in Hk as [H0 H1]. apply negb_true_iff in Hs, H0, H1.
  unfold components. rewrite (split_slash_no_slash k Hs). cbn.
  now rewrite H0, H1.
Qed.

(** A destination that is a single name is looked up in the working
    directory. *)
Lemma namei_valid_name f w k :
  valid_name k = true ->
  namei f w k = if dir_at f w then Some (w ++ [k]) else None.
Proof.
  intros Hk. unfold namei. rewrite (components_valid_name k Hk).
  unfold valid_name in Hk.
  apply andb_prop in Hk as [Hk Hs]. apply andb_prop in Hk as [Hk H2].
  apply andb_prop in Hk as [H0 _]. apply negb_true_iff in H0, H2, Hs.
  rewrite H0.
  assert (Hstart : PyStr.starts_with_slash k = false).
  { destruct k as [|a r]; [reflexivity|]. cbn in *.
    destruct (Ascii.eqb a "/"); [discriminate|reflexivity]. }
  rewrite Hstart. cbn. now rewrite H2.
Qed.

Lemma strip_prefix_longer w k : strip_prefix (w ++ [k]) w = None.
Proof.
  induction w as [|a w' IH]; cbn; [reflexivity|].
  now rewrite String.eqb_refl.
Qed.

Lemma dir_at_parent f w k n :
  lookup f (w ++ [k]) = Some n -> dir_at f w = true.
Proof.
  rewrite lookup_app. unfold dir_at.
  destruct (lookup f w) as [[m d|m b|m es]|]; try discriminate; reflexivity.
Qed.


(** With [force] and a destination, given as a single name (no slash,
    neither ["."] nor [".."]), that [rmtree] cannot remove (a symbolic
    link to a directory, which [rmtree] refuses, or a tree that holds
    something undeletable), the errors of the removal are ignored and
    the run ends in the uncaught error of [os.mkdir]: the file exists.
    Nothing is unpacked. *)
Theorem force_on_unremovable_destination env params f c w n n' :
  p_force params = true ->
  workdir env params f c = Some w ->
  valid_name (final_dest env params) = true ->
  lookup f (w ++ [final_dest env params]) = Some n ->
  stat_is_dir n = true ->
  rmtree_entry (Some n) = Some n' ->
  invoke env params false f c
  = (Raise (OSError EEXIST (final_dest env params)),
     State (alter rmtree_entry (w ++ [final_dest env params]) f) w
       (entry_log env params
          ++ [ EvIsdir (final_dest env params);
               EvRmtree (final_dest env params);
               EvMkdir (final_dest env params) ])).
Proof.
  intros Hf Hw Hk Hl Hs Hr.
  set (dest := final_dest env params) in *.
  pose proof (dir_at_parent _ _ _ _ Hl) as Hdw.
  assert (Hn : namei f w dest = Some (w ++ [dest])).
  { now rewrite (namei_valid_name f w dest Hk), Hdw. }
  assert (Hd : path_isdir f w dest = true).
  { unfold path_isdir. now rewrite Hn, Hl. }
  unfold invoke, start.
  rewrite (workdir_entered _ _ _ _ _ _ _ Hw).
  rewrite decide_reaches_unpack by (fold dest; now rewrite Hd, Hf).
  fold dest. rewrite Hd. unfold cleared.
  rewrite Hn, (rmtree_at_valid_name dest Hk). cbn [app].
  set (f' := alter rmtree_entry (w ++ [dest]) f).
  assert (Hn' : namei f' w dest = Some (w ++ [dest])).
  { rewrite (namei_valid_name f' w dest Hk).
    unfold f'. rewrite dir_at_alter_elsewhere;
      [reflexivity|apply strip_prefix_longer|assumption]. }
  assert (He : exists_at f' (w ++ [dest]) = true).
  { unfold exists_at, f'.
    now rewrite (lookup_alter_here rmtree_entry _ f n n' Hl Hr). }
  unfold unpack, os_mkdir, bind, emit, get_fs, get_cwd, raise.
  cbn [fs cwd log]. rewrite Hn', He. now rewrite <- app_assoc.
Qed.

(** [/work/pkg-2.3] is a symbolic link to a directory. *)
Definition disk_with_link : node :=
  Dir Host.root_owned
    [ ("srv", Dir Host.root_owned
                [("pkg-2.3.rpm", File Host.root_owned "rpm")]);
      ("work", Dir Host.root_owned
                 [("pkg-2.3", Symlink Host.root_owned true)]) ].

Lemma force_on_unremovable_destination_witness :
  invoke Host.env (Host.with_force true Host.request) false disk_with_link []
  = (Raise (OSError EEXIST "pkg-2.3"),
     State disk_with_link ["work"]
       [ EvChdir "/work"; EvGetcwd; EvIsdir "pkg-2.3"; EvRmtree "pkg-2.3";
         EvMkdir "pkg-2.3" ]).
Proof.
  exact (force_on_unremovable_destination
           Host.env (Host.with_force true Host.request) disk_with_link []
           ["work"] (Symlink Host.root_owned true)
           (Symlink Host.root_owned true)
           eq_refl eq_refl eq_refl eq_refl eq_refl eq_refl).
Defined.

(** Nothing in the tree refuses to be removed. *)
(** With [force] and ["."] as destination, the working directory
    itself: [rmtree] empties it as far as it goes, cannot remove ["."],
    and the run ends in the uncaught error of [os.mkdir]: the file
    exists.  What the working directory held and could be removed is
    gone, and nothing is unpacked. *)
Theorem force_on_dot_empties_the_working_directory env params f c w m es :
  p_force params = true ->
  workdir env params f c = Some w ->
  final_dest env params = "." ->
  lookup f w = Some (Dir m es) ->
  invoke env params false f c
  = (Raise (OSError EEXIST "."),
     State (alter rmtree_contents w f) w
       (entry_log env params ++ [EvIsdir "."; EvRmtree "."; EvMkdir "."]))
  /\ lookup (alter rmtree_contents w f) w = Some (Dir m (prune_entries es)).
Proof.
  intros Hf Hw Hdest Hl.
  assert (Hl' : lookup (alter rmtree_contents w f) w
                = Some (Dir m (prune_entries es)))
    by exact (lookup_alter_here rmtree_contents w f _ _ Hl eq_refl).
  split; [|exact Hl'].
  assert (Hn : forall g, namei g w "." = Some w) by reflexivity.
  assert (Hd : path_isdir f w "." = true).
  { unfold path_isdir. now rewrite Hn, Hl. }
  unfold invoke, start.
  rewrite (workdir_entered _ _ _ _ _ _ _ Hw).
  rewrite decide_reaches_unpack by now rewrite Hdest, Hd, Hf.
  rewrite Hdest, Hd. unfold cleared. rewrite Hn.
  change (rmtree_at ".") with rmtree_contents. cbn [app].
  unfold unpack, os_mkdir, bind, emit, get_fs, get_cwd, raise.
  cbn [fs cwd log]. rewrite Hn. unfold exists_at. rewrite Hl'.
  now rewrite <- app_assoc.
Qed.

Lemma force_on_dot_empties_the_working_directory_witness :
  invoke Host.env (Host.with_dest "." (Host.with_force true Host.request))
         false Host.disk []
  = (Raise (OSError EEXIST "."),
     State (Dir Host.root_owned
              [ ("srv", Dir Host.root_owned
                          [("pkg-2.3.rpm", File Host.root_owned "rpm")]);
                ("work", Dir Host.root_owned []) ])
           ["work"]
           [ EvChdir "/work"; EvGetcwd; EvIsdir "."; EvRmtree ".";
             EvMkdir "." ]).
Proof.
  exact (proj1 (force_on_dot_empties_the_working_directory
                  Host.env
                  (Host.with_dest "." (Host.with_force true Host.request))
                  Host.disk [] ["work"] Host.root_owned
                  [("notes", File Host.root_owned "todo")]
                  eq_refl eq_refl eq_refl eq_refl)).
Defined.





(** The filesystem the unpack phase leaves: the directory it made,
    holding what the pipeline wrote. *)
Lemma unpack_ok_fs env src dest result f w l0 s1 :
  unpack env src dest result (State f w l0) = (Ret tt, s1) ->
  exists L,
    namei f w dest = Some L
    /\ cwd s1 = L
    /\ lookup (fs s1) L
       = Some (Dir (Meta (euid env) (egid env) false)
                 (fst (fst (pipeline env (extract_cmd src)
                              (alter (fun _ => Some (fresh_dir env)) L f)
                              L)))).
Proof.
  unfold unpack, os_mkdir, os_chdir, os_popen_read_close.
  unfold bind at 1. unfold bind at 1. unfold emit at 1. cbn [fs cwd log].
  unfold bind at 1. unfold get_fs at 1. cbn [fs].
  unfold bind at 1. unfold get_cwd at 1. cbn [cwd].
  destruct (namei f w dest) as [L|] eqn:Hn; [|discriminate].
  destruct (exists_at f L) eqn:Hex; [discriminate|].
  destruct (dir_at f (removelast L)) eqn:Hpar; [|discriminate].
  destruct (may_write_at env f (removelast L)) eqn:Hmw; [|discriminate].
  assert (HL : lookup f L = None).
  { unfold exists_at in Hex. now destruct (lookup f L). }
  assert (Hne : L <> []) by (intros ->; discriminate).
  unfold put_fs at 1. cbn [fs cwd log].
  set (f1 := alter _ L f).
  assert (Hg1 : grows f f1) by now apply grows_created.
  assert (H1 : lookup f1 L = Some (fresh_dir env)).
  { now apply lookup_alter_created. }
  unfold bind at 1. unfold bind at 1. unfold bind at 1. unfold emit at 1.
  cbn [fs cwd log]. unfold bind at 1. unfold get_fs at 1. cbn [fs].
  unfold bind at 1. unfold get_cwd at 1. cbn [cwd].
  rewrite (namei_grows f f1 w dest L Hg1 Hn).
  assert (Hd1 : dir_at f1 L = true) by (unfold dir_at; now rewrite H1).
  rewrite Hd1.
  unfold put_cwd at 1. cbn [fs cwd log].
  unfold bind at 1. unfold bind at 1. unfold get_fs at 1. cbn [fs cwd log].
  unfold bind at 1. unfold get_cwd at 1. cbn [fs cwd log].
  destruct (pipeline env (extract_cmd src) f1 L) as [[written out] st] eqn:Hp.
  unfold bind, emit, put_fs, ret. cbn [fs cwd log snd fst].
  destruct (truthy_status _); [discriminate|].
  intros [= <-]. exists L. cbn [fs cwd].
  split; [reflexivity|]. split; [reflexivity|].
  rewrite (lookup_alter_here (populate written) L f1 (fresh_dir env)
             (Dir (Meta (euid env) (egid env) false)
                (merge_entries written [])) H1 eq_refl).
  unfold merge_entries. cbn [filter]. fold f1. rewrite Hp.
  cbn [fst]. now rewrite app_nil_r.
Qed.

Definition same_entries (f0 : node) (s : state) : Prop :=
  forall l, exists_at (fs s) l = exists_at f0 l.

(** The ownership phase neither adds nor removes an entry. *)
Lemma normalize_keeps_entries f0 env owner group rd :
  preserves (same_entries f0) (normalize env owner group rd).
Proof.
  apply preserves_normalize.
  - intros name [f c l] H. unfold_calls. cbn.
    now destruct (passwd env name).
  - intros name [f c l] H. unfold_calls. cbn.
    now destruct (groupdb env name).
  - intros [f c l] H. unfold_calls. now cbn.
  - intros p uid gid s H. unfold_calls. cbn. case_split; try exact H.
    intros q. cbn [fs].
    rewrite exists_at_alter_meta by apply chown_node_meta_only. apply H.
Qed.

(** With [force] and a destination, given as a single name (no slash,
    neither ["."] nor [".."]), that is there, a run that ends
    successfully reports a change and leaves in the destination exactly
    the names the pipeline wrote into the directory made anew: no entry
    of the old contents is left over. *)
Theorem forced_run_leaves_no_old_entry env params f c w n out s' :
  p_force params = true ->
  workdir env params f c = Some w ->
  valid_name (final_dest env params) = true ->
  lookup f (w ++ [final_dest env params]) = Some n ->
  stat_is_dir n = true ->
  invoke env params false f c = (Raise (SystemExit 0 out), s') ->
  let L := w ++ [final_dest env params] in
  let emptied :=
    alter (fun _ => Some (fresh_dir env)) L (alter rmtree_entry L f) in
  let written :=
    fst (fst (pipeline env (extract_cmd (resolved_src env params))
                       emptied L)) in
  dict_get "changed" out = Some (VBool true)
  /\ forall k,
       exists_at (fs s') (L ++ [k])
       = match assoc k written with
         | Some _ => true
         | None => false
         end.
Proof.
  intros Hf Hw Hk Hl Hs H. cbv zeta.
  set (dest := final_dest env params) in *.
  set (L := w ++ [dest]) in *.
  set (emptied := alter (fun _ => Some (fresh_dir env)) L
                    (alter rmtree_entry L f)).
  set (written := fst (fst (pipeline env
                              (extract_cmd (resolved_src env params))
                              emptied L))).
  pose proof (dir_at_parent _ _ _ _ Hl) as Hdw.
  assert (Hn : namei f w dest = Some L).
  { now rewrite (namei_valid_name f w dest Hk), Hdw. }
  assert (Hd : path_isdir f w dest = true).
  { unfold path_isdir. now rewrite Hn, Hl. }
  split.
  { destruct (successful_real_run _ _ _ _ _ _ H)
      as (w' & _ & [(_ & Hf' & _)|(_ & ->)]); [congruence|].
    apply dict_get_set_same. now rewrite prepared_result_changed. }
  unfold invoke, start in H.
  rewrite (workdir_entered _ _ _ _ _ _ _ Hw) in H.
  rewrite decide_reaches_unpack in H by (fold dest; now rewrite Hd, Hf).
  fold dest in H. rewrite Hd in H. unfold cleared in H.
  rewrite Hn, (rmtree_at_valid_name dest Hk) in H.
  set (f' := alter rmtree_entry L f) in *.
  assert (Hn' : namei f' w dest = Some L).
  { rewrite (namei_valid_name f' w dest Hk).
    unfold f'. rewrite dir_at_alter_elsewhere;
      [reflexivity|apply strip_prefix_longer|assumption]. }
  remember (State f' w _) as s0 eqn:Hs0.
  unfold bind at 1 in H.
  destruct (unpack env _ _ _ s0) as [[[]|e] sA] eqn:Hu.
  2:{ injection H as -> _. subst s0. apply unpack_inv in Hu.
      destruct Hu as [(e' & [=] & _)|[(e' & f1 & [=] & _)|(st & f1 & d & _ & _ & Hr)]].
      destruct (Z.eqb st 0); discriminate. }
  subst s0. apply unpack_ok_fs in Hu.
  destruct Hu as (L' & HnL & _ & HlA).
  rewrite Hn' in HnL. injection HnL as <-.
  set (rd := PosixPath.join (render w) dest) in *.
  assert (Hs1 : s' = snd (normalize env (p_owner params) (p_group params)
                            rd sA)).
  { unfold bind in H.
    destruct (normalize _ _ _ _ sA) as [[[]|e] sB]; cbn [snd].
    - unfold exit_json, raise in H. now injection H.
    - now injection H. }
  intros k. subst s'.
  rewrite (normalize_keeps_entries (fs sA) env _ _ rd sA (fun l => eq_refl)).
  unfold exists_at. rewrite lookup_app, HlA. cbn [lookup].
  fold emptied. fold written. now destruct (assoc k written).
Qed.

(** [/work/pkg-2.3] is there from an earlier version of the archive. *)
Definition disk_stale : node :=
  Dir Host.root_owned
    [ ("srv", Dir Host.root_owned
                [("pkg-2.3.rpm", File Host.root_owned "rpm")]);
      ("work", Dir Host.root_owned
                 [("pkg-2.3",
                   Dir Host.root_owned
                     [("etc", Dir Host.root_owned
                                [("old.conf", File Host.root_owned "x")])])]) ].

Lemma forced_run_on_host :
  invoke Host.env (Host.with_force true Host.request) false disk_stale []
  = (Raise (SystemExit 0
       [ ("changed", VBool true); ("src", VStr "/srv/pkg-2.3.rpm");
         ("dest", VStr "pkg-2.3"); ("chdir", VStr "/work");
         ("owner", VNone); ("group", VNone); ("force", VBool true) ]),
     State
       (Dir Host.root_owned
          [ ("srv", Dir Host.root_owned
                      [("pkg-2.3.rpm", File Host.root_owned "rpm")]);
            ("work", Dir Host.root_owned
                       [("pkg-2.3", Dir Host.root_owned Host.payload)]) ])
       ["work"; "pkg-2.3"]
       [ EvChdir "/work"; EvGetcwd; EvIsdir "pkg-2.3"; EvRmtree "pkg-2.3";
         EvMkdir "pkg-2.3"; EvChdir "pkg-2.3";
         EvPopen (extract_cmd "/srv/pkg-2.3.rpm") 0 ]).
Proof. vm_compute. reflexivity. Qed.

Lemma forced_run_leaves_no_old_entry_witness :
  exists_at
    (Dir Host.root_owned
       [ ("srv", Dir Host.root_owned
                   [("pkg-2.3.rpm", File Host.root_owned "rpm")]);
         ("work", Dir Host.root_owned
                    [("pkg-2.3", Dir Host.root_owned Host.payload)]) ])
    (["work"; "pkg-2.3"] ++ ["etc"]) = false
  /\ exists_at disk_stale (["work"; "pkg-2.3"] ++ ["etc"]) = true.
Proof.
  destruct (forced_run_leaves_no_old_entry
              Host.env (Host.with_force true Host.request) disk_stale []
              ["work"] _ _ _ eq_refl eq_refl eq_refl eq_refl eq_refl
              forced_run_on_host)
    as [_ H].
  split; [exact (H "etc")|reflexivity].
Defined.

(** ** Runs that reach the pipeline *)









(** ** The destination root as the walk sees it *)














(** The run on the concrete host that gives the tree to [deploy]. *)
Module HostOwned.

Definition request : Params := Host.with_owner "deploy" Host.request.

Definition final : state :=
  Eval vm_compute in snd (invoke Host.env request false Host.disk []).


End HostOwned.


(** ** What the reported [changed] means *)

(** With [force], every run that ends successfully, real or in check
    mode, reports [changed] true, whatever is on disk. *)
Theorem force_always_reports_a_change env params cm f c out s' :
  p_force params = true ->
  invoke env params cm f c = (Raise (SystemExit 0 out), s') ->
  dict_get "changed" out = Some (VBool true).
Proof.
  intros Hf H. destruct cm.
  - destruct (workdir env params f c) as [w|] eqn:Hw.
    + rewrite (check_mode_run _ _ _ _ _ Hw) in H. injection H as <- _.
      rewrite Hf.
      replace (if path_isdir f w (final_dest env params) then true else true)
        with true by now destruct (path_isdir f w (final_dest env params)).
      apply dict_get_set_same.
      now rewrite prepared_result_changed.
    + rewrite (run_without_workdir env params true f c Hw) in H.
      discriminate.
  - destruct (successful_real_run _ _ _ _ _ _ H)
      as (w & _ & [(_ & Hf' & _)|(_ & ->)]); [congruence|].
    apply dict_get_set_same. now rewrite prepared_result_changed.
Qed.

Lemma force_always_reports_a_change_witness :
  dict_get "changed"
    [ ("changed", VBool true); ("src", VStr "/srv/pkg-2.3.rpm");
      ("dest", VStr "pkg-2.3"); ("chdir", VStr "/work");
      ("owner", VNone); ("group", VNone); ("force", VBool true) ]
  = Some (VBool true).
Proof.
  exact (force_always_reports_a_change
           Host.env (Host.with_force true Host.request) false disk_stale []
           _ _ eq_refl forced_run_on_host).
Defined.

(** A real run that reports [changed] false found the destination
    directory in place with [force] off, and wrote nothing: the
    filesystem is the one it started with and no call that can write
    was issued. *)
Theorem unchanged_means_untouched env params f c out s' :
  invoke env params false f c = (Raise (SystemExit 0 out), s') ->
  dict_get "changed" out = Some (VBool false) ->
  fs s' = f
  /\ p_force params = false
  /\ forallb (fun e => negb (is_mutation e)) (log s') = true
  /\ exists w,
       workdir env params f c = Some w
       /\ path_isdir f w (final_dest env params) = true
       /\ cwd s' = w.
Proof.
  intros H Hc.
  destruct (successful_real_run _ _ _ _ _ _ H)
    as (w & Hw & [(Hd & Hf & ->)|(_ & ->)]).
  2:{ rewrite dict_get_set_same in Hc; [discriminate|].
      now rewrite prepared_result_changed. }
  unfold invoke, start in H.
  rewrite (workdir_entered _ _ _ _ _ _ _ Hw) in H.
  rewrite (decide_present_no_force _ _ _ _ _ _ Hd Hf) in H.
  injection H as <-. cbn [fs cwd log].
  split; [reflexivity|]. split; [assumption|]. split.
  - rewrite !forallb_app.
    rewrite (entry_log_quiet env params (fun e => negb (is_mutation e))
               (fun _ => eq_refl) eq_refl).
    reflexivity.
  - exists w. auto.
Qed.

Lemma second_run_on_host :
  invoke Host.env Host.request false Host.disk_unpacked []
  = (Raise (SystemExit 0
       [ ("changed", VBool false); ("src", VStr "/srv/pkg-2.3.rpm");
         ("dest", VStr "pkg-2.3"); ("chdir", VStr "/work");
         ("owner", VNone); ("group", VNone); ("force", VBool false) ]),
     State Host.disk_unpacked ["work"]
       [EvChdir "/work"; EvGetcwd; EvIsdir "pkg-2.3"]).
Proof. vm_compute. reflexivity. Qed.

Lemma unchanged_means_untouched_witness :
  fs (State Host.disk_unpacked ["work"]
        [EvChdir "/work"; EvGetcwd; EvIsdir "pkg-2.3"])
  = Host.disk_unpacked
  /\ p_force Host.request = false.
Proof.
  destruct (unchanged_means_untouched
              Host.env Host.request Host.disk_unpacked [] _ _
              second_run_on_host eq_refl)
    as (H1 & H2 & _).
  split; [exact H1|exact H2].
Defined.

(** ** The echoed request *)

Lemma keys_dict_set k v d :
  dict_get k d <> None -> map fst (dict_set k v d) = map fst d.
Proof.
  induction d as [|[k' v'] t IH]; cbn; [congruence|].
  destruct (String.eqb k' k) eqn:E; cbn; [reflexivity|].
  intros H. now rewrite IH.
Qed.

Lemma prepared_result_keys env params :
  map fst (prepared_result env params)
  = ["changed"; "src"; "dest"; "chdir"; "owner"; "group"; "force"].
Proof.
  unfold prepared_result.
  now destruct (PyStr.truthy (resolved_dest env params)).
Qed.

Lemma truthy_str_of o : PyStr.truthy o = true -> of_opt o = VStr (str_of o).
Proof. now destruct o. Qed.

(** The keyword arguments that a successful run, real or in check
    mode, hands to [exit_json] are [changed] and the request as it was
    resolved, in this order: the source path after [expanduser], the
    destination name the run used (the default when none was given),
    the working directory, and the owner, group and [force] as they
    were passed. *)
Theorem successful_output_echoes_the_request env params cm f c out s' :
  invoke env params cm f c = (Raise (SystemExit 0 out), s') ->
  map fst out
  = ["changed"; "src"; "dest"; "chdir"; "owner"; "group"; "force"]
  /\ dict_get "src" out = Some (VStr (expanduser env (p_src params)))
  /\ dict_get "dest" out = Some (VStr (final_dest env params))
  /\ dict_get "chdir" out = Some (of_opt (resolved_chdir env params))
  /\ dict_get "owner" out = Some (of_opt (p_owner params))
  /\ dict_get "group" out = Some (of_opt (p_group params))
  /\ dict_get "force" out = Some (VBool (p_force params)).
Proof.
  intros H.
  assert (Hout : exists b,
             out = dict_set "changed" (VBool b) (prepared_result env params)).
  { destruct cm.
    - destruct (workdir env params f c) as [w|] eqn:Hw.
      + rewrite (check_mode_run _ _ _ _ _ Hw) in H. injection H as <- _.
        eauto.
      + rewrite (run_without_workdir env params true f c Hw) in H.
        discriminate.
    - destruct (successful_real_run _ _ _ _ _ _ H)
        as (w & _ & [(_ & _ & ->)|(_ & ->)]).
      + exists false. now rewrite prepared_result_unchanged.
      + eauto. }
  destruct Hout as [b ->].
  assert (Hdest : dict_get "dest" (prepared_result env params)
                  = Some (VStr (final_dest env params))).
  { rewrite prepared_result_dest. unfold final_dest.
    destruct (PyStr.truthy (resolved_dest env params)) eqn:Ht;
      [|reflexivity].
    now rewrite (truthy_str_of _ Ht). }
  split.
  { rewrite keys_dict_set; [apply prepared_result_keys|].
    now rewrite prepared_result_changed. }
  rewrite !dict_get_set_other by discriminate.
  split; [|split; [exact Hdest|]];
    unfold prepared_result;
    destruct (PyStr.truthy (resolved_dest env params)); repeat split.
Qed.

Lemma successful_output_echoes_the_request_witness :
  dict_get "dest"
    [ ("changed", VBool true); ("src", VStr "/srv/pkg-2.3.rpm");
      ("dest", VStr "pkg-2.3"); ("chdir", VStr "/work");
      ("owner", VNone); ("group", VNone); ("force", VBool false) ]
  = Some (VStr (final_dest Host.env Host.request)).
Proof.
  destruct (successful_output_echoes_the_request
              Host.env Host.request false Host.disk [] _ _ first_run_on_host)
    as (_ & _ & H & _).
  exact H.
Defined.

(** ** Empty strings

    Lines 132, 135, 151, 156, 206, 212 and 218 test the options for
    truth, so that an empty string is handled as an option that was not
    given.  Only the echo of [owner] and [group] in the result, which is
    filled in from the raw values at lines 143 and 144, tells the two
    apart. *)




















